(** * FitnessBackendService: the resilience layer of the mobile client

    A shallow embedding of the TypeScript class [FitnessBackendService]
    (connectivity tracking, retry executor, offline queue, TTL cache,
    response validation, fallback synthesis) and the properties of its
    specification.

    Conventions of the embedding.
    - The backoff delay is computed as the code computes it, in IEEE 754
      binary64 with rounding to nearest, overflow and NaN ([Float64]).
      The numbers of payloads and of the synthetic pose data are exact
      rationals ([Q]); counters, HTTP statuses and [Date.now()] readings
      are integers ([Z]).
    - A string is the sequence of its code units, each below 256: the
      embedding covers Latin-1 text, on which [toLowerCase] is the
      lower-casing of JavaScript.  The message of a chat user, which may
      hold any character, is the sequence of its UTF-16 code units
      ([Utf16.t]) and is lower-cased by the platform.
    - The service is single-threaded: a method is a function from the
      world before the call to the world after it and either a returned
      value or a thrown error.  Every [await] on network I/O or on a timer
      consumes one event of an environment oracle, which says how much time
      passed, which connectivity notifications arrived meanwhile and how
      the transport answered.  The clock stands still between two
      suspensions, and a task runs to its end: tasks are not interleaved.
    - Platform primitives that are not part of the repository
      ([Math.sin], [Number.prototype.toString], [Date.prototype.toISOString],
      the wording of engine errors) are fields of a [Platform] record.
    - [console.log] output, request bodies and the optional upload progress
      callback are observers only and are left out. *)

From Stdlib Require Import ZArith QArith Qround Qminmax Qpower String Ascii List Lia Lqa.
From stdpp Require Import gmap strings pretty.

Set Warnings "-register-all".
Local Open Scope string_scope.

(** ** Strings as JavaScript uses them *)

Module JsString.

(** [c.toLowerCase()] for a code unit below 256: the capitals [A] to [Z]
    and those of Latin-1, U+00C0 to U+00DE without the multiplication
    sign U+00D7, are 32 below their small letters; every other code unit
    of that range is its own lower case. *)
Definition lowerCodeUnit (c : ascii) : ascii :=
  let n := nat_of_ascii c in
  if (((65 <=? n)%nat && (n <=? 90)%nat)
      || ((192 <=? n)%nat && (n <=? 222)%nat && negb (n =? 215)%nat))%bool
  then ascii_of_nat (n + 32)
  else c.

Fixpoint toLowerCase (s : string) : string :=
  match s with
  | EmptyString => EmptyString
  | String c s' => String (lowerCodeUnit c) (toLowerCase s')
  end.

(** [s.includes(sub)] *)
Fixpoint includes (s sub : string) : bool :=
  (String.prefix sub s ||
   match s with
   | EmptyString => false
   | String _ s' => includes s' sub
   end)%bool.

(** Decimal rendering of an integer inside a template string. *)
Definition ofZ (z : Z) : string := pretty z.

Definition isEmpty (s : string) : bool :=
  match s with EmptyString => true | _ => false end.

End JsString.

(** ** Text of any script: UTF-16 *)

(** A string that may hold any character is the sequence of its UTF-16
    code units. *)
Module Utf16.

Definition t := list N.

(** The code units of a string of the embedding. *)
Definition ofString (s : string) : t := map N_of_ascii (list_ascii_of_string s).

Fixpoint startsWith (s sub : t) : bool :=
  match sub, s with
  | nil, _ => true
  | _, nil => false
  | a :: sub', b :: s' => ((a =? b)%N && startsWith s' sub')%bool
  end.

(** [s.includes(sub)] *)
Fixpoint includes (s sub : t) : bool :=
  (startsWith s sub ||
   match s with
   | nil => false
   | _ :: s' => includes s' sub
   end)%bool.

End Utf16.

(** ** Decoded JSON payloads *)

(** The result of [JSON.parse] / [response.json()], extended with
    [undefined] for absent properties. *)
Inductive JSValue : Type :=
| JUndefined
| JNull
| JBool (b : bool)
| JNum (q : Q)
| JStr (s : string)
| JArr (items : list JSValue)
| JObj (fields : list (string * JSValue))
| JBuiltin (key : string).
(** [JBuiltin k] is the member [k] that every object literal inherits from
    [Object.prototype]; a table indexed by a caller-supplied string can
    hand it out. *)

Inductive JsType := TUndefined | TObject | TBoolean | TNumber | TString | TFunction.

(** The members of [Object.prototype] (ECMAScript, with Annex B). *)
Definition Object_prototype_keys : list string :=
  [ "constructor"; "toString"; "toLocaleString"; "valueOf"; "hasOwnProperty";
    "isPrototypeOf"; "propertyIsEnumerable"; "__proto__";
    "__defineGetter__"; "__defineSetter__"; "__lookupGetter__"; "__lookupSetter__" ].

Module Js.

(** [typeof v] *)
Definition typeof (v : JSValue) : JsType :=
  match v with
  | JUndefined => TUndefined
  | JNull | JArr _ | JObj _ => TObject
  | JBool _ => TBoolean
  | JNum _ => TNumber
  | JStr _ => TString
  | JBuiltin k => if String.eqb k "__proto__" then TObject else TFunction
  end.

Definition isObjectType (v : JSValue) : bool :=
  match typeof v with TObject => true | _ => false end.
Definition isArray (v : JSValue) : bool :=
  match v with JArr _ => true | _ => false end.

(** Truthiness: [undefined], [null], [false], [0] and [""] are falsy. *)
Definition truthy (v : JSValue) : bool :=
  match v with
  | JUndefined | JNull => false
  | JBool b => b
  | JNum q => negb (Qeq_bool q 0)
  | JStr s => negb (JsString.isEmpty s)
  | JArr _ | JObj _ | JBuiltin _ => true
  end.

(** [a || b] *)
Definition or (a b : JSValue) : JSValue := if truthy a then a else b.

Fixpoint assoc (k : string) (fs : list (string * JSValue)) : option JSValue :=
  match fs with
  | [] => None
  | (k', v) :: fs' => if String.eqb k k' then Some v else assoc k fs'
  end.

(** [k in v] for a value already known to be a non-null object; the keys
    used by the service are none of the inherited ones. *)
Definition hasKey (k : string) (v : JSValue) : bool :=
  match v with
  | JObj fs => match assoc k fs with Some _ => true | None => false end
  | _ => false
  end.

(** [v.k] for the property names the service reads (none of them is
    inherited, and the service never reads a member of a built-in):
    [None] stands for the TypeError raised on [null] and [undefined];
    every other value answers, with [undefined] when it has no such
    property. *)
Definition get (k : string) (v : JSValue) : option JSValue :=
  match v with
  | JUndefined | JNull => None
  | JObj fs => Some (match assoc k fs with Some x => x | None => JUndefined end)
  | _ => Some JUndefined
  end.

Definition getOr (k : string) (v : JSValue) : JSValue :=
  match get k v with Some x => x | None => JUndefined end.

(** [table[key]] on an object literal: own properties first, then the
    prototype chain. *)
Definition index (table : list (string * JSValue)) (key : string) : JSValue :=
  match assoc key table with
  | Some v => v
  | None =>
      if existsb (String.eqb key) Object_prototype_keys then JBuiltin key
      else JUndefined
  end.

End Js.

(** ** JavaScript numbers: IEEE 754 binary64 *)

(** A number is a finite double, given by its exact rational value, an
    infinity or NaN.  The sign of zero is not recorded: nothing the
    service computes with these operations depends on it. *)
Module Float64.

Inductive t :=
| NaN
| NegInfinity
| Finite (q : Q)
| Infinity.

Definition Qltb (a b : Q) : bool := negb (Qle_bool b a).

(** Round to the nearest integer, ties to even. *)
Definition rne (x : Q) : Z :=
  let f := Qfloor x in
  match (x - inject_Z f ?= 1 # 2)%Q with
  | Lt => f
  | Gt => (f + 1)%Z
  | Eq => if Z.even f then f else (f + 1)%Z
  end.

(** The least exponent of the format: doubles below [2^-1022] are
    multiples of [2^-1074]. *)
Definition emin : Z := -1074.

(** [floor (log2 x)] for a positive [x]: the estimate from the sizes of
    numerator and denominator is that value or one more. *)
Definition ilog2 (x : Q) : Z :=
  let l := (Z.log2 (Qnum x) - Z.log2 (Z.pos (Qden x)))%Z in
  if Qle_bool (2 ^ l) x then l else (l - 1)%Z.

(** The exponent [e] of the grid [2^e * Z] on which a positive [x] is
    rounded: 53 significant bits, and no grid finer than [2^emin]. *)
Definition exponent (x : Q) : Z := Z.max emin (ilog2 x - 52).

(** The point of the grid of [x] nearest to [x], ties to even. *)
Definition nearest (x : Q) : Q :=
  let e := exponent x in
  (inject_Z (rne (x * 2 ^ (- e))) * 2 ^ e)%Q.

(** Rounding of a non-negative real to the nearest double; what reaches
    [2^1024] overflows. *)
Definition roundNonneg (x : Q) : t :=
  if Qle_bool (2 ^ 1024) x then Infinity
  else if Qle_bool (2 ^ 1024) (nearest x) then Infinity
  else Finite (Qred (nearest x)).

Definition opp (a : t) : t :=
  match a with
  | NaN => NaN
  | NegInfinity => Infinity
  | Finite q => Finite (Qred (- q))
  | Infinity => NegInfinity
  end.

(** The double nearest to a real number. *)
Definition round (x : Q) : t :=
  let x := Qred x in
  if Qle_bool 0 x then roundNonneg x else opp (roundNonneg (- x)).

(** [a * b] *)
Definition mul (a b : t) : t :=
  let signed (x : Q) (positive : t) : t :=
    if Qeq_bool x 0 then NaN
    else if Qle_bool 0 x then positive else opp positive in
  match a, b with
  | NaN, _ | _, NaN => NaN
  | Finite x, Finite y => round (x * y)
  | Finite x, Infinity | Infinity, Finite x => signed x Infinity
  | Finite x, NegInfinity | NegInfinity, Finite x => signed x NegInfinity
  | Infinity, Infinity | NegInfinity, NegInfinity => Infinity
  | Infinity, NegInfinity | NegInfinity, Infinity => NegInfinity
  end.

(** [a + b] *)
Definition add (a b : t) : t :=
  match a, b with
  | NaN, _ | _, NaN => NaN
  | Finite x, Finite y => round (x + y)
  | Infinity, NegInfinity | NegInfinity, Infinity => NaN
  | Infinity, _ | _, Infinity => Infinity
  | NegInfinity, _ | _, NegInfinity => NegInfinity
  end.

(** [a <= b] *)
Definition leb (a b : t) : bool :=
  match a, b with
  | NaN, _ | _, NaN => false
  | NegInfinity, _ | _, Infinity => true
  | Finite x, Finite y => Qle_bool x y
  | Infinity, _ | _, NegInfinity => false
  end.

Definition le (a b : t) : Prop := leb a b = true.

(** [Math.min(a, b)] *)
Definition min (a b : t) : t :=
  match a, b with
  | NaN, _ | _, NaN => NaN
  | _, _ => if leb a b then a else b
  end.

(** The number that an integer converts to. *)
Definition ofZ (z : Z) : t := round (inject_Z z).

(** The literal [0.1] *)
Definition tenth : t := round (1 # 10).

End Float64.

(** What characterises the exponent of a positive number. *)
Definition isExponent (x : Q) (e : Z) : Prop :=
  (Float64.emin <= e)%Z /\ (x < 2 ^ (e + 53))%Q /\
  (e = Float64.emin \/ (2 ^ (e + 52) <= x)%Q).

(** ** Platform primitives *)

Record Platform := {
  Math_sin : Q -> Q;
  Math_PI : Q;
  (** [x.toString(36).substr(2, 9)] of a [Math.random()] draw *)
  Number_base36_token : Q -> string;
  (** [new Date(ms).toISOString()] *)
  Date_toISOString : Z -> string;
  (** message of the TypeError raised by reading property [k] of
      [null] or [undefined] *)
  TypeError_message : string -> string;
  (** string conversion of a value interpolated in a template string *)
  ToString : JSValue -> string;
  (** [Math.pow], which engines compute to an approximation of their own *)
  Math_pow : Float64.t -> Float64.t -> Float64.t;
  (** [String.prototype.toLowerCase] on text of any script: the case
      mapping of Unicode that the engine implements *)
  String_toLowerCase : Utf16.t -> Utf16.t
}.

(** ** Thrown values and results *)

(** Everything the service throws is an [Error] carrying a message, except
    the uninitialised [lastError] of [executeWithRetry]. *)
Inductive Thrown :=
| Err (message : string)
| ThrownUndefined.

Inductive Result (T : Type) :=
| Return (v : T)
| Throw (e : Thrown).
Arguments Return {T} v.
Arguments Throw {T} e.

(** ** Data model *)

Module PoseKeypoint.
Record t := {
  x : Q;
  y : Q;
  z : option Q;
  visibility : option Q;
  name : string
}.
End PoseKeypoint.

Module Stage.
Inductive t := up | down | hold | rest.
End Stage.

Module PoseData.
Record t := {
  keypoints : list PoseKeypoint.t;
  confidence : Q;
  formScore : Q;
  currentRep : Q;
  stage : Stage.t;
  warnings : list JSValue;
  timestamp : JSValue
}.
End PoseData.

Module AnalysisResult.
Record t := {
  sessionId : string;
  exerciseType : string;
  totalReps : Q;
  accuracy : Q;
  formFeedback : list JSValue;
  keypoints : list PoseKeypoint.t;
  duration : Q;
  calories : Q;
  recommendations : list JSValue;
  timestamp : JSValue
}.
End AnalysisResult.

(** An exercise configuration is the object the backend sent (after
    [transformExerciseConfig]) or a literal of the fallback table; its
    fields are kept as they are at run time. *)
Definition ExerciseConfig := list (string * JSValue).

Module RetryConfig.
Record t := {
  maxRetries : Z;
  baseDelay : Float64.t;
  maxDelay : Float64.t;
  backoffFactor : Float64.t
}.
End RetryConfig.

Module RequestType.
Inductive t := video | frame | config | summary.
End RequestType.

Record SessionData := {
  sd_exerciseType : string;
  sd_duration : Q;
  sd_totalReps : Q;
  sd_averageAccuracy : Q;
  sd_userId : string
}.

(** The [data] of a queued request, by the shapes [queueRequest] is called
    with and [processQueuedRequest] reads back. *)
Inductive RequestData :=
| VideoData (videoPath exerciseType : string)
| FrameData (frameData exerciseType : string)
| ConfigData (exerciseType : string)
| SummaryData (sessionData : SessionData).

Module QueuedRequest.
Record t := {
  id : string;
  data : RequestData;
  timestamp : Z;
  retryCount : Z
}.

(** The [type] tag; every call of [queueRequest] pairs it with the
    matching shape of [data], so it is read off the data. *)
Definition typeOf (d : RequestData) : RequestType.t :=
  match d with
  | VideoData _ _ => RequestType.video
  | FrameData _ _ => RequestType.frame
  | ConfigData _ => RequestType.config
  | SummaryData _ => RequestType.summary
  end.

Definition type (r : t) : RequestType.t := typeOf (data r).

Definition typeName (ty : RequestType.t) : string :=
  match ty with
  | RequestType.video => "video"
  | RequestType.frame => "frame"
  | RequestType.config => "config"
  | RequestType.summary => "summary"
  end.
End QueuedRequest.

Module NetworkStatus.
Record t := {
  isConnected : bool;
  type : option string;
  isInternetReachable : option bool
}.
End NetworkStatus.

Module CacheEntry.
Record t := {
  data : ExerciseConfig;
  timestamp : Z;
  expiresAt : Z
}.
End CacheEntry.

(** The private fields of [FitnessBackendService]. *)
Record Service := {
  baseUrl : option string;
  authToken : option string;
  isInitialized : bool;
  requestQueue : list QueuedRequest.t;
  isProcessingQueue : bool;
  networkStatus : NetworkStatus.t;
  retryConfig : RetryConfig.t;
  configCache : gmap string CacheEntry.t
}.

Definition CACHE_DURATION : Z := 30 * 60 * 1000.

(** The field initialisers of the class. *)
Definition initialService : Service := {|
  baseUrl := None;
  authToken := None;
  isInitialized := false;
  requestQueue := [];
  isProcessingQueue := false;
  networkStatus := {| NetworkStatus.isConnected := true;
                      NetworkStatus.type := None;
                      NetworkStatus.isInternetReachable := None |};
  retryConfig := {| RetryConfig.maxRetries := 3;
                    RetryConfig.baseDelay := Float64.Finite 1000;
                    RetryConfig.maxDelay := Float64.Finite 10000;
                    RetryConfig.backoffFactor := Float64.Finite 2 |};
  configCache := ∅
|}.

(** ** Environment *)

(** A connectivity notification of the platform ([NetInfo] state). *)
Record NetInfoState := {
  ni_isConnected : option bool;
  ni_type : string;
  ni_isInternetReachable : option bool
}.

Record HttpResponse := {
  status : Z;
  statusText : string;
  (** the decoded body, or the message of the SyntaxError of the decoder *)
  body : JSValue + string
}.

Inductive Transport :=
| Responded (r : HttpResponse)
| NetworkError
| TimedOut.

(** What happened while the task was suspended at one [await]. *)
Record AwaitEvent := {
  elapsed : Z;
  notifications : list NetInfoState;
  transport : Transport
}.

Record Env := {
  awaitEvent : nat -> AwaitEvent;
  (** successive results of [Math.random()] *)
  random : nat -> Q
}.

(** The trace of a run, in the order things happen: the network calls
    sent and the backoff waits are the effects of the service; [Enqueued]
    and [ReplayStart] mark the moment a request enters the offline queue
    and the moment its replay begins; [DrainScheduled] is the [setTimeout]
    that starts the next run of [processRequestQueue]. *)
Inductive Event :=
| NetCall (method url : string)
| Sleep (delay : Float64.t)
| Enqueued (id : string)
| ReplayStart (id : string)
| DrainScheduled (delay : Z).

Record World := {
  this : Service;
  now : Z;
  awaits : nat;
  draws : nat;
  trace : list Event
}.

Definition with_this (f : Service -> Service) (w : World) : World :=
  {| this := f (this w); now := now w; awaits := awaits w; draws := draws w;
     trace := trace w |}.

Definition emit (e : Event) (w : World) : World :=
  {| this := this w; now := now w; awaits := awaits w; draws := draws w;
     trace := trace w ++ [e] |}.

Definition set_requestQueue (q : list QueuedRequest.t) (s : Service) : Service :=
  {| baseUrl := baseUrl s; authToken := authToken s; isInitialized := isInitialized s;
     requestQueue := q; isProcessingQueue := isProcessingQueue s;
     networkStatus := networkStatus s; retryConfig := retryConfig s;
     configCache := configCache s |}.

Definition set_isProcessingQueue (b : bool) (s : Service) : Service :=
  {| baseUrl := baseUrl s; authToken := authToken s; isInitialized := isInitialized s;
     requestQueue := requestQueue s; isProcessingQueue := b;
     networkStatus := networkStatus s; retryConfig := retryConfig s;
     configCache := configCache s |}.

Definition set_networkStatus (n : NetworkStatus.t) (s : Service) : Service :=
  {| baseUrl := baseUrl s; authToken := authToken s; isInitialized := isInitialized s;
     requestQueue := requestQueue s; isProcessingQueue := isProcessingQueue s;
     networkStatus := n; retryConfig := retryConfig s;
     configCache := configCache s |}.

Definition set_configCache (c : gmap string CacheEntry.t) (s : Service) : Service :=
  {| baseUrl := baseUrl s; authToken := authToken s; isInitialized := isInitialized s;
     requestQueue := requestQueue s; isProcessingQueue := isProcessingQueue s;
     networkStatus := networkStatus s; retryConfig := retryConfig s;
     configCache := c |}.

Definition set_retryConfig (c : RetryConfig.t) (s : Service) : Service :=
  {| baseUrl := baseUrl s; authToken := authToken s; isInitialized := isInitialized s;
     requestQueue := requestQueue s; isProcessingQueue := isProcessingQueue s;
     networkStatus := networkStatus s; retryConfig := c;
     configCache := configCache s |}.

(** [this.networkStatus.isConnected] *)
Definition connected (w : World) : bool :=
  NetworkStatus.isConnected (networkStatus (this w)).

(** [!this.baseUrl] is false: the URL is neither [null] nor empty. *)
Definition hasBaseUrl (w : World) : bool :=
  match baseUrl (this w) with
  | Some u => negb (JsString.isEmpty u)
  | None => false
  end.

Definition baseUrlString (w : World) : string :=
  match baseUrl (this w) with Some u => u | None => "null" end.

(** [state.isConnected ?? false] *)
Definition reportsOnline (state : NetInfoState) : bool :=
  match ni_isConnected state with Some b => b | None => false end.

(** [a < b] on JavaScript numbers. *)
Definition Qltb (a b : Q) : bool := negb (Qle_bool b a).

(** [Math.round]: the nearest integer, halves upwards. *)
Definition Math_round (q : Q) : Z := Qfloor (q + (1 # 2)).

Section Service.

Variable P : Platform.
Variable E : Env.

(** *** Connectivity monitoring *)

(** The listener registered by [initializeNetworkMonitoring]: the new
    service state, and whether [processRequestQueue] was started. *)
Definition onNetworkChange (state : NetInfoState) (s : Service) : Service * bool :=
  let wasConnected := NetworkStatus.isConnected (networkStatus s) in
  let status := {|
    NetworkStatus.isConnected := reportsOnline state;
    NetworkStatus.type := Some (ni_type state);
    NetworkStatus.isInternetReachable := ni_isInternetReachable state |} in
  let s' := set_networkStatus status s in
  (s', negb wasConnected && NetworkStatus.isConnected status
       && (0 <? length (requestQueue s'))%nat).

(** One suspension of the running task.  Notifications that arrive
    meanwhile replace [networkStatus]; a drain they start is a task of
    its own and is not interleaved with the suspended one. *)
Definition await (w : World) : World * Transport :=
  let ev := awaitEvent E (awaits w) in
  ({| this := fold_left (fun s st => fst (onNetworkChange st s))
                        (notifications ev) (this w);
      now := (now w + elapsed ev)%Z;
      awaits := S (awaits w);
      draws := draws w;
      trace := trace w |},
   transport ev).

(** [await fetch(url, {method})]: rejects with the polyfill's TypeError
    when the transport fails.  The body travels with the response. *)
Definition fetch (method url : string) (w : World) : World * Result HttpResponse :=
  let '(w1, t) := await (emit (NetCall method url) w) in
  match t with
  | Responded r => (w1, Return r)
  | NetworkError | TimedOut => (w1, Throw (Err "Network request failed"))
  end.

(** [response.ok] *)
Definition ok (r : HttpResponse) : bool :=
  ((200 <=? status r)%Z && (status r <? 300)%Z)%bool.

(** [await response.json()] *)
Definition json (r : HttpResponse) : Result JSValue :=
  match body r with
  | inl v => Return v
  | inr msg => Throw (Err msg)
  end.

(** [Math.random()] *)
Definition Math_random (w : World) : Q * World :=
  (random E (draws w),
   {| this := this w; now := now w; awaits := awaits w; draws := S (draws w);
      trace := trace w |}).

(** [await new Promise(resolve => setTimeout(resolve, delay))] *)
Definition sleep (delay : Float64.t) (w : World) : World :=
  fst (await (emit (Sleep delay) w)).

(** *** Retry executor *)

(** The arithmetic is that of doubles; [Math.random()] yields a double
    in [[0, 1)], given by its value. *)
Definition calculateRetryDelay (retryCount : Z) (w : World) : Float64.t * World :=
  let cfg := retryConfig (this w) in
  let delay :=
    Float64.min
      (Float64.mul (RetryConfig.baseDelay cfg)
                   (Math_pow P (RetryConfig.backoffFactor cfg) (Float64.ofZ retryCount)))
      (RetryConfig.maxDelay cfg) in
  let '(r, w') := Math_random w in
  let jitter := Float64.mul (Float64.mul (Float64.Finite r) Float64.tenth) delay in
  (Float64.add delay jitter, w').

Definition isNonRetryableError (error : string) : bool :=
  let message := JsString.toLowerCase error in
  if (JsString.includes message "401" || JsString.includes message "unauthorized")%bool
  then true
  else if (JsString.includes message "400" || JsString.includes message "bad request")%bool
  then true
  else if (JsString.includes message "404" || JsString.includes message "not found")%bool
  then true
  else if (JsString.includes message "413"
           || JsString.includes message "payload too large")%bool
  then true
  else false.

(** The [try] block of one iteration of [executeWithRetry]. *)
Definition tryRequest {T} (requestFn : World -> World * Result T) (w : World)
  : World * Result T :=
  if negb (connected w) then (w, Throw (Err "No network connection"))
  else requestFn w.

(** The [for] loop of [executeWithRetry] from [attempt] on; [remaining]
    counts the iterations left, [maxRetries - attempt + 1]. *)
Fixpoint retryLoop {T} (requestFn : World -> World * Result T)
    (maxRetries : Z) (remaining : nat) (attempt : Z) (lastError : Thrown)
    (w : World) : World * Result T :=
  match remaining with
  | O => (w, Throw lastError)
  | S remaining' =>
      let '(w1, r) := tryRequest requestFn w in
      match r with
      | Return result => (w1, Return result)
      | Throw ThrownUndefined =>
          (* [error.message] of [undefined], inside the [catch] block *)
          (w1, Throw (Err (TypeError_message P "message")))
      | Throw (Err message as error) =>
          if isNonRetryableError message then (w1, Throw error)
          else if (attempt >=? maxRetries)%Z then (w1, Throw error)
          else
            let '(delay, w2) := calculateRetryDelay attempt w1 in
            retryLoop requestFn maxRetries remaining' (attempt + 1)%Z error
                      (sleep delay w2)
      end
  end.

Definition executeWithRetry {T} (requestFn : World -> World * Result T)
    (requestType : string) (maxRetries : Z) (w : World) : World * Result T :=
  retryLoop requestFn maxRetries (Z.to_nat (maxRetries + 1)) 0%Z ThrownUndefined w.

Definition defaultMaxRetries (w : World) : Z :=
  RetryConfig.maxRetries (retryConfig (this w)).

(** *** Response validation *)

Definition optionalNumber (v : JSValue) : option (option Q) :=
  match v with
  | JUndefined => Some None
  | JNum q => Some (Some q)
  | _ => None
  end.

(** The type guards return the typed view of the payload when they hold
    ([Return None] is the guard answering [false]). *)
Definition validatePoseKeypoint (keypoint : JSValue)
  : Result (option PoseKeypoint.t) :=
  if negb (Js.isObjectType keypoint) then Return None
  else
    match Js.get "x" keypoint with
    | None => Throw (Err (TypeError_message P "x"))
    | Some vx =>
        match vx, Js.getOr "y" keypoint, Js.getOr "name" keypoint with
        | JNum x, JNum y, JStr name =>
            match optionalNumber (Js.getOr "z" keypoint),
                  optionalNumber (Js.getOr "visibility" keypoint) with
            | Some z, Some visibility =>
                Return (Some {| PoseKeypoint.x := x; PoseKeypoint.y := y;
                                PoseKeypoint.z := z;
                                PoseKeypoint.visibility := visibility;
                                PoseKeypoint.name := name |})
            | _, _ => Return None
            end
        | _, _, _ => Return None
        end
    end.

(** [keypoints.every(kp => this.validatePoseKeypoint(kp))] *)
Fixpoint everyKeypoint (keypoints : list JSValue)
  : Result (option (list PoseKeypoint.t)) :=
  match keypoints with
  | [] => Return (Some [])
  | kp :: rest =>
      match validatePoseKeypoint kp with
      | Throw e => Throw e
      | Return None => Return None
      | Return (Some k) =>
          match everyKeypoint rest with
          | Throw e => Throw e
          | Return None => Return None
          | Return (Some ks) => Return (Some (k :: ks))
          end
      end
  end.

Definition hasAll (required : list string) (data : JSValue) : bool :=
  forallb (fun field => Js.hasKey field data) required.

Definition validateAnalysisResult (data : JSValue)
  : Result (option AnalysisResult.t) :=
  if (negb (Js.isObjectType data) || negb (Js.truthy data))%bool then Return None
  else if negb (hasAll ["sessionId"; "exerciseType"; "totalReps"; "accuracy";
                        "formFeedback"; "keypoints"; "duration"; "calories";
                        "recommendations"] data)
  then Return None
  else
    let f k := Js.getOr k data in
    match f "sessionId", f "exerciseType", f "totalReps", f "accuracy",
          f "duration" with
    | JStr sessionId, JStr exerciseType, JNum totalReps, JNum accuracy,
      JNum duration =>
        match f "calories", f "formFeedback", f "keypoints", f "recommendations" with
        | JNum calories, JArr formFeedback, JArr keypoints, JArr recommendations =>
            match everyKeypoint keypoints with
            | Throw e => Throw e
            | Return None => Return None
            | Return (Some kps) =>
                Return (Some {|
                  AnalysisResult.sessionId := sessionId;
                  AnalysisResult.exerciseType := exerciseType;
                  AnalysisResult.totalReps := totalReps;
                  AnalysisResult.accuracy := accuracy;
                  AnalysisResult.formFeedback := formFeedback;
                  AnalysisResult.keypoints := kps;
                  AnalysisResult.duration := duration;
                  AnalysisResult.calories := calories;
                  AnalysisResult.recommendations := recommendations;
                  AnalysisResult.timestamp := f "timestamp" |})
            end
        | _, _, _, _ => Return None
        end
    | _, _, _, _, _ => Return None
    end.

(** [validStages.includes(data.stage)] *)
Definition parseStage (s : string) : option Stage.t :=
  if String.eqb s "up" then Some Stage.up
  else if String.eqb s "down" then Some Stage.down
  else if String.eqb s "hold" then Some Stage.hold
  else if String.eqb s "rest" then Some Stage.rest
  else None.

Definition validatePoseData (data : JSValue) : Result (option PoseData.t) :=
  if (negb (Js.isObjectType data) || negb (Js.truthy data))%bool then Return None
  else if negb (hasAll ["keypoints"; "confidence"; "formScore"; "currentRep";
                        "stage"; "warnings"] data)
  then Return None
  else
    let f k := Js.getOr k data in
    match f "keypoints", f "confidence", f "formScore", f "currentRep",
          f "stage", f "warnings" with
    | JArr keypoints, JNum confidence, JNum formScore, JNum currentRep,
      JStr stage, JArr warnings =>
        match everyKeypoint keypoints with
        | Throw e => Throw e
        | Return None => Return None
        | Return (Some kps) =>
            match parseStage stage with
            | None => Return None
            | Some st =>
                Return (Some {|
                  PoseData.keypoints := kps;
                  PoseData.confidence := confidence;
                  PoseData.formScore := formScore;
                  PoseData.currentRep := currentRep;
                  PoseData.stage := st;
                  PoseData.warnings := warnings;
                  PoseData.timestamp := f "timestamp" |})
            end
        end
    | _, _, _, _, _, _ => Return None
    end.

Definition validateExerciseConfig (data : JSValue) : Result (option ExerciseConfig) :=
  if (negb (Js.isObjectType data) || negb (Js.truthy data))%bool then Return None
  else if negb (hasAll ["exerciseType"; "targetKeypoints"; "thresholds"; "feedback"]
                       data)
  then Return None
  else if negb (Js.isObjectType (Js.getOr "thresholds" data)) then Return None
  else if negb (Js.isObjectType (Js.getOr "feedback" data)) then Return None
  else if negb (Js.isArray (Js.getOr "targetKeypoints" data)) then Return None
  else
    match data with
    | JObj fields => Return (Some fields)
    | _ => Return None
    end.

(** A value interpolated in a template string. *)
Definition interpolate (v : JSValue) : string :=
  match v with
  | JStr s => s
  | _ => ToString P v
  end.

Definition parseApiResponse {T} (response : JSValue)
    (validator : JSValue -> Result (option T)) (context : string) : Result T :=
  let unwrapped : Result JSValue :=
    if (Js.truthy response && Js.isObjectType response
        && Js.hasKey "success" response)%bool
    then
      if negb (Js.truthy (Js.getOr "success" response)) then
        let errorMsg := Js.or (Js.getOr "error" response) (JStr "Unknown API error") in
        Throw (Err ("API Error in " ++ context ++ ": " ++ interpolate errorMsg))
      else if negb (Js.truthy (Js.getOr "data" response)) then
        Throw (Err ("No data in API response for " ++ context))
      else Return (Js.getOr "data" response)
    else Return response in
  match unwrapped with
  | Throw e => Throw e
  | Return data =>
      match validator data with
      | Throw e => Throw e
      | Return None => Throw (Err ("Invalid response structure for " ++ context))
      | Return (Some v) => Return v
      end
  end.

(** [rawKeypoints.map((kp, index) => ...)] on validated keypoints, from
    [index] on. *)
Fixpoint transformKeypointsFrom (index : Z) (rawKeypoints : list PoseKeypoint.t)
  : list PoseKeypoint.t :=
  match rawKeypoints with
  | [] => []
  | kp :: rest =>
      let keepTruthy (o : option Q) : option Q :=
        match o with
        | Some q => if Qeq_bool q 0 then None else Some q
        | None => None
        end in
      {| PoseKeypoint.x := PoseKeypoint.x kp;
         PoseKeypoint.y := PoseKeypoint.y kp;
         PoseKeypoint.z := keepTruthy (PoseKeypoint.z kp);
         PoseKeypoint.visibility := keepTruthy (PoseKeypoint.visibility kp);
         PoseKeypoint.name :=
           if JsString.isEmpty (PoseKeypoint.name kp)
           then "keypoint_" ++ JsString.ofZ index
           else PoseKeypoint.name kp |}
      :: transformKeypointsFrom (index + 1)%Z rest
  end.

Definition transformKeypoints (rawKeypoints : list PoseKeypoint.t)
  : list PoseKeypoint.t :=
  transformKeypointsFrom 0%Z rawKeypoints.

(** *** Fallback synthesis *)

Definition squatFallback : JSValue :=
  JObj [ ("exerciseType", JStr "squat");
         ("targetKeypoints",
          JArr [JStr "left_hip"; JStr "right_hip"; JStr "left_knee";
                JStr "right_knee"; JStr "left_ankle"; JStr "right_ankle"]);
         ("thresholds",
          JObj [("minAngle", JNum 90); ("maxAngle", JNum 170); ("holdTime", JNum 1)]);
         ("formChecks",
          JArr [JStr "knee_alignment"; JStr "back_straight"; JStr "depth_check"]);
         ("feedback",
          JObj [("realTimeEnabled", JBool true); ("audioEnabled", JBool true);
                ("visualEnabled", JBool true)]) ].

Definition pushUpFallback : JSValue :=
  JObj [ ("exerciseType", JStr "push_up");
         ("targetKeypoints",
          JArr [JStr "left_shoulder"; JStr "right_shoulder"; JStr "left_elbow";
                JStr "right_elbow"; JStr "left_wrist"; JStr "right_wrist"]);
         ("thresholds",
          JObj [("minAngle", JNum 45); ("maxAngle", JNum 160);
                ("holdTime", JNum 0.5)]);
         ("formChecks",
          JArr [JStr "elbow_alignment"; JStr "body_straight"; JStr "full_range"]);
         ("feedback",
          JObj [("realTimeEnabled", JBool true); ("audioEnabled", JBool true);
                ("visualEnabled", JBool true)]) ].

Definition fallbackConfigs : list (string * JSValue) :=
  [ ("squat", squatFallback); ("push_up", pushUpFallback) ].

(** [fallbackConfigs[exerciseType] || fallbackConfigs.squat] *)
Definition getFallbackExerciseConfig (exerciseType : string) : JSValue :=
  Js.or (Js.index fallbackConfigs exerciseType) squatFallback.

(** The property key a value is converted to when it indexes a table. *)
Definition propertyKey (v : JSValue) : string := interpolate v.

Definition upperBodyKeypoints : JSValue :=
  JArr [JStr "left_shoulder"; JStr "right_shoulder"; JStr "left_elbow";
        JStr "right_elbow"; JStr "left_wrist"; JStr "right_wrist"].

Definition squatKeypoints : JSValue :=
  JArr [JStr "left_hip"; JStr "right_hip"; JStr "left_knee"; JStr "right_knee";
        JStr "left_ankle"; JStr "right_ankle"].

Definition keypointMap : list (string * JSValue) :=
  [ ("squat", squatKeypoints);
    ("push_up", upperBodyKeypoints);
    ("hammer_curl", upperBodyKeypoints);
    ("chair_yoga",
     JArr [JStr "left_shoulder"; JStr "right_shoulder"; JStr "left_hip";
           JStr "right_hip"]);
    ("breathing_exercise",
     JArr [JStr "nose"; JStr "left_shoulder"; JStr "right_shoulder"]) ].

Definition getTargetKeypoints (exerciseType : JSValue) : JSValue :=
  Js.or (Js.index keypointMap (propertyKey exerciseType)) squatKeypoints.

Definition thresholdsOf (minAngle maxAngle holdTime : Q) : JSValue :=
  JObj [("minAngle", JNum minAngle); ("maxAngle", JNum maxAngle);
        ("holdTime", JNum holdTime)].

Definition thresholdMap : list (string * JSValue) :=
  [ ("squat", thresholdsOf 90 170 1);
    ("push_up", thresholdsOf 45 160 0.5);
    ("hammer_curl", thresholdsOf 30 150 0.3);
    ("chair_yoga", thresholdsOf 0 180 2);
    ("breathing_exercise", thresholdsOf 0 180 4) ].

Definition getDefaultThresholds (exerciseType : JSValue) : JSValue :=
  Js.or (Js.index thresholdMap (propertyKey exerciseType)) (thresholdsOf 90 170 1).

Definition transformExerciseConfig (backendConfig : JSValue) : Result JSValue :=
  match Js.get "exercise_type" backendConfig with
  | None => Throw (Err (TypeError_message P "exercise_type"))
  | Some _ =>
      let f k := Js.getOr k backendConfig in
      let exerciseType := Js.or (f "exercise_type") (f "exerciseType") in
      Return (JObj [
        ("exerciseType", exerciseType);
        ("name", f "name");
        ("description", f "description");
        ("targetKeypoints", getTargetKeypoints exerciseType);
        ("difficulty", f "difficulty");
        ("default_reps", f "default_reps");
        ("default_sets", f "default_sets");
        ("instructions", f "instructions");
        ("formChecks", Js.or (Js.or (f "form_tips") (f "formChecks")) (JArr []));
        ("thresholds", getDefaultThresholds exerciseType);
        ("parameters",
         JObj [("sensitivity", JNum 0.8); ("smoothing", JNum 0.3);
               ("confidence_threshold", JNum 0.5)]);
        ("feedback",
         Js.or (f "feedback")
               (JObj [("realTimeEnabled", JBool true); ("audioEnabled", JBool true);
                      ("visualEnabled", JBool true)])) ])
  end.

Definition cycleTime : Z := 8000.

(** [(now % cycleTime) / cycleTime] *)
Definition cycleProgress (t : Z) : Q :=
  (inject_Z (Z.rem t cycleTime) / inject_Z cycleTime)%Q.

Definition keypointAt (x y z visibility : Q) (name : string) : PoseKeypoint.t :=
  {| PoseKeypoint.x := x; PoseKeypoint.y := y; PoseKeypoint.z := Some z;
     PoseKeypoint.visibility := Some visibility; PoseKeypoint.name := name |}.

Definition getFallbackPoseData (exerciseType : string) (w : World) : PoseData.t :=
  (let sin := Math_sin P in
  let t := now w in
  let progress := cycleProgress t in
  let '(stage, formScore, warnings) :=
    if Qltb progress 0.2 then
      (Stage.rest, 85 + sin (progress * 10) * 3,
       [JStr "Get ready to start your squat"])
    else if Qltb progress 0.5 then
      (Stage.down, 88 + sin (progress * 8) * 4,
       [JStr "Descending - control the movement"; JStr "Keep your back straight"])
    else if Qltb progress 0.7 then
      (Stage.hold, 92 + sin (progress * 12) * 2,
       [JStr "Hold position - great depth!"])
    else
      (Stage.up, 90 + sin (progress * 6) * 3,
       [JStr "Rising up - push through your heels"]) in
  let currentRep := (t / cycleTime + 1)%Z in
  let baseY := 0.5 + sin (progress * Math_PI P * 2) * 0.1 in
  {| PoseData.keypoints :=
       [ keypointAt 0.45 (baseY - 0.1) 0.1 0.95 "left_hip";
         keypointAt 0.55 (baseY - 0.1) 0.1 0.95 "right_hip";
         keypointAt 0.43 (baseY + 0.15) 0.2 0.92 "left_knee";
         keypointAt 0.57 (baseY + 0.15) 0.2 0.92 "right_knee";
         keypointAt 0.40 (baseY + 0.35) 0.3 0.90 "left_ankle";
         keypointAt 0.60 (baseY + 0.35) 0.3 0.90 "right_ankle" ];
     PoseData.confidence := 0.88 + sin (progress * 4) * 0.05;
     PoseData.formScore := inject_Z (Math_round formScore);
     PoseData.currentRep := inject_Z currentRep;
     PoseData.stage := stage;
     PoseData.warnings := warnings;
     PoseData.timestamp := JStr (Date_toISOString P t) |})%Q.

(** *** Result cache *)

Definition getCachedConfig (exerciseType : string) (w : World)
  : option ExerciseConfig * World :=
  match configCache (this w) !! exerciseType with
  | None => (None, w)
  | Some cached =>
      if (now w >? CacheEntry.expiresAt cached)%Z then
        (None, with_this (fun s => set_configCache (delete exerciseType (configCache s)) s) w)
      else (Some (CacheEntry.data cached), w)
  end.

Definition cacheConfig (exerciseType : string) (cfg : ExerciseConfig) (w : World)
  : World :=
  let cacheEntry := {| CacheEntry.data := cfg;
                       CacheEntry.timestamp := now w;
                       CacheEntry.expiresAt := (now w + CACHE_DURATION)%Z |} in
  with_this (fun s => set_configCache (<[exerciseType := cacheEntry]> (configCache s)) s) w.

(** *** Offline queue *)

Definition queueRequest (data : RequestData) (w : World) : string * World :=
  let '(r, w1) := Math_random w in
  let request := {|
    QueuedRequest.id :=
      QueuedRequest.typeName (QueuedRequest.typeOf data)
      ++ "_" ++ JsString.ofZ (now w) ++ "_" ++ Number_base36_token P r;
    QueuedRequest.data := data;
    QueuedRequest.timestamp := now w;
    QueuedRequest.retryCount := 0 |} in
  (QueuedRequest.id request,
   emit (Enqueued (QueuedRequest.id request))
        (with_this (fun s => set_requestQueue (requestQueue s ++ [request]) s) w1)).

Definition queuedError {T} (requestId : string) : Result T :=
  Throw (Err ("No network connection. Request queued with ID: " ++ requestId)).

Definition notInitialized {T} : Result T :=
  Throw (Err "Backend service not initialized").

(** *** Public operations *)

(** The request of [uploadVideo]: one XMLHttpRequest and its [load],
    [error] or [timeout] event. *)
Definition uploadVideoRequest (videoPath exerciseType : string) (w : World)
  : World * Result AnalysisResult.t :=
  let '(w1, t) := await (emit (NetCall "POST" (baseUrlString w ++ "/api/analyze-video")) w) in
  match t with
  | Responded xhr =>
      if ((status xhr >=? 200)%Z && (status xhr <? 300)%Z)%bool then
        let parsed :=
          match body xhr with
          | inr msg => Throw (Err msg)
          | inl rawResponse =>
              match parseApiResponse rawResponse validateAnalysisResult "Video Upload" with
              | Throw e => Throw e
              | Return result =>
                  Return {|
                    AnalysisResult.sessionId := AnalysisResult.sessionId result;
                    AnalysisResult.exerciseType := AnalysisResult.exerciseType result;
                    AnalysisResult.totalReps := AnalysisResult.totalReps result;
                    AnalysisResult.accuracy := AnalysisResult.accuracy result;
                    AnalysisResult.formFeedback := AnalysisResult.formFeedback result;
                    AnalysisResult.keypoints :=
                      transformKeypoints (AnalysisResult.keypoints result);
                    AnalysisResult.duration := AnalysisResult.duration result;
                    AnalysisResult.calories := AnalysisResult.calories result;
                    AnalysisResult.recommendations :=
                      AnalysisResult.recommendations result;
                    AnalysisResult.timestamp := AnalysisResult.timestamp result |}
              end
          end in
        match parsed with
        | Return result => (w1, Return result)
        | Throw (Err message) => (w1, Throw (Err ("Invalid response format: " ++ message)))
        | Throw ThrownUndefined => (w1, Throw (Err "Invalid response format: Unknown error"))
        end
      else (w1, Throw (Err ("Upload failed with status " ++ JsString.ofZ (status xhr))))
  | NetworkError => (w1, Throw (Err "Network error during upload"))
  | TimedOut => (w1, Throw (Err "Upload timeout"))
  end.

Definition uploadVideo (videoPath exerciseType : string) (w : World)
  : World * Result AnalysisResult.t :=
  if negb (hasBaseUrl w) then (w, notInitialized)
  else if negb (connected w) then
    let '(requestId, w') := queueRequest (VideoData videoPath exerciseType) w in
    (w', queuedError requestId)
  else
    executeWithRetry (uploadVideoRequest videoPath exerciseType) "Video Upload"
                     (defaultMaxRetries w) w.

Definition httpFailure (what : string) (response : HttpResponse) : Thrown :=
  Err (what ++ ": " ++ JsString.ofZ (status response) ++ " " ++ statusText response).

Definition analyzeFrameRequest (frameData exerciseType : string) (w : World)
  : World * Result PoseData.t :=
  let '(w1, fetched) := fetch "POST" (baseUrlString w ++ "/api/analyze-frame") w in
  match fetched with
  | Throw e => (w1, Throw e)
  | Return response =>
      if negb (ok response) then
        if ((status response =? 403)%Z || (status response =? 401)%Z)%bool then
          (w1, Return (getFallbackPoseData exerciseType w1))
        else if (status response =? 422)%Z then
          (w1, Return (getFallbackPoseData exerciseType w1))
        else if (status response =? 500)%Z then
          (w1, Return (getFallbackPoseData exerciseType w1))
        else (w1, Throw (httpFailure "Frame analysis failed" response))
      else
        match json response with
        | Throw e => (w1, Throw e)
        | Return rawResponse =>
            match parseApiResponse rawResponse validatePoseData "Frame Analysis" with
            | Throw e => (w1, Throw e)
            | Return result =>
                (w1, Return {|
                   PoseData.keypoints := transformKeypoints (PoseData.keypoints result);
                   PoseData.confidence := PoseData.confidence result;
                   PoseData.formScore := PoseData.formScore result;
                   PoseData.currentRep := PoseData.currentRep result;
                   PoseData.stage := PoseData.stage result;
                   PoseData.warnings := PoseData.warnings result;
                   PoseData.timestamp := PoseData.timestamp result |})
            end
        end
  end.

Definition analyzeFrame (frameData exerciseType : string) (w : World)
  : World * Result PoseData.t :=
  if negb (hasBaseUrl w) then (w, notInitialized)
  else if negb (connected w) then
    (w, Throw (Err "No network connection for real-time analysis"))
  else
    executeWithRetry (analyzeFrameRequest frameData exerciseType) "Frame Analysis" 1 w.

Definition getExerciseConfigRequest (exerciseType : string) (w : World)
  : World * Result JSValue :=
  let url := baseUrlString w ++ "/api/exercise-config/" ++ exerciseType in
  let '(w1, fetched) := fetch "GET" url w in
  match fetched with
  | Throw e => (w1, Throw e)
  | Return response =>
      if negb (ok response) then
        if ((status response =? 403)%Z || (status response =? 401)%Z)%bool then
          (w1, Return (getFallbackExerciseConfig exerciseType))
        else if (status response =? 404)%Z then
          (w1, Return (getFallbackExerciseConfig exerciseType))
        else if (status response =? 500)%Z then
          (w1, Return (getFallbackExerciseConfig exerciseType))
        else (w1, Throw (httpFailure "Failed to get exercise config" response))
      else
        match json response with
        | Throw e => (w1, Throw e)
        | Return rawResponse =>
            match transformExerciseConfig rawResponse with
            | Throw e => (w1, Throw e)
            | Return transformedResponse =>
                match parseApiResponse transformedResponse validateExerciseConfig
                                       "Exercise Config" with
                | Throw e => (w1, Throw e)
                | Return cfg => (cacheConfig exerciseType cfg w1, Return (JObj cfg))
                end
            end
        end
  end.

Definition getExerciseConfig (exerciseType : string) (w : World)
  : World * Result JSValue :=
  if negb (hasBaseUrl w) then (w, notInitialized)
  else
    let '(cached, w0) := getCachedConfig exerciseType w in
    match cached with
    | Some cfg => (w0, Return (JObj cfg))
    | None =>
        if negb (connected w0) then
          let '(requestId, w') := queueRequest (ConfigData exerciseType) w0 in
          (w', queuedError requestId)
        else
          executeWithRetry (getExerciseConfigRequest exerciseType) "Exercise Config"
                           (defaultMaxRetries w0) w0
    end.

Definition submitSessionSummaryRequest (sessionData : SessionData) (w : World)
  : World * Result JSValue :=
  let '(w1, fetched) := fetch "POST" (baseUrlString w ++ "/api/session-summary") w in
  match fetched with
  | Throw e => (w1, Throw e)
  | Return response =>
      if negb (ok response) then
        (w1, Throw (httpFailure "Session summary failed" response))
      else
        match json response with
        | Throw e => (w1, Throw e)
        | Return rawResponse =>
            if (negb (Js.truthy rawResponse) || negb (Js.isObjectType rawResponse))%bool
            then (w1, Throw (Err "Invalid session summary response format"))
            else (w1, Return rawResponse)
        end
  end.

Definition submitSessionSummary (sessionData : SessionData) (w : World)
  : World * Result JSValue :=
  if negb (hasBaseUrl w) then (w, notInitialized)
  else if negb (connected w) then
    let '(requestId, w') := queueRequest (SummaryData sessionData) w in
    (w', queuedError requestId)
  else
    executeWithRetry (submitSessionSummaryRequest sessionData) "Session Summary"
                     (defaultMaxRetries w) w.

(** *** Queue replay *)

Definition discard {T} (r : World * Result T) : World * Result unit :=
  match r with
  | (w, Return _) => (w, Return tt)
  | (w, Throw e) => (w, Throw e)
  end.

Definition processQueuedRequest (request : QueuedRequest.t) (w : World)
  : World * Result unit :=
  match QueuedRequest.data request with
  | VideoData videoPath exerciseType => discard (uploadVideo videoPath exerciseType w)
  | FrameData frameData exerciseType => discard (analyzeFrame frameData exerciseType w)
  | ConfigData exerciseType => discard (getExerciseConfig exerciseType w)
  | SummaryData sessionData => discard (submitSessionSummary sessionData w)
  end.

Definition retried (request : QueuedRequest.t) : QueuedRequest.t :=
  {| QueuedRequest.id := QueuedRequest.id request;
     QueuedRequest.data := QueuedRequest.data request;
     QueuedRequest.timestamp := QueuedRequest.timestamp request;
     QueuedRequest.retryCount := (QueuedRequest.retryCount request + 1)%Z |}.

(** The body of the [for ... of requestsToProcess] loop; [ReplayStart]
    marks the moment the replay of a request begins. *)
Definition replayOne (request : QueuedRequest.t) (w : World) : World :=
  let '(w1, r) := processQueuedRequest request (emit (ReplayStart (QueuedRequest.id request)) w) in
  match r with
  | Return _ => w1
  | Throw _ =>
      if (QueuedRequest.retryCount request <? defaultMaxRetries w1)%Z then
        with_this (fun s => set_requestQueue (requestQueue s ++ [retried request]) s) w1
      else w1
  end.

Fixpoint replayAll (requestsToProcess : list QueuedRequest.t) (w : World) : World :=
  match requestsToProcess with
  | [] => w
  | request :: others => replayAll others (replayOne request w)
  end.

(** One run of [processRequestQueue]; [DrainScheduled 5000] is the
    [setTimeout] that starts the next run. *)
Definition processRequestQueue (w : World) : World :=
  if (isProcessingQueue (this w) || (length (requestQueue (this w)) =? 0)%nat)%bool
  then w
  else
    let w1 := with_this (set_isProcessingQueue true) w in
    let requestsToProcess := requestQueue (this w1) in
    let w2 := with_this (set_requestQueue []) w1 in
    let w3 := replayAll requestsToProcess w2 in
    let w4 := with_this (set_isProcessingQueue false) w3 in
    if (0 <? length (requestQueue (this w4)))%nat then emit (DrainScheduled 5000) w4
    else w4.

(** *** Maintenance operations *)

(** [updateRetryConfig(config: Partial<RetryConfig>)]: the fields given
    replace the current ones. *)
Definition updateRetryConfig (maxRetries' : option Z)
    (baseDelay' maxDelay' backoffFactor' : option Float64.t) (w : World) : World :=
  with_this (fun s =>
    let old := retryConfig s in
    set_retryConfig {|
      RetryConfig.maxRetries := default (RetryConfig.maxRetries old) maxRetries';
      RetryConfig.baseDelay := default (RetryConfig.baseDelay old) baseDelay';
      RetryConfig.maxDelay := default (RetryConfig.maxDelay old) maxDelay';
      RetryConfig.backoffFactor := default (RetryConfig.backoffFactor old) backoffFactor'
    |} s) w.

Definition clearExpiredCache (w : World) : World :=
  with_this (fun s =>
    set_configCache
      (filter (fun kv => ¬ (now w > CacheEntry.expiresAt kv.2)%Z) (configCache s)) s) w.

Definition clearRequestQueue (w : World) : World :=
  with_this (set_requestQueue []) w.

End Service.

(** ** Reading traces *)

Definition isSleep (e : Event) : bool :=
  match e with Sleep _ => true | _ => false end.

Definition isNetCall (e : Event) : bool :=
  match e with NetCall _ _ => true | _ => false end.

(** The backoff waits of a trace: one per retry. *)
Definition retriesIn (tr : list Event) : nat := length (List.filter isSleep tr).

(** The network calls of a trace. *)
Definition netCallsIn (tr : list Event) : nat := length (List.filter isNetCall tr).

(** The requests whose replay a trace starts, in order. *)
Fixpoint replayStarts (tr : list Event) : list string :=
  match tr with
  | [] => []
  | ReplayStart id :: tr' => id :: replayStarts tr'
  | _ :: tr' => replayStarts tr'
  end.

(** The requests a trace enqueues, in order. *)
Fixpoint enqueuedIds (tr : list Event) : list string :=
  match tr with
  | [] => []
  | Enqueued id :: tr' => id :: enqueuedIds tr'
  | _ :: tr' => enqueuedIds tr'
  end.

(** ** Sample platform, environments and worlds *)

(** A power function for the examples: correctly rounded on finite bases
    and integral exponents, the only exponents [calculateRetryDelay]
    passes, with [Math.pow(0, k)] infinite for a negative [k]; it does not
    answer otherwise. *)
Definition samplePow (base exponent : Float64.t) : Float64.t :=
  match base, exponent with
  | Float64.Finite b, Float64.Finite e =>
      if Qeq_bool (inject_Z (Qfloor e)) e then
        if (Qeq_bool b 0 && (Qfloor e <? 0)%Z)%bool then Float64.Infinity
        else Float64.round (b ^ Qfloor e)
      else Float64.NaN
  | _, _ => Float64.NaN
  end.

(** A case mapping for the examples: the capitals of Basic Latin and of
    Latin-1 and the Kelvin sign U+212A, whose lower case is [k]. *)
Definition sampleToLowerCase (s : Utf16.t) : Utf16.t :=
  map (fun c : N =>
         if (((65 <=? c) && (c <=? 90))
             || ((192 <=? c) && (c <=? 222) && negb (c =? 215)))%N%bool
         then (c + 32)%N
         else if (c =? 8490)%N then 107%N else c) s.

Definition samplePlatform : Platform := {|
  Math_sin := fun _ => 0%Q;
  Math_PI := 3.14159%Q;
  Number_base36_token := fun _ => "k3x9q2m7a";
  Date_toISOString := fun _ => "2024-01-01T00:00:00.000Z";
  TypeError_message := fun k => "Cannot read property '" ++ k ++ "' of null";
  ToString := fun _ => "[object Object]";
  Math_pow := samplePow;
  String_toLowerCase := sampleToLowerCase
|}.

Definition quietEvent (t : Transport) : AwaitEvent :=
  {| elapsed := 0; notifications := []; transport := t |}.

(** The transport always answers the same way, connectivity never
    changes and [Math.random()] always draws [r]. *)
Definition constantEnv (t : Transport) (r : Q) : Env :=
  {| awaitEvent := fun _ => quietEvent t; random := fun _ => r |}.

Definition respond (code : Z) : Transport :=
  Responded {| status := code; statusText := ""; body := inl JNull |}.

Definition startWorld (s : Service) (t : Z) : World :=
  {| this := s; now := t; awaits := 0; draws := 0; trace := [] |}.

Definition initializedService : Service :=
  {| baseUrl := Some "http://10.0.2.2:8000"; authToken := None; isInitialized := true;
     requestQueue := []; isProcessingQueue := false;
     networkStatus := networkStatus initialService;
     retryConfig := retryConfig initialService;
     configCache := ∅ |}.

Definition offline (s : Service) : Service :=
  set_networkStatus {| NetworkStatus.isConnected := false;
                       NetworkStatus.type := Some "none";
                       NetworkStatus.isInternetReachable := Some false |} s.

(** The first request fails in the transport and, while it is pending, the
    platform reports that connectivity was lost; nothing changes later. *)
Definition connectionLostEnv : Env :=
  {| awaitEvent := fun i =>
       match i with
       | O => {| elapsed := 100;
                 notifications := [ {| ni_isConnected := Some false;
                                       ni_type := "none";
                                       ni_isInternetReachable := Some false |} ];
                 transport := NetworkError |}
       | S _ => quietEvent NetworkError
       end;
     random := fun _ => 0%Q |}.

(** The first request fails in the transport; every request after it is
    answered with the status [code]. *)
Definition answeredOnRetryEnv (code : Z) : Env :=
  {| awaitEvent := fun i =>
       match i with
       | O => quietEvent NetworkError
       | S _ => quietEvent (respond code)
       end;
     random := fun _ => 0%Q |}.

(** ** Sample states used by the examples *)

Definition sampleConfig : ExerciseConfig :=
  [ ("exerciseType", JStr "squat"); ("targetKeypoints", JArr []);
    ("thresholds", JObj []); ("feedback", JObj []) ].

(** An initialized service whose cache holds [sampleConfig] for "squat"
    until [expiry]. *)
Definition cachedService (expiry : Z) : Service :=
  set_configCache
    {[ "squat"%string := {| CacheEntry.data := sampleConfig;
                            CacheEntry.timestamp := (expiry - CACHE_DURATION)%Z;
                            CacheEntry.expiresAt := expiry |} ]}
    initializedService.

Definition sampleSession : SessionData :=
  {| sd_exerciseType := "squat"; sd_duration := 60; sd_totalReps := 12;
     sd_averageAccuracy := 90; sd_userId := "user-1" |}.

(** ** Vocabulary of the statements *)

(** [evolves allowed w w']: from [w] to [w'] the trace grew by events that
    are all [allowed], and the base URL stayed. *)
Definition evolves (allowed : Event -> bool) (w w' : World) : Prop :=
  baseUrl (this w') = baseUrl (this w) /\
  exists evs, trace w' = (trace w ++ evs)%list /\ forallb allowed evs = true.

(** [deferred data w w' r]: from [w] to [w'] the only effect is one request
    carrying [data] appended at the tail of the offline queue (no
    suspension, no network call), and [r] is the error that names it. *)
Definition deferred {T} (data : RequestData) (w w' : World) (r : Result T) : Prop :=
  exists request,
    QueuedRequest.data request = data /\
    requestQueue (this w') = (requestQueue (this w) ++ [request])%list /\
    trace w' = (trace w ++ [Enqueued (QueuedRequest.id request)])%list /\
    awaits w' = awaits w /\
    r = queuedError (QueuedRequest.id request).

(** The result is not the throw of [undefined]: whatever is thrown is an
    [Error] with a message. *)
Definition throwsErrors {T} (r : Result T) : Prop :=
  match r with
  | Throw ThrownUndefined => False
  | _ => True
  end.

(** The service is connected and the backend answers the next request of
    world [w] with HTTP status [code]. *)
Definition onlineAndAnswered (E : Env) (code : Z) (w : World) : Prop :=
  connected w = true /\
  exists response,
    transport (awaitEvent E (awaits w)) = Responded response /\
    status response = code.

Definition isReplayStart (e : Event) : bool :=
  match e with ReplayStart _ => true | _ => false end.

(** Successive calls of [queueRequest], one per element of [ds]. *)
Definition queueRequests (P : Platform) (E : Env) (ds : list RequestData) (w : World)
  : World :=
  fold_left (fun w d => snd (queueRequest P E d w)) ds w.

(** From the [from]-th suspension on, no connectivity notification
    reports the network as connected. *)
Definition staysOffline (E : Env) (from : nat) : Prop :=
  forall i, (from <= i)%nat ->
    forallb (fun st => negb (reportsOnline st)) (notifications (awaitEvent E i)) = true.





(** [Preserved P E R]: the relation [R] between an earlier and a later
    world holds across nothing happening, across two steps when it holds
    across each, and across every primitive step of the service. *)
Record Preserved (P : Platform) (E : Env) (R : World -> World -> Prop) : Prop := {
  pres_refl : forall w, R w w;
  pres_trans : forall w1 w2 w3, R w1 w2 -> R w2 w3 -> R w1 w3;
  pres_NetCall : forall m u w, R w (emit (NetCall m u) w);
  pres_Sleep : forall d w, R w (emit (Sleep d) w);
  pres_await : forall w, R w (fst (await E w));
  pres_random : forall w, R w (snd (Math_random E w));
  pres_getCachedConfig : forall ty w, R w (snd (getCachedConfig ty w));
  pres_cacheConfig : forall ty cfg w, R w (cacheConfig ty cfg w);
  pres_queueRequest : forall d w, R w (snd (queueRequest P E d w))
}.

(** World [w'] is not earlier than [w]: no fewer suspensions were
    completed. *)
Definition notBefore (w w' : World) : Prop := (awaits w <= awaits w')%nat.

(** From [w] to [w'] exactly one more network call was sent. *)
Definition oneCall (w w' : World) : Prop :=
  netCallsIn (trace w') = S (netCallsIn (trace w)).

(** From [w] to [w'] the offline queue only grew, at its tail and by
    requests that were never replayed, while the retry configuration, the
    drain flag and the base URL stayed. *)
Definition queueGrows (w w' : World) : Prop :=
  retryConfig (this w') = retryConfig (this w) /\
  isProcessingQueue (this w') = isProcessingQueue (this w) /\
  baseUrl (this w') = baseUrl (this w) /\
  exists added,
    requestQueue (this w') = (requestQueue (this w) ++ added)%list /\
    Forall (fun r => QueuedRequest.retryCount r = 0%Z) added.

Definition isDrainScheduled (e : Event) : bool :=
  match e with DrainScheduled _ => true | _ => false end.

(** The runs of [processRequestQueue] a trace schedules. *)
Definition drainsScheduled (tr : list Event) : nat :=
  length (List.filter isDrainScheduled tr).

(** The requests that [uploadVideo] and [submitSessionSummary] defer. *)
Definition isVideoOrSummary (d : RequestData) : bool :=
  match d with
  | VideoData _ _ | SummaryData _ => true
  | FrameData _ _ | ConfigData _ => false
  end.


(** A key point in the form the service hands out: it has a name, and a
    depth or visibility of zero is left out instead of reported. *)
Definition normalised (kp : PoseKeypoint.t) : Prop :=
  PoseKeypoint.name kp <> "" /\
  (forall q, PoseKeypoint.z kp = Some q -> ~ (q == 0)%Q) /\
  (forall q, PoseKeypoint.visibility kp = Some q -> ~ (q == 0)%Q).

(** The exercise type names a member of [Object.prototype]. *)
Definition isInheritedKey (key : string) : bool :=
  existsb (String.eqb key) Object_prototype_keys.

(** ** Backend discovery (NetworkConfig) and the life cycle of the service *)

Module NetworkConfig.
Record t := { detectedIP : option string }.
End NetworkConfig.

(** The outcome of [testUrl]. *)
Module TestResult.
Record t := {
  success : bool;
  responseTime : option Z;
  error : option string
}.
End TestResult.

(** [[...new Set(items)]]: every item once, at the place of its first
    occurrence. *)
Fixpoint uniqueAfter {A} (eqb : A -> A -> bool) (seen items : list A) : list A :=
  match items with
  | [] => []
  | item :: rest =>
      if existsb (eqb item) seen then uniqueAfter eqb seen rest
      else item :: uniqueAfter eqb (item :: seen) rest
  end.

Definition commonIPs : list string :=
  [ "192.168.137.1"; "192.168.1.100"; "192.168.0.100"; "192.168.1.1";
    "192.168.0.1"; "10.0.0.100"; "172.16.0.100" ].

Definition set_backend (url : string) (s : Service) : Service :=
  {| baseUrl := Some url; authToken := authToken s; isInitialized := true;
     requestQueue := requestQueue s; isProcessingQueue := isProcessingQueue s;
     networkStatus := networkStatus s; retryConfig := retryConfig s;
     configCache := configCache s |}.

(** [reset()] *)
Definition reset (w : World) : World :=
  with_this (fun s =>
    {| baseUrl := None; authToken := None; isInitialized := false;
       requestQueue := []; isProcessingQueue := false;
       networkStatus := networkStatus s; retryConfig := retryConfig s;
       configCache := ∅ |}) w.

Section Discovery.

Variable P : Platform.
Variable E : Env.
(** [Platform.OS] *)
Variable OS : string.

Definition getPossibleBackendUrls : list string :=
  let port := JsString.ofZ 8000 in
  let MANUAL_IP := "172.16.11.64" in
  let manual := "http://" ++ MANUAL_IP ++ ":" ++ port in
  let emulator := "http://10.0.2.2:" ++ port in
  let loopback := "http://127.0.0.1:" ++ port in
  let localhost := "http://localhost:" ++ port in
  let urls :=
    ((if JsString.isEmpty MANUAL_IP then [] else [manual])
     ++ (if String.eqb OS "android" then [emulator] else [])
     ++ [loopback; localhost]
     ++ map (fun ip => ("http://" ++ ip ++ ":" ++ port)%string) commonIPs)%list in
  uniqueAfter String.eqb [] urls.

Definition failed (message : string) : TestResult.t :=
  {| TestResult.success := false; TestResult.responseTime := None;
     TestResult.error := Some message |}.

(** The [catch] block of [testUrl] on an [Error] that is no AbortError. *)
Definition describeFailure (message : string) : TestResult.t :=
  if JsString.includes message "Network request failed"
  then failed "Network unreachable"
  else failed message.

(** [testUrl(url)]: one GET of [url/]; [TimedOut] is the abort of the
    request by the 5 s timer. *)
Definition testUrl (url : string) (w : World) : World * TestResult.t :=
  let startTime := now w in
  let '(w1, t) := await E (emit (NetCall "GET" (url ++ "/")) w) in
  match t with
  | Responded response =>
      let responseTime := (now w1 - startTime)%Z in
      if ok response then
        match json response with
        | Return data =>
            (w1, {| TestResult.success := true;
                    TestResult.responseTime := Some responseTime;
                    TestResult.error := None |})
        | Throw (Err message) => (w1, describeFailure message)
        | Throw ThrownUndefined => (w1, failed "Unknown error")
        end
      else
        (w1, failed ("HTTP " ++ JsString.ofZ (status response) ++ ": "
                     ++ statusText response))
  | NetworkError => (w1, describeFailure "Network request failed")
  | TimedOut => (w1, failed "Timeout (>3s)")
  end.

(** The [for ... of urls] loop of [findBestBackendUrl]. *)
Fixpoint probeUrls (urls : list string) (results : list (string * TestResult.t))
    (nc : NetworkConfig.t) (w : World)
  : World * NetworkConfig.t * (option string * list (string * TestResult.t)) :=
  match urls with
  | [] => (w, nc, (None, results))
  | url :: rest =>
      let '(w1, result) := testUrl url w in
      let results' := (results ++ [(url, result)])%list in
      if TestResult.success result then
        (w1, {| NetworkConfig.detectedIP := Some url |}, (Some url, results'))
      else probeUrls rest results' nc w1
  end.

Definition findBestBackendUrl (nc : NetworkConfig.t) (w : World)
  : World * NetworkConfig.t * (option string * list (string * TestResult.t)) :=
  probeUrls getPossibleBackendUrls [] nc w.

(** [initialize()] *)
Definition initialize (nc : NetworkConfig.t) (w : World)
  : World * NetworkConfig.t * bool :=
  if (isInitialized (this w) && hasBaseUrl w)%bool then (w, nc, true)
  else
    let '(w1, nc1, (url, _)) := findBestBackendUrl nc w in
    match url with
    | Some u =>
        if negb (JsString.isEmpty u) then (with_this (set_backend u) w1, nc1, true)
        else (w1, nc1, false)
    | None => (w1, nc1, false)
    end.



End Discovery.

(** The suspension was ended by a 2xx response with a decodable body. *)
Definition answersProbe (ev : AwaitEvent) : bool :=
  match transport ev with
  | Responded response =>
      (ok response && match body response with inl _ => true | inr _ => false end)%bool
  | NetworkError | TimedOut => false
  end.

Definition probeOf (url : string) : Event := NetCall "GET" (url ++ "/").

(** From [w] to [w'] the service is as it was, connectivity status
    apart. *)
Definition onlyConnectivityChanged (w w' : World) : Prop :=
  exists status, this w' = set_networkStatus status (this w).

(** ** The health chatbot (HuggingFaceService) *)

(** The categories of [healthKeywords] and [responses], in the order of
    the object literals. *)
Module Category.
Inductive t := symptoms | vitals | exercise | nutrition | medication | mental
             | prevention.

Definition eqb (a b : t) : bool :=
  match a, b with
  | symptoms, symptoms | vitals, vitals | exercise, exercise
  | nutrition, nutrition | medication, medication | mental, mental
  | prevention, prevention => true
  | _, _ => false
  end.
End Category.

Definition healthKeywords : list (Category.t * list string) :=
  [ (Category.symptoms,
     [ "pain"; "headache"; "fever"; "cough"; "tired"; "fatigue"; "dizzy"; "nausea";
       "vomiting"; "diarrhea"; "constipation"; "rash"; "swelling";
       "shortness of breath"; "chest pain" ]);
    (Category.vitals,
     [ "blood pressure"; "heart rate"; "temperature"; "weight"; "bmi"; "pulse";
       "oxygen"; "glucose"; "cholesterol" ]);
    (Category.exercise,
     [ "exercise"; "workout"; "fitness"; "running"; "walking"; "yoga"; "strength";
       "cardio"; "stretching"; "physical activity" ]);
    (Category.nutrition,
     [ "diet"; "nutrition"; "food"; "calories"; "protein"; "carbs"; "fat"; "vitamins";
       "minerals"; "water"; "hydration" ]);
    (Category.medication,
     [ "medication"; "medicine"; "pills"; "prescription"; "dosage"; "side effects";
       "drug"; "treatment" ]);
    (Category.mental,
     [ "stress"; "anxiety"; "depression"; "sleep"; "insomnia"; "mood"; "mental health";
       "relaxation" ]);
    (Category.prevention,
     [ "prevention"; "vaccine"; "screening"; "checkup"; "immunization";
       "health maintenance" ]) ].






Section Chatbot.

Variable P : Platform.
Variable E : Env.

(** What the inner [forEach] pushes for one entry of [healthKeywords]:
    the category, once for every keyword the message includes. *)
Definition pushed (message : Utf16.t) (entry : Category.t * list string)
  : list Category.t :=
  map (fun _ => fst entry)
      (List.filter (fun keyword => Utf16.includes message (Utf16.ofString keyword))
                   (snd entry)).

Definition extractHealthKeywords (message : Utf16.t) : list Category.t :=
  let foundKeywords := flat_map (pushed message) healthKeywords in
  uniqueAfter Category.eqb [] foundKeywords.






End Chatbot.

(** The entry of [healthKeywords] has a keyword that the message
    includes. *)
Definition mentions (message : Utf16.t) (entry : Category.t * list string) : bool :=
  existsb (fun keyword => Utf16.includes message (Utf16.ofString keyword)) (snd entry).

(** From the [from]-th suspension on, every connectivity notification
    reports the network as connected. *)
Definition staysOnline (E : Env) (from : nat) : Prop :=
  forall i, (from <= i)%nat ->
    forallb reportsOnline (notifications (awaitEvent E i)) = true.

(** From the [from]-th suspension on, a request is answered with a 2xx
    response whose body decodes but is rejected by the validation of
    [uploadVideo]. *)
Definition answersMalformed (P : Platform) (E : Env) (from : nat) : Prop :=
  forall i, (from <= i)%nat ->
    exists xhr raw,
      transport (awaitEvent E i) = Responded xhr /\
      (200 <= status xhr < 300)%Z /\
      body xhr = inl raw /\
      parseApiResponse P raw (validateAnalysisResult P) "Video Upload"
      = Throw (Err "Invalid response structure for Video Upload").

(** * Properties *)

Local Open Scope list_scope.

Arguments await : simpl never.
Arguments sleep : simpl never.
Arguments fetch : simpl never.
Arguments Math_random : simpl never.
Arguments calculateRetryDelay : simpl never.
Arguments isNonRetryableError : simpl never.
Arguments emit : simpl never.
Arguments with_this : simpl never.
Arguments getFallbackPoseData : simpl never.
Arguments getFallbackExerciseConfig : simpl never.
Arguments queueRequest : simpl never.
Arguments getCachedConfig : simpl never.
Arguments cacheConfig : simpl never.
Arguments executeWithRetry : simpl never.

Lemma replayStarts_app (a b : list Event) :
  replayStarts (a ++ b) = replayStarts a ++ replayStarts b.
Proof.
  induction a as [|e a IH]; simpl; [reflexivity|].
  destruct e; simpl; rewrite IH; reflexivity.
Qed.

Lemma retriesIn_app (a b : list Event) :
  retriesIn (a ++ b) = (retriesIn a + retriesIn b)%nat.
Proof. unfold retriesIn. rewrite List.filter_app, length_app. reflexivity. Qed.

Lemma netCallsIn_app (a b : list Event) :
  netCallsIn (a ++ b) = (netCallsIn a + netCallsIn b)%nat.
Proof. unfold netCallsIn. rewrite List.filter_app, length_app. reflexivity. Qed.

(** ** How the operations move the world *)

Section Evolution.

Variable P : Platform.
Variable E : Env.
Variable allowed : Event -> bool.

Lemma evolves_refl w : evolves allowed w w.
Proof. split; [reflexivity|]. exists []. rewrite app_nil_r. auto. Qed.

Lemma evolves_trans w1 w2 w3 :
  evolves allowed w1 w2 -> evolves allowed w2 w3 -> evolves allowed w1 w3.
Proof.
  intros [Hb1 (e1 & Ht1 & Ha1)] [Hb2 (e2 & Ht2 & Ha2)]. split; [congruence|].
  exists (e1 ++ e2). rewrite Ht2, Ht1, <- app_assoc. split; [reflexivity|].
  rewrite forallb_app, Ha1, Ha2. reflexivity.
Qed.

Lemma evolves_emit e w : allowed e = true -> evolves allowed w (emit e w).
Proof.
  intros He. split; [reflexivity|]. exists [e]. simpl. rewrite He. auto.
Qed.

Lemma evolves_same_trace w w' :
  baseUrl (this w') = baseUrl (this w) -> trace w' = trace w ->
  evolves allowed w w'.
Proof.
  intros Hb Ht. split; [exact Hb|]. exists []. rewrite app_nil_r. auto.
Qed.

Lemma evolves_with_this f w :
  (forall s, baseUrl (f s) = baseUrl s) -> evolves allowed w (with_this f w).
Proof. intros H. apply evolves_same_trace; [apply H|reflexivity]. Qed.

Lemma notifications_keep (l : list NetInfoState) (s : Service) :
  let s' := fold_left (fun s st => fst (onNetworkChange st s)) l s in
  requestQueue s' = requestQueue s /\ retryConfig s' = retryConfig s /\
  isProcessingQueue s' = isProcessingQueue s /\ baseUrl s' = baseUrl s /\
  configCache s' = configCache s /\ authToken s' = authToken s /\
  isInitialized s' = isInitialized s.
Proof.
  revert s. induction l as [|st l IH]; intros s; cbn [fold_left]; [auto 10|].
  destruct (IH (fst (onNetworkChange st s))) as (H1 & H2 & H3 & H4 & H5 & H6 & H7).
  cbn zeta. rewrite H1, H2, H3, H4, H5, H6, H7. cbn. auto 10.
Qed.

Lemma notifications_keep_baseUrl (l : list NetInfoState) (s : Service) :
  baseUrl (fold_left (fun s st => fst (onNetworkChange st s)) l s) = baseUrl s.
Proof.
  revert s. induction l as [|st l IH]; intros s; simpl; [reflexivity|].
  rewrite IH. reflexivity.
Qed.

Lemma evolves_await w : evolves allowed w (fst (await E w)).
Proof.
  apply evolves_same_trace; simpl; [apply notifications_keep_baseUrl|reflexivity].
Qed.

Lemma evolves_random w : evolves allowed w (snd (Math_random E w)).
Proof. apply evolves_same_trace; reflexivity. Qed.

Lemma evolves_sleep d w :
  allowed (Sleep d) = true -> evolves allowed w (sleep E d w).
Proof.
  intros H. unfold sleep.
  eapply evolves_trans; [apply evolves_emit, H|apply evolves_await].
Qed.

Lemma calculateRetryDelay_world k w :
  snd (calculateRetryDelay P E k w) = snd (Math_random E w).
Proof. reflexivity. Qed.

Lemma evolves_calculateRetryDelay k w :
  evolves allowed w (snd (calculateRetryDelay P E k w)).
Proof. apply evolves_same_trace; reflexivity. Qed.

Lemma evolves_fetch m u w :
  allowed (NetCall m u) = true -> evolves allowed w (fst (fetch E m u w)).
Proof.
  intros H. unfold fetch.
  destruct (await E (emit (NetCall m u) w)) as [w1 t] eqn:Ha.
  assert (Hw : evolves allowed w w1).
  { eapply evolves_trans; [apply evolves_emit, H|].
    replace w1 with (fst (await E (emit (NetCall m u) w))) by (rewrite Ha; reflexivity).
    apply evolves_await. }
  destruct t; exact Hw.
Qed.

Lemma retryLoop_S {T} (f : World -> World * Result T) n r attempt lastError w :
  retryLoop P E f n (S r) attempt lastError w =
  match tryRequest f w with
  | (w1, Return result) => (w1, Return result)
  | (w1, Throw ThrownUndefined) => (w1, Throw (Err (TypeError_message P "message")))
  | (w1, Throw (Err message)) =>
      if isNonRetryableError message then (w1, Throw (Err message))
      else if (attempt >=? n)%Z then (w1, Throw (Err message))
      else retryLoop P E f n r (attempt + 1)%Z (Err message)
                     (sleep E (fst (calculateRetryDelay P E attempt w1))
                            (snd (calculateRetryDelay P E attempt w1)))
  end.
Proof.
  cbn [retryLoop]. destruct (tryRequest f w) as [w1 [v|[m|]]]; reflexivity.
Qed.

Lemma evolves_tryRequest {T} (f : World -> World * Result T) w :
  evolves allowed w (fst (f w)) -> evolves allowed w (fst (tryRequest f w)).
Proof.
  intros H. unfold tryRequest. destruct (negb (connected w)); [apply evolves_refl|exact H].
Qed.

Lemma evolves_retryLoop {T} (f : World -> World * Result T) :
  (forall d, allowed (Sleep d) = true) ->
  (forall w, evolves allowed w (fst (f w))) ->
  forall remaining maxRetries attempt lastError w,
    evolves allowed w (fst (retryLoop P E f maxRetries remaining attempt lastError w)).
Proof.
  intros Hs Hf. induction remaining as [|r IH]; intros n attempt lastError w.
  - apply evolves_refl.
  - rewrite retryLoop_S.
    pose proof (evolves_tryRequest f w (Hf w)) as H1.
    destruct (tryRequest f w) as [w1 [v|[msg|]]]; cbn [fst] in *; try exact H1.
    destruct (isNonRetryableError msg); [exact H1|].
    destruct (attempt >=? n)%Z; [exact H1|].
    eapply evolves_trans; [exact H1|].
    eapply evolves_trans; [apply evolves_calculateRetryDelay|].
    eapply evolves_trans; [apply evolves_sleep, Hs|apply IH].
Qed.

Lemma evolves_executeWithRetry {T} (f : World -> World * Result T) ty n w :
  (forall d, allowed (Sleep d) = true) ->
  (forall w, evolves allowed w (fst (f w))) ->
  evolves allowed w (fst (executeWithRetry P E f ty n w)).
Proof. intros Hs Hf. apply evolves_retryLoop; assumption. Qed.

(** *** The operations of the service *)

Hypothesis allowed_NetCall : forall m u, allowed (NetCall m u) = true.
Hypothesis allowed_Sleep : forall d, allowed (Sleep d) = true.
Hypothesis allowed_Enqueued : forall id, allowed (Enqueued id) = true.

Lemma evolves_queueRequest data w : evolves allowed w (snd (queueRequest P E data w)).
Proof.
  unfold queueRequest.
  pose proof (evolves_random w) as H1.
  destruct (Math_random E w) as [r w1]. cbn [snd] in *.
  eapply evolves_trans; [exact H1|].
  eapply evolves_trans; [|apply evolves_emit, allowed_Enqueued].
  apply evolves_with_this; reflexivity.
Qed.

Lemma evolves_getCachedConfig ty w : evolves allowed w (snd (getCachedConfig ty w)).
Proof.
  unfold getCachedConfig. destruct (configCache (this w) !! ty) as [c|].
  - destruct (now w >? CacheEntry.expiresAt c)%Z; cbn [snd].
    + apply evolves_with_this; reflexivity.
    + apply evolves_refl.
  - apply evolves_refl.
Qed.

Lemma evolves_cacheConfig ty cfg w : evolves allowed w (cacheConfig ty cfg w).
Proof. apply evolves_with_this; reflexivity. Qed.

Ltac after_fetch H :=
  match goal with
  | |- context [fetch E ?m ?u ?w] =>
      pose proof (evolves_fetch m u w (allowed_NetCall m u)) as H;
      destruct (fetch E m u w) as [? [?|?]]; cbn [fst] in H
  end.

Lemma evolves_uploadVideoRequest videoPath ty w :
  evolves allowed w (fst (uploadVideoRequest P E videoPath ty w)).
Proof.
  unfold uploadVideoRequest.
  set (ev := NetCall _ _).
  assert (H : evolves allowed w (fst (await E (emit ev w)))).
  { eapply evolves_trans; [apply evolves_emit, allowed_NetCall|apply evolves_await]. }
  destruct (await E (emit ev w)) as [w1 t]. cbn [fst] in H.
  destruct t as [xhr| |]; try exact H.
  destruct (_ && _)%bool; [|exact H].
  match goal with |- context [match ?x with Return _ => _ | Throw _ => _ end] =>
    destruct x as [?|[?|]] end; exact H.
Qed.

Lemma evolves_analyzeFrameRequest frameData ty w :
  evolves allowed w (fst (analyzeFrameRequest P E frameData ty w)).
Proof.
  unfold analyzeFrameRequest. after_fetch H; [|exact H].
  destruct (negb (ok _)).
  - repeat (match goal with |- context [if ?b then _ else _] => destruct b end);
      exact H.
  - destruct (json _); [|exact H].
    destruct (parseApiResponse _ _ _ _); exact H.
Qed.

Lemma evolves_getExerciseConfigRequest ty w :
  evolves allowed w (fst (getExerciseConfigRequest P E ty w)).
Proof.
  unfold getExerciseConfigRequest. after_fetch H; [|exact H].
  destruct (negb (ok _)).
  - repeat (match goal with |- context [if ?b then _ else _] => destruct b end);
      exact H.
  - destruct (json _); [|exact H].
    destruct (transformExerciseConfig _ _); [|exact H].
    destruct (parseApiResponse _ _ _ _); [|exact H].
    eapply evolves_trans; [exact H|apply evolves_cacheConfig].
Qed.

Lemma evolves_submitSessionSummaryRequest sessionData w :
  evolves allowed w (fst (submitSessionSummaryRequest E sessionData w)).
Proof.
  unfold submitSessionSummaryRequest. after_fetch H; [|exact H].
  destruct (negb (ok _)); [exact H|].
  destruct (json _); [|exact H].
  destruct (_ || _)%bool; exact H.
Qed.

Lemma evolves_uploadVideo videoPath ty w :
  evolves allowed w (fst (uploadVideo P E videoPath ty w)).
Proof.
  unfold uploadVideo. destruct (negb (hasBaseUrl w)); [apply evolves_refl|].
  destruct (negb (connected w)).
  - pose proof (evolves_queueRequest (VideoData videoPath ty) w) as H.
    destruct (queueRequest _ _ _ _); exact H.
  - apply evolves_executeWithRetry; [exact allowed_Sleep|].
    apply evolves_uploadVideoRequest.
Qed.

Lemma evolves_analyzeFrame frameData ty w :
  evolves allowed w (fst (analyzeFrame P E frameData ty w)).
Proof.
  unfold analyzeFrame. destruct (negb (hasBaseUrl w)); [apply evolves_refl|].
  destruct (negb (connected w)); [apply evolves_refl|].
  apply evolves_executeWithRetry; [exact allowed_Sleep|].
  apply evolves_analyzeFrameRequest.
Qed.

Lemma evolves_getExerciseConfig ty w :
  evolves allowed w (fst (getExerciseConfig P E ty w)).
Proof.
  unfold getExerciseConfig. destruct (negb (hasBaseUrl w)); [apply evolves_refl|].
  pose proof (evolves_getCachedConfig ty w) as H0.
  destruct (getCachedConfig ty w) as [[cfg|] w0]; cbn [snd] in H0; [exact H0|].
  eapply evolves_trans; [exact H0|].
  destruct (negb (connected w0)).
  - pose proof (evolves_queueRequest (ConfigData ty) w0) as H.
    destruct (queueRequest _ _ _ _); exact H.
  - apply evolves_executeWithRetry; [exact allowed_Sleep|].
    apply evolves_getExerciseConfigRequest.
Qed.

Lemma evolves_submitSessionSummary sessionData w :
  evolves allowed w (fst (submitSessionSummary P E sessionData w)).
Proof.
  unfold submitSessionSummary. destruct (negb (hasBaseUrl w)); [apply evolves_refl|].
  destruct (negb (connected w)).
  - pose proof (evolves_queueRequest (SummaryData sessionData) w) as H.
    destruct (queueRequest _ _ _ _); exact H.
  - apply evolves_executeWithRetry; [exact allowed_Sleep|].
    apply evolves_submitSessionSummaryRequest.
Qed.

Lemma fst_discard {T} (r : World * Result T) : fst (discard r) = fst r.
Proof. destruct r as [w [v|e]]; reflexivity. Qed.

Lemma evolves_processQueuedRequest request w :
  evolves allowed w (fst (processQueuedRequest P E request w)).
Proof.
  unfold processQueuedRequest.
  destruct (QueuedRequest.data request); rewrite fst_discard.
  - apply evolves_uploadVideo.
  - apply evolves_analyzeFrame.
  - apply evolves_getExerciseConfig.
  - apply evolves_submitSessionSummary.
Qed.

End Evolution.

(** ** The result cache *)

Section CacheProperties.

Variable P : Platform.
Variable E : Env.

Lemma getCachedConfig_hit ty w entry :
  configCache (this w) !! ty = Some entry ->
  (now w <= CacheEntry.expiresAt entry)%Z ->
  getCachedConfig ty w = (Some (CacheEntry.data entry), w).
Proof.
  intros Hl Hle. unfold getCachedConfig. rewrite Hl.
  destruct (now w >? CacheEntry.expiresAt entry)%Z eqn:Hgt; [lia|reflexivity].
Qed.

Lemma getCachedConfig_keeps ty w :
  requestQueue (this (snd (getCachedConfig ty w))) = requestQueue (this w) /\
  trace (snd (getCachedConfig ty w)) = trace w /\
  awaits (snd (getCachedConfig ty w)) = awaits w /\
  connected (snd (getCachedConfig ty w)) = connected w /\
  draws (snd (getCachedConfig ty w)) = draws w /\
  now (snd (getCachedConfig ty w)) = now w.
Proof.
  unfold getCachedConfig. destruct (configCache (this w) !! ty) as [c|]; [|tauto].
  destruct (now w >? CacheEntry.expiresAt c)%Z; cbn; tauto.
Qed.

(** C6, as the code has it: a lookup serves the stored value exactly
    when an entry exists and the clock has not passed its expiry instant
    ([now <= expiresAt], the instant itself included); a lookup that
    answers absent leaves no entry under the key; a lookup that serves
    changes nothing. *)
Theorem getCachedConfig_serves_until_expiry (ty : string) (w : World) :
  (forall v, fst (getCachedConfig ty w) = Some v <->
     exists entry, configCache (this w) !! ty = Some entry /\
                   CacheEntry.data entry = v /\
                   (now w <= CacheEntry.expiresAt entry)%Z) /\
  (fst (getCachedConfig ty w) = None ->
     configCache (this (snd (getCachedConfig ty w))) !! ty = None) /\
  (forall v, fst (getCachedConfig ty w) = Some v -> snd (getCachedConfig ty w) = w).
Proof.
  unfold getCachedConfig.
  destruct (configCache (this w) !! ty) as [c|] eqn:Hl.
  - destruct (now w >? CacheEntry.expiresAt c)%Z eqn:Hgt; cbn [fst snd].
    + split; [|split].
      * intros v. split; [discriminate|].
        intros (entry & He & _ & Hle). inversion He; subst. lia.
      * intros _. cbn. apply lookup_delete_eq.
      * discriminate.
    + split; [|split].
      * intros v. split.
        -- intros H. inversion H; subst. exists c. repeat split. lia.
        -- intros (entry & He & Hd & _). inversion He; subst. reflexivity.
      * discriminate.
      * reflexivity.
  - cbn [fst snd]. split; [|split].
    + intros v. split; [discriminate|]. intros (entry & He & _). discriminate.
    + intros _. exact Hl.
    + discriminate.
Qed.


Lemma getExerciseConfig_hit ty w entry :
  hasBaseUrl w = true ->
  configCache (this w) !! ty = Some entry ->
  (now w <= CacheEntry.expiresAt entry)%Z ->
  getExerciseConfig P E ty w = (w, Return (JObj (CacheEntry.data entry))).
Proof.
  intros Hb Hl Hle. unfold getExerciseConfig. rewrite Hb. cbn [negb].
  rewrite (getCachedConfig_hit ty w entry Hl Hle). reflexivity.
Qed.

(** C10: a cached, unexpired configuration is returned as it is, with
    the world untouched (no network call, nothing enqueued), whatever the
    connectivity status. *)
Theorem getExerciseConfig_cache_hit (ty : string) (w : World) (entry : CacheEntry.t) :
  hasBaseUrl w = true ->
  configCache (this w) !! ty = Some entry ->
  (now w <= CacheEntry.expiresAt entry)%Z ->
  getExerciseConfig P E ty w = (w, Return (JObj (CacheEntry.data entry))) /\
  netCallsIn (trace (fst (getExerciseConfig P E ty w))) = netCallsIn (trace w) /\
  requestQueue (this (fst (getExerciseConfig P E ty w))) = requestQueue (this w).
Proof.
  intros Hb Hl Hle. rewrite (getExerciseConfig_hit ty w entry Hb Hl Hle). auto.
Qed.

End CacheProperties.

(** C6, the claim as stated fails: at the expiry instant itself
    ([now = expiresAt = 1000]) the entry is still served and stays in the
    cache. *)
Lemma getCachedConfig_serves_at_expiry_instant :
  let w := startWorld (cachedService 1000) 1000 in
  (exists entry, configCache (this w) !! "squat"%string = Some entry /\
                 (now w >= CacheEntry.expiresAt entry)%Z) /\
  fst (getCachedConfig "squat" w) = Some sampleConfig /\
  snd (getCachedConfig "squat" w) = w.
Proof.
  cbn zeta. split; [|split].
  - eexists. split; [vm_compute; reflexivity|]. cbn. lia.
  - vm_compute. reflexivity.
  - vm_compute. reflexivity.
Qed.

Lemma getCachedConfig_serves_until_expiry_witness :
  fst (getCachedConfig "squat" (startWorld (cachedService 1000) 1001)) = None /\
  configCache (this (snd (getCachedConfig "squat" (startWorld (cachedService 1000) 1001))))
    !! "squat"%string = None.
Proof.
  assert (H : fst (getCachedConfig "squat" (startWorld (cachedService 1000) 1001)) = None)
    by (vm_compute; reflexivity).
  split; [exact H|].
  exact (proj1 (proj2 (getCachedConfig_serves_until_expiry
                         "squat" (startWorld (cachedService 1000) 1001))) H).
Defined.

Lemma getExerciseConfig_cache_hit_witness :
  let w := startWorld (offline (cachedService 1000)) 999 in
  connected w = false /\
  getExerciseConfig samplePlatform (constantEnv NetworkError 0) "squat" w
  = (w, Return (JObj sampleConfig)).
Proof.
  cbn zeta. split; [reflexivity|].
  refine (proj1 (getExerciseConfig_cache_hit samplePlatform (constantEnv NetworkError 0)
            "squat" (startWorld (offline (cachedService 1000)) 999)
            {| CacheEntry.data := sampleConfig;
               CacheEntry.timestamp := (1000 - CACHE_DURATION)%Z;
               CacheEntry.expiresAt := 1000 |} _ _ _)).
  - reflexivity.
  - vm_compute. reflexivity.
  - cbn. lia.
Defined.

(** ** Calls made while disconnected *)

Section OfflineCalls.

Variable P : Platform.
Variable E : Env.

Lemma queueRequest_deferred {T} data w :
  @deferred T data w (snd (queueRequest P E data w))
            (queuedError (fst (queueRequest P E data w))).
Proof.
  unfold queueRequest, Math_random. cbn [fst snd].
  eexists. repeat split; reflexivity.
Qed.

(** C1, as the code has it: on an initialized service that is
    disconnected, [uploadVideo], [submitSessionSummary] and a
    [getExerciseConfig] that misses the cache append the request to the
    offline queue, attempt no network call and fail with the error naming
    the queued request; [analyzeFrame] fails at once, leaving the world
    (queue included) as it was. *)
Theorem offline_calls_are_deferred_without_network (w : World) :
  hasBaseUrl w = true ->
  connected w = false ->
  (forall videoPath ty,
     deferred (VideoData videoPath ty) w
              (fst (uploadVideo P E videoPath ty w))
              (snd (uploadVideo P E videoPath ty w))) /\
  (forall sessionData,
     deferred (SummaryData sessionData) w
              (fst (submitSessionSummary P E sessionData w))
              (snd (submitSessionSummary P E sessionData w))) /\
  (forall ty,
     fst (getCachedConfig ty w) = None ->
     deferred (ConfigData ty) w
              (fst (getExerciseConfig P E ty w))
              (snd (getExerciseConfig P E ty w))) /\
  (forall frameData ty,
     analyzeFrame P E frameData ty w
     = (w, Throw (Err "No network connection for real-time analysis"))).
Proof.
  intros Hb Hc. repeat split.
  - intros videoPath ty. unfold uploadVideo. rewrite Hb, Hc. cbn [negb].
    pose proof (@queueRequest_deferred AnalysisResult.t (VideoData videoPath ty) w) as H.
    destruct (queueRequest P E (VideoData videoPath ty) w) as [requestId w']. exact H.
  - intros sessionData. unfold submitSessionSummary. rewrite Hb, Hc. cbn [negb].
    pose proof (@queueRequest_deferred JSValue (SummaryData sessionData) w) as H.
    destruct (queueRequest P E (SummaryData sessionData) w) as [requestId w']. exact H.
  - intros ty Hmiss. unfold getExerciseConfig. rewrite Hb. cbn [negb].
    destruct (getCachedConfig_keeps ty w) as (Hq & Ht & Ha & Hk & _).
    destruct (getCachedConfig ty w) as [cached w0]. cbn [fst snd] in *. subst cached.
    rewrite Hk, Hc. cbn [negb].
    pose proof (@queueRequest_deferred JSValue (ConfigData ty) w0) as H.
    destruct (queueRequest P E (ConfigData ty) w0) as [requestId w']. cbn [fst snd] in *.
    destruct H as (request & Hd & Hq' & Ht' & Ha' & Hr).
    exists request. rewrite <- Hq, <- Ht, <- Ha. auto.
  - intros frameData ty. unfold analyzeFrame. rewrite Hb, Hc. reflexivity.
Qed.

End OfflineCalls.

(** C1, the claim as stated fails: while disconnected, [analyzeFrame]
    queues nothing; [getExerciseConfig] with a cached configuration
    returns it and queues nothing; and on a service that was never
    initialized [uploadVideo] queues nothing either. *)
Lemma offline_calls_not_always_queued :
  let E := constantEnv NetworkError 0 in
  let w := startWorld (offline initializedService) 0 in
  let wc := startWorld (offline (cachedService 1000)) 0 in
  let wu := startWorld (offline initialService) 0 in
  (connected w = false /\
   requestQueue (this (fst (analyzeFrame samplePlatform E "frame" "squat" w))) = []) /\
  (connected wc = false /\
   requestQueue (this (fst (getExerciseConfig samplePlatform E "squat" wc))) = [] /\
   snd (getExerciseConfig samplePlatform E "squat" wc) = Return (JObj sampleConfig)) /\
  (connected wu = false /\
   requestQueue (this (fst (uploadVideo samplePlatform E "clip.mp4" "squat" wu))) = []).
Proof. vm_compute. auto 10. Qed.

Lemma offline_calls_are_deferred_without_network_witness :
  let E := constantEnv NetworkError 0 in
  let w := startWorld (offline initializedService) 0 in
  deferred (VideoData "clip.mp4" "squat") w
           (fst (uploadVideo samplePlatform E "clip.mp4" "squat" w))
           (snd (uploadVideo samplePlatform E "clip.mp4" "squat" w)).
Proof.
  cbn zeta.
  refine (proj1 (offline_calls_are_deferred_without_network samplePlatform
                   (constantEnv NetworkError 0)
                   (startWorld (offline initializedService) 0) _ _) "clip.mp4"%string
                "squat"%string).
  - reflexivity.
  - reflexivity.
Defined.

(** ** Rounding to binary64 *)

Section Rounding.

Local Open Scope Q_scope.

Lemma pow2_pos (e : Z) : 0 < 2 ^ e.
Proof. apply Qpower_0_lt. reflexivity. Qed.

Lemma pow2_add (a b : Z) : 2 ^ (a + b) == 2 ^ a * 2 ^ b.
Proof. apply Qpower_plus. discriminate. Qed.

Lemma pow2_le (a b : Z) : (a <= b)%Z -> 2 ^ a <= 2 ^ b.
Proof. intros H. apply Qpower_le_compat_l; [exact H|discriminate]. Qed.

Lemma pow2_lt (a b : Z) : (a < b)%Z -> 2 ^ a < 2 ^ b.
Proof. intros H. apply Qpower_lt_compat_l; [exact H|reflexivity]. Qed.

Lemma pow2_cancel (e : Z) : 2 ^ e * 2 ^ (- e) == 1.
Proof. rewrite <- pow2_add. replace (e + - e)%Z with 0%Z by lia. reflexivity. Qed.

Lemma pow2_inject (n : Z) : (0 <= n)%Z -> inject_Z (2 ^ n) == 2 ^ n.
Proof. intros H. apply (Zpower_Qpower 2 n H). Qed.

Lemma scale_le (x y : Q) (e : Z) : x <= y -> x * 2 ^ e <= y * 2 ^ e.
Proof. intros H. apply Qmult_le_compat_r; [exact H|apply Qlt_le_weak, pow2_pos]. Qed.

Lemma scale_lt (x y : Q) (e : Z) : x < y -> x * 2 ^ e < y * 2 ^ e.
Proof. intros H. apply Qmult_lt_compat_r; [apply pow2_pos|exact H]. Qed.

Lemma scale_back (x : Q) (e : Z) : x * 2 ^ (- e) * 2 ^ e == x.
Proof.
  rewrite <- Qmult_assoc, (Qmult_comm (2 ^ (- e))), pow2_cancel. apply Qmult_1_r.
Qed.

Lemma rne_floor (x : Q) : (Qfloor x <= Float64.rne x <= Qfloor x + 1)%Z.
Proof.
  unfold Float64.rne.
  destruct (x - inject_Z (Qfloor x) ?= 1 # 2); [destruct (Z.even (Qfloor x))|..]; lia.
Qed.

Lemma rne_comp (x y : Q) : x == y -> Float64.rne x = Float64.rne y.
Proof.
  intros H. unfold Float64.rne. rewrite (Qfloor_comp x y H).
  assert (Hc : (x - inject_Z (Qfloor y) ?= 1 # 2) = (y - inject_Z (Qfloor y) ?= 1 # 2)).
  { apply Qcompare_comp; [rewrite H; reflexivity|reflexivity]. }
  rewrite Hc. reflexivity.
Qed.

Lemma rne_Z (z : Z) : Float64.rne (inject_Z z) = z.
Proof.
  unfold Float64.rne. rewrite Qfloor_Z.
  assert (Hc : (inject_Z z - inject_Z z ?= 1 # 2) = Lt).
  { apply Qlt_alt. assert (H : inject_Z z - inject_Z z == 0) by ring.
    rewrite H. reflexivity. }
  rewrite Hc. reflexivity.
Qed.

Lemma rne_mono (x y : Q) : x <= y -> (Float64.rne x <= Float64.rne y)%Z.
Proof.
  intros Hxy. pose proof (Qfloor_resp_le x y Hxy) as Hf.
  destruct (Z.eq_dec (Qfloor x) (Qfloor y)) as [Heq|Hne].
  - unfold Float64.rne. rewrite Heq.
    assert (Hr : x - inject_Z (Qfloor y) <= y - inject_Z (Qfloor y)).
    { apply Qplus_le_l. exact Hxy. }
    destruct (Qcompare_spec (x - inject_Z (Qfloor y)) (1 # 2)) as [Hx|Hx|Hx];
      destruct (Qcompare_spec (y - inject_Z (Qfloor y)) (1 # 2)) as [Hy|Hy|Hy];
      try (destruct (Z.even (Qfloor y))); try lia; exfalso; lra.
  - pose proof (rne_floor x). pose proof (rne_floor y). lia.
Qed.

Lemma rne_nonneg (x : Q) : 0 <= x -> (0 <= Float64.rne x)%Z.
Proof. intros H. rewrite <- (rne_Z 0). apply rne_mono. exact H. Qed.

End Rounding.

Section Exponent.

Local Open Scope Q_scope.

Lemma log2_bounds (n : Z) :
  (0 < n)%Z -> 2 ^ Z.log2 n <= inject_Z n /\ inject_Z n < 2 ^ (Z.log2 n + 1).
Proof.
  intros Hn. destruct (Z.log2_spec n Hn) as [Hlo Hhi].
  pose proof (Z.log2_nonneg n) as Hl.
  split.
  - rewrite <- pow2_inject by exact Hl. rewrite <- Zle_Qle. exact Hlo.
  - rewrite <- pow2_inject by lia. rewrite <- Zlt_Qlt.
    replace (Z.log2 n + 1)%Z with (Z.succ (Z.log2 n)) by lia. exact Hhi.
Qed.

Lemma ilog2_spec (x : Q) :
  0 < x -> 2 ^ Float64.ilog2 x <= x /\ x < 2 ^ (Float64.ilog2 x + 1).
Proof.
  intros Hx. destruct x as [n d].
  assert (Hn : (0 < n)%Z).
  { unfold Qlt in Hx. cbn in Hx. lia. }
  destruct (log2_bounds n Hn) as [Hn1 Hn2].
  destruct (log2_bounds (Z.pos d) eq_refl) as [Hd1 Hd2].
  set (a := Z.log2 n) in *. set (b := Z.log2 (Z.pos d)) in *.
  assert (Hd : 0 < inject_Z (Z.pos d)) by reflexivity.
  assert (Hx' : n # d == inject_Z n / inject_Z (Z.pos d)) by apply Qmake_Qdiv.
  assert (Hup : n # d < 2 ^ (a - b + 1)).
  { rewrite Hx'. apply Qlt_shift_div_r; [exact Hd|].
    eapply Qlt_le_trans; [exact Hn2|].
    replace (a + 1)%Z with ((a - b + 1) + b)%Z by lia. rewrite pow2_add.
    apply Qmult_le_l; [apply pow2_pos|exact Hd1]. }
  assert (Hlow : 2 ^ (a - b - 1) <= n # d).
  { rewrite Hx'. apply Qle_shift_div_l; [exact Hd|].
    eapply Qle_trans; [|exact Hn1].
    replace a with ((a - b - 1) + (b + 1))%Z at 2 by lia. rewrite pow2_add.
    apply Qmult_le_l; [apply pow2_pos|apply Qlt_le_weak, Hd2]. }
  unfold Float64.ilog2. cbn [Qnum Qden]. fold a b.
  destruct (Qle_bool (2 ^ (a - b)) (n # d)) eqn:Ht.
  - apply Qle_bool_iff in Ht. split; assumption.
  - split; [exact Hlow|].
    replace (a - b - 1 + 1)%Z with (a - b)%Z by lia.
    apply Qnot_le_lt. intros H. apply Qle_bool_iff in H. congruence.
Qed.

Lemma exponent_spec (x : Q) : 0 < x -> isExponent x (Float64.exponent x).
Proof.
  intros Hx. destruct (ilog2_spec x Hx) as [Hlo Hhi].
  unfold isExponent, Float64.exponent.
  set (l := Float64.ilog2 x) in *.
  destruct (Z.max_spec Float64.emin (l - 52)) as [[Hlt ->]|[Hle ->]].
  - split; [lia|]. split.
    + replace (l - 52 + 53)%Z with (l + 1)%Z by lia. exact Hhi.
    + right. replace (l - 52 + 52)%Z with l by lia. exact Hlo.
  - split; [lia|]. split; [|left; reflexivity].
    eapply Qlt_le_trans; [exact Hhi|]. apply pow2_le. lia.
Qed.

Lemma isExponent_unique (x : Q) (e e' : Z) :
  isExponent x e -> isExponent x e' -> e = e'.
Proof.
  assert (H : forall a b, isExponent x a -> isExponent x b -> (a <= b)%Z).
  { intros a b (Ha1 & Ha2 & Ha3) (Hb1 & Hb2 & Hb3).
    destruct (Z_le_gt_dec a b) as [Hle|Hgt]; [exact Hle|exfalso].
    destruct Ha3 as [->|Ha3]; [lia|].
    assert (Hp : 2 ^ (b + 53) <= 2 ^ (a + 52)) by (apply pow2_le; lia).
    lra. }
  intros H1 H2. apply Z.le_antisymm; apply H; assumption.
Qed.

Lemma isExponent_comp (x y : Q) (e : Z) : x == y -> isExponent x e -> isExponent y e.
Proof.
  intros Hxy (H1 & H2 & H3). split; [exact H1|]. split.
  - rewrite <- Hxy. exact H2.
  - destruct H3 as [H3|H3]; [left; exact H3|right]. rewrite <- Hxy. exact H3.
Qed.

Lemma exponent_mono (x y : Q) :
  0 < x -> x <= y -> (Float64.exponent x <= Float64.exponent y)%Z.
Proof.
  intros Hx Hxy.
  destruct (exponent_spec x Hx) as (Ha1 & Ha2 & Ha3).
  destruct (exponent_spec y) as (Hb1 & Hb2 & Hb3); [lra|].
  destruct (Z_le_gt_dec (Float64.exponent x) (Float64.exponent y)) as [Hle|Hgt];
    [exact Hle|exfalso].
  destruct Ha3 as [Ha3|Ha3]; [lia|].
  assert (Hp : 2 ^ (Float64.exponent y + 53) <= 2 ^ (Float64.exponent x + 52))
    by (apply pow2_le; lia).
  lra.
Qed.

End Exponent.

Section Nearest.

Local Open Scope Q_scope.

Lemma nearest_nonneg (x : Q) : 0 <= x -> 0 <= Float64.nearest x.
Proof.
  intros Hx. unfold Float64.nearest.
  apply Qmult_le_0_compat; [|apply Qlt_le_weak, pow2_pos].
  change 0 with (inject_Z 0). rewrite <- Zle_Qle. apply rne_nonneg.
  apply Qmult_le_0_compat; [exact Hx|apply Qlt_le_weak, pow2_pos].
Qed.

Lemma nearest_zero (x : Q) : x == 0 -> Float64.nearest x == 0.
Proof.
  intros Hx. unfold Float64.nearest.
  assert (H : forall c, x * c == inject_Z 0) by (intros c; rewrite Hx; ring).
  rewrite (rne_comp _ _ (H _)), rne_Z. ring.
Qed.

(** The significand of a positive number: at most [2^53], and at least
    [2^52] above the least exponent. *)
Lemma significand_bounds (x : Q) (e : Z) :
  isExponent x e ->
  (Float64.rne (x * 2 ^ (- e)) <= 2 ^ 53)%Z /\
  (e <> Float64.emin -> (2 ^ 52 <= Float64.rne (x * 2 ^ (- e)))%Z).
Proof.
  intros (He1 & He2 & He3). split.
  - rewrite <- (rne_Z (2 ^ 53)). apply rne_mono.
    rewrite pow2_inject by lia. apply Qlt_le_weak.
    assert (H : 2 ^ 53 == 2 ^ (e + 53) * 2 ^ (- e)).
    { rewrite <- pow2_add. replace (e + 53 + - e)%Z with 53%Z by lia. reflexivity. }
    rewrite H. apply scale_lt. exact He2.
  - intros Hne. destruct He3 as [He3|He3]; [contradiction|].
    rewrite <- (rne_Z (2 ^ 52)). apply rne_mono.
    rewrite pow2_inject by lia.
    assert (H : 2 ^ 52 == 2 ^ (e + 52) * 2 ^ (- e)).
    { rewrite <- pow2_add. replace (e + 52 + - e)%Z with 52%Z by lia. reflexivity. }
    rewrite H. apply scale_le. exact He3.
Qed.

Lemma nearest_mono (x y : Q) :
  0 < x -> x <= y -> Float64.nearest x <= Float64.nearest y.
Proof.
  intros Hx Hxy.
  assert (Hy : 0 < y) by lra.
  pose proof (exponent_spec x Hx) as Hex. pose proof (exponent_spec y Hy) as Hey.
  pose proof (exponent_mono x y Hx Hxy) as Hle.
  unfold Float64.nearest.
  set (ex := Float64.exponent x) in *. set (ey := Float64.exponent y) in *.
  destruct (Z.eq_dec ex ey) as [Heq|Hne].
  - rewrite <- Heq. apply scale_le. rewrite <- Zle_Qle. apply rne_mono.
    apply scale_le. exact Hxy.
  - destruct (significand_bounds x ex Hex) as [Hmx _].
    destruct (significand_bounds y ey Hey) as [_ Hmy].
    assert (Hney : ey <> Float64.emin) by (destruct Hex as (H & _); lia).
    specialize (Hmy Hney).
    apply Qle_trans with (2 ^ (ex + 53)).
    + rewrite pow2_add, (Qmult_comm (2 ^ ex)). apply scale_le.
      rewrite <- (pow2_inject 53) by lia. rewrite <- Zle_Qle. exact Hmx.
    + apply Qle_trans with (2 ^ (ey + 52)); [apply pow2_le; lia|].
      rewrite pow2_add, (Qmult_comm (2 ^ ey)). apply scale_le.
      rewrite <- (pow2_inject 52) by lia. rewrite <- Zle_Qle. exact Hmy.
Qed.

(** A point of the grid is its own nearest point. *)
Lemma nearest_fixed (x v : Q) :
  0 < x -> v == Float64.nearest x -> Float64.nearest v == v.
Proof.
  intros Hx Hv.
  pose proof (exponent_spec x Hx) as Hex.
  destruct (significand_bounds x _ Hex) as [Hhi Hlo].
  unfold Float64.nearest in Hv.
  set (e := Float64.exponent x) in *.
  set (m := Float64.rne (x * 2 ^ (- e))) in *.
  assert (Hm0 : (0 <= m)%Z).
  { apply rne_nonneg. apply Qmult_le_0_compat; [lra|apply Qlt_le_weak, pow2_pos]. }
  destruct (Z.eq_dec m 0%Z) as [Hz|Hnz].
  { assert (Hv0 : v == 0) by (rewrite Hv, Hz; ring).
    rewrite nearest_zero by exact Hv0. symmetry. exact Hv0. }
  assert (Hvpos : 0 < v).
  { rewrite Hv. apply Qmult_lt_0_compat; [|apply pow2_pos].
    change 0 with (inject_Z 0). rewrite <- Zlt_Qlt. lia. }
  assert (Hgrid : forall e' m',
            isExponent v e' -> v * 2 ^ (- e') == inject_Z m' ->
            Float64.nearest v == v).
  { intros e' m' He' Hs.
    assert (Hev : Float64.exponent v = e')
      by (eapply isExponent_unique; [apply exponent_spec, Hvpos|exact He']).
    unfold Float64.nearest. rewrite Hev, (rne_comp _ _ Hs), rne_Z, <- Hs.
    apply scale_back. }
  destruct Hex as (He1 & He2 & He3).
  destruct (Z.eq_dec m (2 ^ 53)%Z) as [Htop|Hntop].
  - apply (Hgrid (e + 1)%Z (2 ^ 52)%Z).
    + assert (Hval : v == 2 ^ (e + 53)).
      { rewrite Hv, Htop, pow2_inject by lia. rewrite <- pow2_add.
        replace (53 + e)%Z with (e + 53)%Z by lia. reflexivity. }
      split; [lia|]. split.
      * rewrite Hval. apply pow2_lt. lia.
      * right. rewrite Hval. apply pow2_le. lia.
    + rewrite Hv, Htop, !pow2_inject by lia. rewrite <- !pow2_add.
      replace (53 + e + - (e + 1))%Z with 52%Z by lia. reflexivity.
  - apply (Hgrid e m).
    + split; [exact He1|]. split.
      * rewrite Hv, pow2_add, (Qmult_comm (2 ^ e)). apply scale_lt.
        rewrite <- (pow2_inject 53) by lia. rewrite <- Zlt_Qlt. lia.
      * destruct (Z.eq_dec e Float64.emin) as [Hemin|Hemin]; [left; exact Hemin|right].
        rewrite Hv, pow2_add, (Qmult_comm (2 ^ e)). apply scale_le.
        rewrite <- (pow2_inject 52) by lia. rewrite <- Zle_Qle. apply Hlo, Hemin.
    + rewrite Hv, <- Qmult_assoc, pow2_cancel. ring.
Qed.

End Nearest.

Section RoundingLaws.

Local Open Scope Q_scope.

Lemma round_nonneg_eq (x : Q) :
  0 <= x -> Float64.round x = Float64.roundNonneg (Qred x).
Proof.
  intros Hx. unfold Float64.round.
  assert (H : Qle_bool 0 (Qred x) = true)
    by (apply Qle_bool_iff; rewrite Qred_correct; exact Hx).
  rewrite H. reflexivity.
Qed.

Lemma roundNonneg_cases (x : Q) :
  Float64.roundNonneg x = Float64.Infinity \/
  (Float64.roundNonneg x = Float64.Finite (Qred (Float64.nearest x)) /\
   Float64.nearest x < 2 ^ 1024 /\ x < 2 ^ 1024).
Proof.
  unfold Float64.roundNonneg.
  destruct (Qle_bool (2 ^ 1024) x) eqn:H1; [left; reflexivity|].
  destruct (Qle_bool (2 ^ 1024) (Float64.nearest x)) eqn:H2; [left; reflexivity|].
  right. split; [reflexivity|].
  split; apply Qnot_le_lt; intros H; apply Qle_bool_iff in H; congruence.
Qed.

Lemma Qred_Qred (q : Q) : Qred (Qred q) = Qred q.
Proof. apply Qred_complete, Qred_correct. Qed.

(** Rounding a non-negative number gives a non-negative double or
    [Infinity]. *)
Lemma round_nonneg_cases (x : Q) :
  0 <= x ->
  Float64.round x = Float64.Infinity \/
  exists v, Float64.round x = Float64.Finite v /\ 0 <= v /\ Qred v = v.
Proof.
  intros Hx. rewrite (round_nonneg_eq x Hx).
  destruct (roundNonneg_cases (Qred x)) as [H|(H & _)]; [left; exact H|right].
  eexists. split; [exact H|]. split; [|apply Qred_Qred].
  rewrite Qred_correct. apply nearest_nonneg. rewrite Qred_correct. exact Hx.
Qed.

Lemma round_zero : Float64.round 0 = Float64.Finite 0.
Proof. vm_compute. reflexivity. Qed.

(** Rounding is monotone. *)
Lemma round_mono (x y : Q) :
  0 <= x -> x <= y -> Float64.le (Float64.round x) (Float64.round y).
Proof.
  intros Hx Hxy. assert (Hy : 0 <= y) by lra.
  rewrite (round_nonneg_eq x Hx), (round_nonneg_eq y Hy).
  assert (Hx' : 0 <= Qred x) by (rewrite Qred_correct; exact Hx).
  assert (Hxy' : Qred x <= Qred y) by (rewrite !Qred_correct; exact Hxy).
  revert Hx' Hxy'. generalize (Qred x) (Qred y). clear. intros x y Hx Hxy.
  assert (Hn : Float64.nearest x <= Float64.nearest y).
  { destruct (Qlt_le_dec 0 x) as [Hpos|Hzero]; [apply nearest_mono; assumption|].
    rewrite (nearest_zero x) by lra. apply nearest_nonneg. lra. }
  destruct (roundNonneg_cases y) as [->|(-> & Hy1 & Hy2)].
  - destruct (roundNonneg_cases x) as [->|(-> & _)]; reflexivity.
  - destruct (roundNonneg_cases x) as [Hinf|(-> & _)].
    + exfalso. unfold Float64.roundNonneg in Hinf.
      destruct (Qle_bool (2 ^ 1024) x) eqn:H1.
      * apply Qle_bool_iff in H1. lra.
      * destruct (Qle_bool (2 ^ 1024) (Float64.nearest x)) eqn:H2; [|discriminate].
        apply Qle_bool_iff in H2. lra.
    + unfold Float64.le, Float64.leb. apply Qle_bool_iff.
      rewrite !Qred_correct. exact Hn.
Qed.

(** A double is its own rounding. *)
Lemma round_fixed (x v : Q) :
  0 <= x -> Float64.round x = Float64.Finite v -> Float64.round v = Float64.Finite v.
Proof.
  intros Hx. rewrite (round_nonneg_eq x Hx).
  assert (Hx' : 0 <= Qred x) by (rewrite Qred_correct; exact Hx).
  revert Hx'. generalize (Qred x). clear. intros x Hx Hr.
  destruct (roundNonneg_cases x) as [H|(H & Hlt & _)]; [congruence|].
  rewrite H in Hr. inversion Hr as [Hv]. clear Hr H.
  assert (Hv0 : 0 <= Qred (Float64.nearest x))
    by (rewrite Qred_correct; apply nearest_nonneg, Hx).
  rewrite (round_nonneg_eq _ Hv0), Qred_Qred.
  set (v' := Qred (Float64.nearest x)) in *.
  assert (Hveq : v' == Float64.nearest x) by apply Qred_correct.
  assert (Hfix : Float64.nearest v' == v').
  { destruct (Qlt_le_dec 0 x) as [Hpos|Hzero].
    - apply (nearest_fixed x v' Hpos Hveq).
    - assert (Hz : v' == 0) by (rewrite Hveq; apply nearest_zero; lra).
      rewrite (nearest_zero v' Hz). symmetry. exact Hz. }
  unfold Float64.roundNonneg.
  assert (H1 : Qle_bool (2 ^ 1024) v' = false).
  { destruct (Qle_bool (2 ^ 1024) v') eqn:Hb; [|reflexivity].
    apply Qle_bool_iff in Hb. lra. }
  assert (H2 : Qle_bool (2 ^ 1024) (Float64.nearest v') = false).
  { destruct (Qle_bool (2 ^ 1024) (Float64.nearest v')) eqn:Hb; [|reflexivity].
    apply Qle_bool_iff in Hb. lra. }
  rewrite H1, H2. f_equal. subst v'. rewrite <- (Qred_Qred (Float64.nearest x)) at 2.
  apply Qred_complete. exact Hfix.
Qed.

Lemma le_trans (a b c : Float64.t) :
  Float64.le a b -> Float64.le b c -> Float64.le a c.
Proof.
  unfold Float64.le. destruct a, b, c; cbn; try discriminate; try reflexivity.
  intros H1 H2. apply Qle_bool_iff in H1, H2. apply Qle_bool_iff. lra.
Qed.

Lemma le_Finite (x y : Q) : Float64.le (Float64.Finite x) (Float64.Finite y) <-> x <= y.
Proof. apply Qle_bool_iff. Qed.

(** A number not above a finite one, rounded from a non-negative real,
    is finite. *)
Lemma round_below_finite (x m : Q) :
  0 <= x -> Float64.le (Float64.round x) (Float64.Finite m) ->
  exists v, Float64.round x = Float64.Finite v /\ 0 <= v /\ v <= m /\ Qred v = v.
Proof.
  intros Hx Hle.
  destruct (round_nonneg_cases x Hx) as [H|(v & H & Hv & Hc)];
    rewrite H in Hle; [discriminate|].
  exists v. split; [exact H|]. split; [exact Hv|]. split; [|exact Hc].
  apply le_Finite. exact Hle.
Qed.

End RoundingLaws.

(** ** The jitter of a backoff delay *)

Section Jitter.

Local Open Scope Q_scope.

Lemma tenth_value :
  Float64.tenth = Float64.Finite (3602879701896397 # 36028797018963968).
Proof. vm_compute. reflexivity. Qed.

(** For a delay [d] that is a non-negative double and a draw in [[0, 1)],
    [d + random * 0.1 * d] in double arithmetic lies between [d] and
    [d + 0.1 * d], and grows with [d]. *)
Lemma jittered_bounds (d r : Q) :
  0 <= d -> Float64.round d = Float64.Finite d ->
  0 <= r -> r < 1 ->
  let D := Float64.Finite d in
  let delay := Float64.add D (Float64.mul (Float64.mul (Float64.Finite r) Float64.tenth) D) in
  Float64.le D delay /\
  Float64.le delay (Float64.add D (Float64.mul Float64.tenth D)).
Proof.
  intros Hd Hfix Hr0 Hr1. cbn zeta. rewrite tenth_value.
  set (c := 3602879701896397 # 36028797018963968).
  assert (Hc0 : 0 < c) by reflexivity.
  assert (Hc1 : c < 1) by reflexivity.
  assert (Hcfix : Float64.round c = Float64.Finite c) by (vm_compute; reflexivity).
  cbn [Float64.mul].
  (* the jitter factor *)
  assert (Hrc : 0 <= r * c) by (apply Qmult_le_0_compat; lra).
  assert (Hrc' : r * c <= c).
  { rewrite <- (Qmult_1_l c) at 2. apply Qmult_le_compat_r; lra. }
  pose proof (round_mono (r * c) c Hrc Hrc') as Ht. rewrite Hcfix in Ht.
  destruct (round_below_finite _ _ Hrc Ht) as (t & -> & Ht0 & Htc & _).
  cbn [Float64.mul].
  (* the jitter *)
  assert (Htd : 0 <= t * d) by (apply Qmult_le_0_compat; assumption).
  assert (Htd' : t * d <= c * d) by (apply Qmult_le_compat_r; assumption).
  assert (Hcd : c * d <= d).
  { rewrite <- (Qmult_1_l d) at 2. apply Qmult_le_compat_r; lra. }
  assert (Hcd0 : 0 <= c * d) by (apply Qmult_le_0_compat; lra).
  pose proof (round_mono (c * d) d Hcd0 Hcd) as HJ. rewrite Hfix in HJ.
  destruct (round_below_finite _ _ Hcd0 HJ) as (J & HJe & HJ0 & HJd & _).
  pose proof (round_mono (t * d) (c * d) Htd Htd') as Hj. rewrite HJe in Hj.
  destruct (round_below_finite _ _ Htd Hj) as (j & -> & Hj0 & HjJ & _).
  rewrite HJe. cbn [Float64.add]. split.
  - rewrite <- Hfix. apply round_mono; lra.
  - apply round_mono; lra.
Qed.

Lemma jittered_mono (d d' : Q) :
  0 <= d -> d <= d' -> Float64.round d' = Float64.Finite d' ->
  Float64.le
    (Float64.add (Float64.Finite d) (Float64.mul Float64.tenth (Float64.Finite d)))
    (Float64.add (Float64.Finite d') (Float64.mul Float64.tenth (Float64.Finite d'))).
Proof.
  intros Hd Hdd Hfix. rewrite tenth_value.
  set (c := 3602879701896397 # 36028797018963968).
  assert (Hc0 : 0 < c) by reflexivity.
  assert (Hc1 : c < 1) by reflexivity.
  cbn [Float64.mul].
  assert (Hcd : c * d' <= d').
  { rewrite <- (Qmult_1_l d') at 2. apply Qmult_le_compat_r; lra. }
  assert (Hcd0 : 0 <= c * d') by (apply Qmult_le_0_compat; lra).
  pose proof (round_mono (c * d') d' Hcd0 Hcd) as HJ. rewrite Hfix in HJ.
  destruct (round_below_finite _ _ Hcd0 HJ) as (J' & HJe' & HJ0' & HJd' & _).
  assert (Hcc : c * d <= c * d') by (apply Qmult_le_l; assumption).
  assert (Hc0d : 0 <= c * d) by (apply Qmult_le_0_compat; lra).
  pose proof (round_mono (c * d) (c * d') Hc0d Hcc) as Hj. rewrite HJe' in Hj.
  destruct (round_below_finite _ _ Hc0d Hj) as (J & -> & HJ0 & HJJ & _).
  rewrite HJe'. cbn [Float64.add]. apply round_mono; lra.
Qed.

End Jitter.

(** ** Backoff delays *)

Section Backoff.

Variable P : Platform.
Variable E : Env.

(** The exponential term of a delay is [Infinity] or a non-negative
    double, when it is a number at all. *)
Lemma exponential_term_cases (b : Q) (power : Float64.t) :
  (0 <= b)%Q ->
  Float64.le (Float64.Finite 0) power ->
  Float64.mul (Float64.Finite b) power <> Float64.NaN ->
  Float64.mul (Float64.Finite b) power = Float64.Infinity \/
  exists a, Float64.mul (Float64.Finite b) power = Float64.Finite a /\
            (0 <= a)%Q /\ Float64.round a = Float64.Finite a.
Proof.
  intros Hb Hp Hn. destruct power as [| |y|]; try discriminate.
  - apply le_Finite in Hp. cbn [Float64.mul] in *.
    assert (Hby : (0 <= b * y)%Q) by (apply Qmult_le_0_compat; assumption).
    destruct (round_nonneg_cases (b * y) Hby) as [H|(a & H & Ha & _)];
      [left; exact H|right].
    exists a. split; [exact H|]. split; [exact Ha|].
    apply (round_fixed (b * y) a Hby H).
  - left. cbn [Float64.mul] in *. destruct (Qeq_bool b 0); [congruence|].
    assert (H : Qle_bool 0 b = true) by (apply Qle_bool_iff; exact Hb).
    rewrite H. reflexivity.
Qed.

(** C5, as the code computes it, in double arithmetic: let the
    exponential term [baseDelay * Math.pow(backoffFactor, k)] be a number
    that is not negative, and [d] the smaller of it and [maxDelay].  For
    a draw of [Math.random()] in [[0, 1)], the delay returned for attempt
    [k] lies between [d] and [d + 0.1 * d]; it never exceeds
    [maxDelay + 0.1 * maxDelay]; and when the exponential term is not
    clamped it lies between that term and the term plus a tenth of it.
    Sums and products are those of doubles, [0.1] is the double nearest
    to one tenth. *)
Theorem calculateRetryDelay_bounds (w : World) (k : Z) (b m : Q) :
  let cfg := retryConfig (this w) in
  let power := Math_pow P (RetryConfig.backoffFactor cfg) (Float64.ofZ k) in
  let term := Float64.mul (RetryConfig.baseDelay cfg) power in
  let d := Float64.min term (RetryConfig.maxDelay cfg) in
  let delay := fst (calculateRetryDelay P E k w) in
  let jittered (x : Float64.t) := Float64.add x (Float64.mul Float64.tenth x) in
  RetryConfig.baseDelay cfg = Float64.Finite b -> (0 <= b)%Q ->
  RetryConfig.maxDelay cfg = Float64.Finite m -> (0 <= m)%Q ->
  Float64.round m = Float64.Finite m ->
  Float64.le (Float64.Finite 0) power ->
  term <> Float64.NaN ->
  (0 <= random E (draws w))%Q ->
  (random E (draws w) < 1)%Q ->
  Float64.le d delay /\ Float64.le delay (jittered d) /\
  Float64.le delay (jittered (RetryConfig.maxDelay cfg)) /\
  (Float64.le term (RetryConfig.maxDelay cfg) ->
   Float64.le term delay /\ Float64.le delay (jittered term)).
Proof.
  intros cfg power term d delay jittered Hbase Hb Hmax Hm Hmfix Hpow Hterm Hr0 Hr1.
  assert (Hdelay : delay
                   = Float64.add d
                       (Float64.mul (Float64.mul (Float64.Finite (random E (draws w)))
                                                 Float64.tenth) d))
    by reflexivity.
  assert (Hd : exists dq, d = Float64.Finite dq /\ (0 <= dq)%Q /\ (dq <= m)%Q /\
                          Float64.round dq = Float64.Finite dq /\
                          (Float64.le term (RetryConfig.maxDelay cfg) -> term = d)).
  { subst d term. rewrite Hbase, Hmax in *.
    destruct (exponential_term_cases b power Hb Hpow Hterm) as [->|(a & -> & Ha & Hafix)].
    - exists m. cbn. repeat split; try assumption; try lra. discriminate.
    - cbn [Float64.min Float64.leb].
      destruct (Qle_bool a m) eqn:Ham.
      + apply Qle_bool_iff in Ham. exists a. auto 10.
      + exists m. repeat split; try assumption; try lra.
        unfold Float64.le, Float64.leb. congruence. }
  destruct Hd as (dq & Hdq & Hdq0 & Hdqm & Hdqfix & Hun).
  destruct (jittered_bounds dq (random E (draws w)) Hdq0 Hdqfix Hr0 Hr1) as [Hlo Hhi].
  cbn zeta in Hlo, Hhi. rewrite Hdelay, Hdq.
  split; [exact Hlo|]. split; [exact Hhi|]. split.
  - eapply le_trans; [exact Hhi|]. rewrite Hmax.
    apply jittered_mono; assumption.
  - intros Hle. rewrite (Hun Hle), Hdq. split; assumption.
Qed.

End Backoff.

(** C5, the claim as stated fails: with [maxRetries] raised to 5 and the
    other defaults (1000 ms, factor 2, ceiling 10000 ms), attempt 4 with a
    draw of 0.5 waits 10500 ms, which is below [baseDelay * factor^4 =
    16000] and above [maxDelay]. *)
Lemma calculateRetryDelay_breaks_claimed_bounds :
  let E := constantEnv NetworkError (1 # 2) in
  let w := updateRetryConfig (Some 5%Z) None None None (startWorld initializedService 0) in
  let cfg := retryConfig (this w) in
  let term := Float64.mul (RetryConfig.baseDelay cfg)
                (Math_pow samplePlatform (RetryConfig.backoffFactor cfg) (Float64.ofZ 4)) in
  let delay := fst (calculateRetryDelay samplePlatform E 4 w) in
  (4 <= RetryConfig.maxRetries cfg)%Z /\
  term = Float64.Finite 16000 /\
  delay = Float64.Finite 10500 /\
  ~ Float64.le term delay /\
  ~ Float64.le delay (RetryConfig.maxDelay cfg).
Proof.
  cbn zeta. split; [vm_compute; discriminate|].
  split; [vm_compute; reflexivity|]. split; [vm_compute; reflexivity|].
  split; intros H; vm_compute in H; discriminate H.
Qed.

(** The bounds of the claim also fail by rounding alone: with a base
    delay of 1024 ms, at attempt 0 and for the largest draw below 1, the
    delay computed in doubles is above 1024 * 1.1. *)
Lemma calculateRetryDelay_rounds_above_exact_bound :
  let E := constantEnv NetworkError (1 - (1 # 9007199254740992)) in
  let w := updateRetryConfig None (Some (Float64.Finite 1024)) None None
             (startWorld initializedService 0) in
  exists delay,
    fst (calculateRetryDelay samplePlatform E 0 w) = Float64.Finite delay /\
    (1024 * 1.1 < delay)%Q.
Proof.
  cbn zeta. eexists. split; [vm_compute; reflexivity|]. reflexivity.
Qed.

(** With a factor of 0 and the attempt number -1 the power is infinite,
    the exponential term is clamped at the ceiling and a draw of 0.5
    gives 10500 ms. *)
Lemma calculateRetryDelay_infinite_power :
  let E := constantEnv NetworkError (1 # 2) in
  let w := updateRetryConfig None None None (Some (Float64.Finite 0))
             (startWorld initializedService 0) in
  fst (calculateRetryDelay samplePlatform E (-1) w) = Float64.Finite 10500.
Proof. vm_compute. reflexivity. Qed.

Lemma calculateRetryDelay_bounds_witness :
  let E := constantEnv NetworkError (1 # 2) in
  let w := startWorld initializedService 0 in
  let delay := fst (calculateRetryDelay samplePlatform E 1 w) in
  Float64.le (Float64.Finite 2000) delay /\
  Float64.le delay (Float64.Finite 2200).
Proof.
  cbn zeta.
  destruct (calculateRetryDelay_bounds samplePlatform (constantEnv NetworkError (1 # 2))
              (startWorld initializedService 0) 1 1000 10000
              eq_refl ltac:(vm_compute; discriminate)
              eq_refl ltac:(vm_compute; discriminate)
              ltac:(vm_compute; reflexivity) ltac:(vm_compute; reflexivity)
              ltac:(vm_compute; discriminate)
              ltac:(vm_compute; discriminate) ltac:(vm_compute; reflexivity))
    as (_ & _ & _ & Hun).
  destruct (Hun ltac:(vm_compute; reflexivity)) as [Hlo Hhi].
  split; [exact Hlo|]. eapply le_trans; [exact Hhi|]. vm_compute. reflexivity.
Defined.

(** ** Synthetic pose data *)

Section Fallback.

Variable P : Platform.

Lemma cycleProgress_periodic (t : Z) :
  (0 <= t)%Z -> cycleProgress (t + 8000) = cycleProgress t.
Proof.
  intros Ht. unfold cycleProgress, cycleTime.
  rewrite !Z.rem_mod_nonneg by lia.
  replace (t + 8000)%Z with (t + 1 * 8000)%Z by lia.
  rewrite Z_mod_plus_full. reflexivity.
Qed.

Lemma currentRep_next_cycle (t : Z) :
  ((t + 8000) / cycleTime + 1 = (t / cycleTime + 1) + 1)%Z.
Proof.
  unfold cycleTime. replace (t + 8000)%Z with (t + 1 * 8000)%Z by lia.
  rewrite Z.div_add by lia. lia.
Qed.

(** C9: the synthetic pose data depends on the world through the clock
    reading only, so two calls at the same instant return identical data;
    and 8000 ms later (for instants since the epoch) the stage, key points,
    confidence, form score and warnings are the same, the repetition count
    being one more. *)
Theorem getFallbackPoseData_deterministic_and_periodic
    (ty : string) (w1 w2 : World) :
  (now w1 = now w2 -> getFallbackPoseData P ty w1 = getFallbackPoseData P ty w2) /\
  ((0 <= now w1)%Z -> now w2 = (now w1 + 8000)%Z ->
   PoseData.stage (getFallbackPoseData P ty w2)
   = PoseData.stage (getFallbackPoseData P ty w1) /\
   PoseData.keypoints (getFallbackPoseData P ty w2)
   = PoseData.keypoints (getFallbackPoseData P ty w1) /\
   PoseData.confidence (getFallbackPoseData P ty w2)
   = PoseData.confidence (getFallbackPoseData P ty w1) /\
   PoseData.formScore (getFallbackPoseData P ty w2)
   = PoseData.formScore (getFallbackPoseData P ty w1) /\
   PoseData.warnings (getFallbackPoseData P ty w2)
   = PoseData.warnings (getFallbackPoseData P ty w1) /\
   (PoseData.currentRep (getFallbackPoseData P ty w2)
    == PoseData.currentRep (getFallbackPoseData P ty w1) + 1)%Q).
Proof.
  split.
  - intros H. unfold getFallbackPoseData. rewrite H. reflexivity.
  - intros H0 H. unfold getFallbackPoseData. rewrite H.
    rewrite (cycleProgress_periodic _ H0), currentRep_next_cycle.
    repeat (match goal with |- context [if ?c then _ else _] => destruct c end);
      cbn [PoseData.stage PoseData.keypoints PoseData.confidence PoseData.formScore
           PoseData.warnings PoseData.currentRep];
      repeat split; try reflexivity;
      rewrite inject_Z_plus; reflexivity.
Qed.

End Fallback.

Lemma getFallbackPoseData_deterministic_and_periodic_witness :
  let w1 := startWorld initializedService 5000 in
  let w2 := startWorld (offline (cachedService 0)) 13000 in
  PoseData.stage (getFallbackPoseData samplePlatform "squat" w2)
  = PoseData.stage (getFallbackPoseData samplePlatform "squat" w1) /\
  getFallbackPoseData samplePlatform "push_up" w1
  = getFallbackPoseData samplePlatform "push_up" (startWorld (offline initialService) 5000).
Proof.
  cbn zeta. split.
  - refine (proj1 (proj2 (getFallbackPoseData_deterministic_and_periodic samplePlatform
              "squat" (startWorld initializedService 5000)
              (startWorld (offline (cachedService 0)) 13000)) _ _)).
    + cbn. lia.
    + reflexivity.
  - refine (proj1 (getFallbackPoseData_deterministic_and_periodic samplePlatform
              "push_up" (startWorld initializedService 5000)
              (startWorld (offline initialService) 5000)) _).
    reflexivity.
Defined.

(** ** Classification of failures *)

Section FailureClasses.

Lemma lowerCodeUnit_idempotent c :
  JsString.lowerCodeUnit (JsString.lowerCodeUnit c) = JsString.lowerCodeUnit c.
Proof.
  destruct c as [[] [] [] [] [] [] [] []]; vm_compute; reflexivity.
Qed.

Lemma toLowerCase_idempotent s :
  JsString.toLowerCase (JsString.toLowerCase s) = JsString.toLowerCase s.
Proof.
  induction s as [|c s IH]; cbn [JsString.toLowerCase]; [reflexivity|].
  rewrite lowerCodeUnit_idempotent, IH. reflexivity.
Qed.

Lemma toLowerCase_app a b :
  JsString.toLowerCase (a ++ b)%string
  = (JsString.toLowerCase a ++ JsString.toLowerCase b)%string.
Proof.
  induction a as [|c a IH]; simpl; [reflexivity|].
  rewrite IH. reflexivity.
Qed.

Lemma string_app_assoc (a b c : string) :
  ((a ++ b) ++ c = a ++ b ++ c)%string.
Proof.
  induction a as [|x a IH]; [reflexivity|].
  change (String x ((a ++ b) ++ c) = String x (a ++ b ++ c))%string.
  rewrite IH. reflexivity.
Qed.

Lemma prefix_app sub s q :
  String.prefix sub s = true -> String.prefix sub (s ++ q)%string = true.
Proof.
  revert s. induction sub as [|c sub IH]; intros s H;
    [destruct (s ++ q)%string; reflexivity|].
  destruct s as [|d s]; simpl in *; [discriminate|].
  destruct (ascii_dec c d); [apply IH, H|discriminate].
Qed.

Lemma includes_app_r s q sub :
  JsString.includes s sub = true -> JsString.includes (s ++ q)%string sub = true.
Proof.
  induction s as [|c s IH]; intros H.
  - cbn [JsString.includes] in H. rewrite orb_false_r in H.
    destruct sub; [|discriminate]. destruct q; reflexivity.
  - change (String c s ++ q)%string with (String c (s ++ q)%string).
    cbn [JsString.includes] in *.
    apply orb_true_iff in H as [H|H]; apply orb_true_iff.
    + left. apply (prefix_app sub (String c s) q H).
    + right. apply IH, H.
Qed.

Lemma includes_app_l p s sub :
  JsString.includes s sub = true -> JsString.includes (p ++ s)%string sub = true.
Proof.
  intros H. induction p as [|c p IH]; [exact H|].
  change (String c p ++ s)%string with (String c (p ++ s)%string).
  cbn [JsString.includes]. rewrite IH. apply orb_true_r.
Qed.

Lemma includes_embedded p s q sub :
  JsString.includes s sub = true ->
  JsString.includes (p ++ s ++ q)%string sub = true.
Proof. intros H. apply includes_app_l, includes_app_r, H. Qed.

(** The patterns [isNonRetryableError] looks for. *)
Lemma isNonRetryableError_patterns message :
  isNonRetryableError message
  = existsb (JsString.includes (JsString.toLowerCase message))
            ["401"; "unauthorized"; "400"; "bad request"; "404"; "not found";
             "413"; "payload too large"]%string.
Proof.
  unfold isNonRetryableError. cbn [existsb].
  repeat (match goal with
          | |- context [JsString.includes ?a ?b] =>
              destruct (JsString.includes a b); cbn [orb]; try reflexivity
          end).
Qed.

Lemma isNonRetryableError_embedded message before after :
  isNonRetryableError message = true ->
  isNonRetryableError (before ++ message ++ after)%string = true.
Proof.
  rewrite isNonRetryableError_patterns. intros H.
  rewrite isNonRetryableError_patterns, !toLowerCase_app.
  apply existsb_exists in H as (pat & Hin & Hp).
  apply existsb_exists. exists pat. split; [exact Hin|].
  apply includes_embedded, Hp.
Qed.

Lemma http_status_is_non_retryable what code statusText :
  In code [400; 401; 404; 413]%Z ->
  isNonRetryableError (what ++ ": " ++ JsString.ofZ code ++ " " ++ statusText)%string
  = true.
Proof.
  intros Hin.
  assert (H : isNonRetryableError (JsString.ofZ code) = true).
  { destruct Hin as [<-|[<-|[<-|[<-|[]]]]]; vm_compute; reflexivity. }
  replace (what ++ ": " ++ JsString.ofZ code ++ " " ++ statusText)%string
    with ((what ++ ": ") ++ JsString.ofZ code ++ " " ++ statusText)%string.
  - apply isNonRetryableError_embedded, H.
  - apply string_app_assoc.
Qed.

Lemma upload_status_is_non_retryable code :
  In code [400; 401; 404; 413]%Z ->
  isNonRetryableError ("Upload failed with status " ++ JsString.ofZ code)%string = true.
Proof. intros [<-|[<-|[<-|[<-|[]]]]]; vm_compute; reflexivity. Qed.

Lemma client_error_is_not_ok response :
  In (status response) [400; 401; 404; 413]%Z -> ok response = false.
Proof. unfold ok. intros [<-|[<-|[<-|[<-|[]]]]]; reflexivity. Qed.


End FailureClasses.

(** ** The retry executor *)

Section RetryExecutor.

Variable P : Platform.
Variable E : Env.

Lemma tryRequest_offline {T} (f : World -> World * Result T) w :
  connected w = false ->
  tryRequest f w = (w, Throw (Err "No network connection")).
Proof. intros H. unfold tryRequest. rewrite H. reflexivity. Qed.

Lemma tryRequest_online {T} (f : World -> World * Result T) w :
  connected w = true -> tryRequest f w = f w.
Proof. intros H. unfold tryRequest. rewrite H. reflexivity. Qed.

Lemma no_network_is_retryable : isNonRetryableError "No network connection" = false.
Proof. vm_compute. reflexivity. Qed.

Lemma notifications_keep_offline (l : list NetInfoState) (s : Service) :
  NetworkStatus.isConnected (networkStatus s) = false ->
  forallb (fun st => negb (reportsOnline st)) l = true ->
  NetworkStatus.isConnected
    (networkStatus (fold_left (fun s st => fst (onNetworkChange st s)) l s)) = false.
Proof.
  revert s. induction l as [|st l IH]; intros s Hs Hl; [exact Hs|].
  cbn [forallb] in Hl. apply andb_true_iff in Hl as [Hst Hl].
  cbn [fold_left]. apply IH; [|exact Hl].
  change (reportsOnline st = false).
  destruct (reportsOnline st); [discriminate|reflexivity].
Qed.

Lemma sleep_while_offline d w :
  connected w = false -> staysOffline E (awaits w) ->
  connected (sleep E d w) = false /\
  awaits (sleep E d w) = S (awaits w) /\
  trace (sleep E d w) = trace w ++ [Sleep d].
Proof.
  intros Hc Hs. unfold sleep, await, emit, connected. cbn.
  repeat split. apply notifications_keep_offline; [exact Hc|].
  apply Hs. reflexivity.
Qed.

Lemma staysOffline_later from from' :
  (from <= from')%nat -> staysOffline E from -> staysOffline E from'.
Proof. intros Hle Hs i Hi. apply Hs. lia. Qed.

Lemma retryLoop_while_offline {T} (f : World -> World * Result T) (n : Z) :
  forall remaining attempt lastError w,
    connected w = false ->
    staysOffline E (awaits w) ->
    (Z.of_nat remaining = n - attempt)%Z ->
    let out := retryLoop P E f n (S remaining) attempt lastError w in
    snd out = Throw (Err "No network connection") /\
    retriesIn (trace (fst out)) = (retriesIn (trace w) + remaining)%nat /\
    netCallsIn (trace (fst out)) = netCallsIn (trace w) /\
    awaits (fst out) = (awaits w + remaining)%nat.
Proof.
  induction remaining as [|r IH]; intros attempt lastError w Hc Hs Hr out; subst out;
    rewrite retryLoop_S, (tryRequest_offline f w Hc), no_network_is_retryable.
  - destruct (attempt >=? n)%Z eqn:Hge; [|lia]. cbn [fst snd].
    rewrite !Nat.add_0_r. auto.
  - destruct (attempt >=? n)%Z eqn:Hge; [lia|].
    set (w2 := snd (calculateRetryDelay P E attempt w)).
    set (d := fst (calculateRetryDelay P E attempt w)).
    assert (Hc2 : connected w2 = false) by exact Hc.
    assert (Hs2 : staysOffline E (awaits w2)) by exact Hs.
    destruct (sleep_while_offline d w2 Hc2 Hs2) as (Hc3 & Ha3 & Ht3).
    assert (Hs3 : staysOffline E (awaits (sleep E d w2))).
    { rewrite Ha3. eapply staysOffline_later; [|exact Hs2]. lia. }
    destruct (IH (attempt + 1)%Z (Err "No network connection") (sleep E d w2) Hc3 Hs3
                ltac:(lia)) as (Hres & Hret & Hnet & Haw).
    split; [exact Hres|]. rewrite Hret, Hnet, Haw, Ht3, Ha3.
    rewrite retriesIn_app, netCallsIn_app.
    change (trace w2) with (trace w). change (awaits w2) with (awaits w).
    cbn. repeat split; lia.
Qed.

(** C3, as the code has it: connectivity is checked before each attempt,
    and on a disconnected service the request function is not called; the
    attempt fails with "No network connection", which is handled like any
    retryable failure: it propagates only when the retry ceiling is
    reached, and otherwise costs a backoff wait and the next attempt.  A
    service that stays disconnected therefore uses up all [maxRetries]
    retries, without any network call, before the error propagates. *)
Theorem executeWithRetry_offline_attempt_is_retried {T}
    (requestFn : World -> World * Result T) (requestType : string)
    (maxRetries : Z) (w : World) :
  connected w = false ->
  (forall remaining attempt lastError,
     retryLoop P E requestFn maxRetries (S remaining) attempt lastError w =
     if (attempt >=? maxRetries)%Z then (w, Throw (Err "No network connection"))
     else retryLoop P E requestFn maxRetries remaining (attempt + 1)%Z
                    (Err "No network connection")
                    (sleep E (fst (calculateRetryDelay P E attempt w))
                           (snd (calculateRetryDelay P E attempt w)))) /\
  ((0 <= maxRetries)%Z -> staysOffline E (awaits w) ->
   let out := executeWithRetry P E requestFn requestType maxRetries w in
   snd out = Throw (Err "No network connection") /\
   retriesIn (trace (fst out)) = (retriesIn (trace w) + Z.to_nat maxRetries)%nat /\
   netCallsIn (trace (fst out)) = netCallsIn (trace w)).
Proof.
  intros Hc. split.
  - intros remaining attempt lastError.
    rewrite retryLoop_S, (tryRequest_offline requestFn w Hc), no_network_is_retryable.
    reflexivity.
  - intros Hn Hs out. subst out. unfold executeWithRetry.
    replace (Z.to_nat (maxRetries + 1)) with (S (Z.to_nat maxRetries)) by lia.
    destruct (retryLoop_while_offline requestFn maxRetries (Z.to_nat maxRetries) 0%Z
                ThrownUndefined w Hc Hs ltac:(lia)) as (H1 & H2 & H3 & _).
    auto.
Qed.

(** *** The policy *)





End RetryExecutor.

(** *** The request functions of the service throw [Error] objects only *)

Section ThrowsErrors.

Variable P : Platform.
Variable E : Env.

Lemma validatePoseKeypoint_throwsErrors kp : throwsErrors (validatePoseKeypoint P kp).
Proof.
  unfold validatePoseKeypoint.
  repeat (match goal with
          | |- context [if ?c then _ else _] => destruct c
          | |- context [match ?x with _ => _ end] => destruct x
          end; try exact I).
Qed.

Lemma everyKeypoint_throwsErrors kps : throwsErrors (everyKeypoint P kps).
Proof.
  induction kps as [|kp kps IH]; cbn [everyKeypoint]; [exact I|].
  pose proof (validatePoseKeypoint_throwsErrors kp) as Hk.
  destruct (validatePoseKeypoint P kp) as [[k|]|e]; try exact I; [|exact Hk].
  destruct (everyKeypoint P kps) as [[ks|]|e]; try exact I; exact IH.
Qed.

Lemma validateAnalysisResult_throwsErrors data :
  throwsErrors (validateAnalysisResult P data).
Proof.
  unfold validateAnalysisResult.
  destruct (_ || _)%bool; [exact I|].
  destruct (negb _); [exact I|].
  repeat (match goal with
          | |- context [match Js.getOr ?k ?d with _ => _ end] =>
              destruct (Js.getOr k d); try exact I
          end).
  match goal with |- context [everyKeypoint P ?l] =>
    pose proof (everyKeypoint_throwsErrors l) as Hk;
    destruct (everyKeypoint P l) as [[ks|]|e]; try exact I; exact Hk
  end.
Qed.

Lemma validatePoseData_throwsErrors data : throwsErrors (validatePoseData P data).
Proof.
  unfold validatePoseData.
  destruct (_ || _)%bool; [exact I|].
  destruct (negb _); [exact I|].
  repeat (match goal with
          | |- context [match Js.getOr ?k ?d with _ => _ end] =>
              destruct (Js.getOr k d); try exact I
          end).
  match goal with |- context [everyKeypoint P ?l] =>
    pose proof (everyKeypoint_throwsErrors l) as Hk;
    destruct (everyKeypoint P l) as [[ks|]|e]; try exact I; [|exact Hk]
  end.
  destruct (parseStage _); exact I.
Qed.

Lemma validateExerciseConfig_throwsErrors data :
  throwsErrors (validateExerciseConfig data).
Proof.
  unfold validateExerciseConfig.
  repeat (match goal with
          | |- context [if ?c then _ else _] => destruct c; try exact I
          end).
  destruct data; exact I.
Qed.

Lemma parseApiResponse_throwsErrors {T} response
    (validator : JSValue -> Result (option T)) context :
  (forall d, throwsErrors (validator d)) ->
  throwsErrors (parseApiResponse P response validator context).
Proof.
  intros Hv. unfold parseApiResponse.
  assert (Hd : forall d,
    throwsErrors
      match validator d with
      | Return (Some v) => Return v
      | Return None => Throw (Err ("Invalid response structure for " ++ context)%string)
      | Throw e => Throw e
      end).
  { intros d. specialize (Hv d). destruct (validator d) as [[v|]|e]; try exact I; exact Hv. }
  destruct (_ && _)%bool; [|apply Hd].
  destruct (negb _); [exact I|].
  destruct (negb _); [exact I|]. apply Hd.
Qed.

Lemma fetch_throwsErrors m u w : throwsErrors (snd (fetch E m u w)).
Proof. unfold fetch. destruct (await E _) as [w1 [r| |]]; exact I. Qed.

Lemma json_throwsErrors r : throwsErrors (json r).
Proof. unfold json. destruct (body r); exact I. Qed.

Ltac fetched :=
  match goal with
  | |- context [fetch E ?m ?u ?w] =>
      let H := fresh "Hfetch" in
      pose proof (fetch_throwsErrors m u w) as H;
      destruct (fetch E m u w) as [? [?|?]]; cbn [fst snd] in *; [|exact H]
  end.

Lemma uploadVideoRequest_throwsErrors videoPath ty w :
  throwsErrors (snd (uploadVideoRequest P E videoPath ty w)).
Proof.
  unfold uploadVideoRequest.
  destruct (await E _) as [w1 [xhr| |]]; try exact I.
  destruct (_ && _)%bool; [|exact I].
  match goal with |- context [match ?x with Return _ => _ | Throw _ => _ end] =>
    destruct x as [?|[?|]] end; exact I.
Qed.

Lemma analyzeFrameRequest_throwsErrors frameData ty w :
  throwsErrors (snd (analyzeFrameRequest P E frameData ty w)).
Proof.
  unfold analyzeFrameRequest. fetched.
  destruct (negb (ok _)).
  - repeat (match goal with |- context [if ?b then _ else _] => destruct b end);
      exact I.
  - pose proof (json_throwsErrors v) as Hj.
    destruct (json v) as [raw|e]; [|exact Hj].
    pose proof (parseApiResponse_throwsErrors raw (validatePoseData P) "Frame Analysis"
                  (validatePoseData_throwsErrors)) as Hp.
    destruct (parseApiResponse P raw (validatePoseData P) "Frame Analysis");
      [exact I|exact Hp].
Qed.

Lemma transformExerciseConfig_throwsErrors raw :
  throwsErrors (transformExerciseConfig P raw).
Proof. unfold transformExerciseConfig. destruct (Js.get _ _); exact I. Qed.

Lemma getExerciseConfigRequest_throwsErrors ty w :
  throwsErrors (snd (getExerciseConfigRequest P E ty w)).
Proof.
  unfold getExerciseConfigRequest. fetched.
  destruct (negb (ok _)).
  - repeat (match goal with |- context [if ?b then _ else _] => destruct b end);
      exact I.
  - pose proof (json_throwsErrors v) as Hj.
    destruct (json v) as [raw|e]; [|exact Hj].
    pose proof (transformExerciseConfig_throwsErrors raw) as Ht.
    destruct (transformExerciseConfig P raw) as [tr|e]; [|exact Ht].
    pose proof (parseApiResponse_throwsErrors tr validateExerciseConfig "Exercise Config"
                  validateExerciseConfig_throwsErrors) as Hp.
    destruct (parseApiResponse P tr validateExerciseConfig "Exercise Config");
      [exact I|exact Hp].
Qed.


End ThrowsErrors.

(** C3, the claim as stated fails: a session summary is submitted while
    connected, the connection drops during the first request, and the
    executor, finding the service disconnected before the second attempt,
    does not fail there: it goes on through the three backoff waits of
    the default policy before "No network connection" propagates.  Started
    on a disconnected service, the executor likewise spends all three
    retries. *)
Lemma executeWithRetry_offline_failure_is_retried :
  let out := submitSessionSummary samplePlatform connectionLostEnv sampleSession
               (startWorld initializedService 0) in
  let w := startWorld (offline initializedService) 0 in
  let E := constantEnv (respond 200) 0 in
  let out' := executeWithRetry samplePlatform E
                (submitSessionSummaryRequest E sampleSession) "Session Summary" 3 w in
  (snd out = Throw (Err "No network connection") /\
   netCallsIn (trace (fst out)) = 1%nat /\
   retriesIn (trace (fst out)) = 3%nat) /\
  (connected w = false /\
   snd out' = Throw (Err "No network connection") /\
   netCallsIn (trace (fst out')) = 0%nat /\
   retriesIn (trace (fst out')) = 3%nat).
Proof. vm_compute. auto 10. Qed.

Lemma executeWithRetry_offline_attempt_is_retried_witness :
  let E := constantEnv (respond 200) 0 in
  let w := startWorld (offline initializedService) 0 in
  let out := executeWithRetry samplePlatform E
               (submitSessionSummaryRequest E sampleSession) "Session Summary" 3 w in
  snd out = Throw (Err "No network connection") /\
  retriesIn (trace (fst out)) = (retriesIn (trace w) + Z.to_nat 3)%nat /\
  netCallsIn (trace (fst out)) = netCallsIn (trace w).
Proof.
  cbn zeta.
  refine (proj2 (executeWithRetry_offline_attempt_is_retried samplePlatform
                   (constantEnv (respond 200) 0)
                   (submitSessionSummaryRequest (constantEnv (respond 200) 0) sampleSession)
                   "Session Summary" 3 (startWorld (offline initializedService) 0) _) _ _).
  - reflexivity.
  - lia.
  - intros i _. reflexivity.
Defined.


(** Likewise for a body that is not JSON: a session summary answered
    with status 200 whose decoding fails at position 404 fails with the
    message of the decoder, which contains [404], and is not retried. *)
Lemma executeWithRetry_does_not_retry_decoding_failure :
  let undecodable := {| status := 200; statusText := "OK";
                        body := inr "Unexpected token } in JSON at position 404" |} in
  let E := constantEnv (Responded undecodable) 0 in
  let w := startWorld initializedService 0 in
  let out := executeWithRetry samplePlatform E
               (submitSessionSummaryRequest E sampleSession) "Session Summary" 3 w in
  snd out = Throw (Err "Unexpected token } in JSON at position 404") /\
  netCallsIn (trace (fst out)) = 1%nat /\
  retriesIn (trace (fst out)) = 0%nat.
Proof. vm_compute. auto. Qed.


(** ** The requests of the operations *)

Section Requests.

Variable P : Platform.
Variable E : Env.

Lemma request_trace m u w :
  trace (fst (await E (emit (NetCall m u) w))) = trace w ++ [NetCall m u].
Proof. reflexivity. Qed.

Lemma fetch_trace m u w :
  trace (fst (fetch E m u w)) = trace w ++ [NetCall m u].
Proof.
  unfold fetch. pose proof (request_trace m u w) as H.
  destruct (await E (emit (NetCall m u) w)) as [w1 [r| |]]; exact H.
Qed.

Lemma oneCall_intro m u w w' : trace w' = trace w ++ [NetCall m u] -> oneCall w w'.
Proof. intros H. unfold oneCall. rewrite H, netCallsIn_app. cbn. lia. Qed.

Ltac one_fetch H :=
  match goal with
  | |- context [fetch E ?m ?u ?w] =>
      pose proof (oneCall_intro m u w _ (fetch_trace m u w)) as H;
      destruct (fetch E m u w) as [? [?|?]]; cbn [fst] in H
  end.

Lemma uploadVideoRequest_oneCall videoPath ty w :
  oneCall w (fst (uploadVideoRequest P E videoPath ty w)).
Proof.
  unfold uploadVideoRequest.
  match goal with |- context [await E (emit (NetCall ?m ?u) w)] =>
    pose proof (oneCall_intro m u w _ (request_trace m u w)) as H;
    destruct (await E (emit (NetCall m u) w)) as [w1 t] end.
  cbn [fst] in H. destruct t as [xhr| |]; try exact H.
  destruct (_ && _)%bool; [|exact H].
  match goal with |- context [match ?x with Return _ => _ | Throw _ => _ end] =>
    destruct x as [?|[?|]] end; exact H.
Qed.

Lemma analyzeFrameRequest_oneCall frameData ty w :
  oneCall w (fst (analyzeFrameRequest P E frameData ty w)).
Proof.
  unfold analyzeFrameRequest. one_fetch H; [|exact H].
  destruct (negb (ok _)).
  - repeat (match goal with |- context [if ?b then _ else _] => destruct b end);
      exact H.
  - destruct (json _); [|exact H].
    destruct (parseApiResponse _ _ _ _); exact H.
Qed.

Lemma getExerciseConfigRequest_oneCall ty w :
  oneCall w (fst (getExerciseConfigRequest P E ty w)).
Proof.
  unfold getExerciseConfigRequest. one_fetch H; [|exact H].
  destruct (negb (ok _)).
  - repeat (match goal with |- context [if ?b then _ else _] => destruct b end);
      exact H.
  - destruct (json _); [|exact H].
    destruct (transformExerciseConfig _ _); [|exact H].
    destruct (parseApiResponse _ _ _ _); exact H.
Qed.

Lemma submitSessionSummaryRequest_oneCall sessionData w :
  oneCall w (fst (submitSessionSummaryRequest E sessionData w)).
Proof.
  unfold submitSessionSummaryRequest. one_fetch H; [|exact H].
  destruct (negb (ok _)); [exact H|].
  destruct (json _); [|exact H].
  destruct (_ || _)%bool; exact H.
Qed.

End Requests.

(** ** Frame analysis *)

Section FrameAnalysis.

Variable P : Platform.
Variable E : Env.

Lemma evolves_without_sleep w w' :
  evolves (fun e => negb (isSleep e)) w w' ->
  retriesIn (trace w') = retriesIn (trace w).
Proof.
  intros [_ (evs & Ht & Hall)]. rewrite Ht, retriesIn_app.
  assert (H0 : retriesIn evs = 0%nat).
  { clear Ht. unfold retriesIn. induction evs as [|e evs IH]; [reflexivity|].
    cbn [forallb] in Hall. apply andb_true_iff in Hall as [He Hall].
    cbn [List.filter]. destruct (isSleep e); [discriminate|]. apply IH, Hall. }
  lia.
Qed.

Lemma evolves_hasBaseUrl allowed w w' :
  evolves allowed w w' -> hasBaseUrl w' = hasBaseUrl w.
Proof. intros [Hb _]. unfold hasBaseUrl. rewrite Hb. reflexivity. Qed.

Lemma retryLoop_retries_bound {T} (f : World -> World * Result T) (n : Z) :
  (forall w, retriesIn (trace (fst (f w))) = retriesIn (trace w)) ->
  forall remaining attempt lastError w,
    (Z.of_nat remaining = Z.max 0 (n - attempt + 1))%Z ->
    (retriesIn (trace (fst (retryLoop P E f n remaining attempt lastError w)))
     <= retriesIn (trace w) + Nat.pred remaining)%nat.
Proof.
  intros Hf. induction remaining as [|r IH]; intros attempt lastError w Hr.
  - cbn. lia.
  - rewrite retryLoop_S.
    assert (H1 : retriesIn (trace (fst (tryRequest f w))) = retriesIn (trace w)).
    { unfold tryRequest. destruct (negb (connected w)); [reflexivity|apply Hf]. }
    destruct (tryRequest f w) as [w1 [v|[msg|]]]; cbn [fst] in *; try lia.
    destruct (isNonRetryableError msg); cbn [fst]; [lia|].
    destruct (attempt >=? n)%Z eqn:Hge; cbn [fst]; [lia|].
    specialize (IH (attempt + 1)%Z (Err msg)
                  (sleep E (fst (calculateRetryDelay P E attempt w1))
                         (snd (calculateRetryDelay P E attempt w1))) ltac:(lia)).
    assert (Hs : retriesIn (trace (sleep E (fst (calculateRetryDelay P E attempt w1))
                                        (snd (calculateRetryDelay P E attempt w1))))
                 = S (retriesIn (trace w1))).
    { unfold sleep, await, emit, calculateRetryDelay, Math_random. cbn [fst snd trace].
      rewrite retriesIn_app. cbn. lia. }
    rewrite Hs in IH. cbn [Nat.pred]. lia.
Qed.

Lemma analyzeFrameRequest_no_sleep frameData ty w :
  retriesIn (trace (fst (analyzeFrameRequest P E frameData ty w))) = retriesIn (trace w).
Proof.
  apply evolves_without_sleep, evolves_analyzeFrameRequest. reflexivity.
Qed.

Lemma analyzeFrame_retries_bound frameData ty w :
  (retriesIn (trace (fst (analyzeFrame P E frameData ty w)))
   <= retriesIn (trace w) + 1)%nat.
Proof.
  unfold analyzeFrame. destruct (negb (hasBaseUrl w)); [cbn; lia|].
  destruct (negb (connected w)); [cbn; lia|].
  unfold executeWithRetry.
  pose proof (retryLoop_retries_bound (analyzeFrameRequest P E frameData ty) 1
                (analyzeFrameRequest_no_sleep frameData ty)
                (Z.to_nat (1 + 1)) 0%Z ThrownUndefined w ltac:(lia)) as H.
  exact H.
Qed.

Lemma analyzeFrameRequest_degrades frameData ty wk response :
  transport (awaitEvent E (awaits wk)) = Responded response ->
  In (status response) [401; 403; 422; 500]%Z ->
  let out := analyzeFrameRequest P E frameData ty wk in
  snd out = Return (getFallbackPoseData P ty (fst out)) /\
  trace (fst out)
  = trace wk ++ [NetCall "POST" (baseUrlString wk ++ "/api/analyze-frame")%string] /\
  awaits (fst out) = S (awaits wk).
Proof.
  intros Ht Hin. cbn zeta. unfold analyzeFrameRequest, fetch, await, emit. cbn [awaits].
  rewrite Ht. unfold ok.
  destruct response as [st stx bd]. cbn [status] in *.
  destruct Hin as [<-|[<-|[<-|[<-|[]]]]]; cbn; auto.
Qed.

Lemma analyzeFrame_degrades_once frameData ty w response :
  hasBaseUrl w = true ->
  connected w = true ->
  transport (awaitEvent E (awaits w)) = Responded response ->
  In (status response) [401; 403; 422; 500]%Z ->
  let out := analyzeFrame P E frameData ty w in
  snd out = Return (getFallbackPoseData P ty (fst out)) /\
  trace (fst out)
  = trace w ++ [NetCall "POST" (baseUrlString w ++ "/api/analyze-frame")%string] /\
  awaits (fst out) = S (awaits w).
Proof.
  intros Hb Hc Ht Hin out. subst out. unfold analyzeFrame. rewrite Hb, Hc. cbn [negb].
  unfold executeWithRetry. change (Z.to_nat (1 + 1)) with 2%nat.
  rewrite retryLoop_S, (tryRequest_online _ w Hc).
  pose proof (analyzeFrameRequest_degrades frameData ty w response Ht Hin) as H.
  cbn zeta in H.
  destruct (analyzeFrameRequest P E frameData ty w) as [w1 r]. cbn [fst snd] in *.
  destruct H as (-> & H). split; [reflexivity|exact H].
Qed.

(** The degrading answer may come to the retry instead of the first
    request. *)
Lemma analyzeFrame_degrades_on_retry frameData ty w message response :
  hasBaseUrl w = true ->
  connected w = true ->
  let first := analyzeFrameRequest P E frameData ty w in
  let pause := calculateRetryDelay P E 0 (fst first) in
  let w2 := sleep E (fst pause) (snd pause) in
  snd first = Throw (Err message) ->
  isNonRetryableError message = false ->
  connected w2 = true ->
  transport (awaitEvent E (awaits w2)) = Responded response ->
  In (status response) [401; 403; 422; 500]%Z ->
  let out := analyzeFrame P E frameData ty w in
  snd out = Return (getFallbackPoseData P ty (fst out)) /\
  netCallsIn (trace (fst out)) = S (S (netCallsIn (trace w))) /\
  retriesIn (trace (fst out)) = S (retriesIn (trace w)).
Proof.
  intros Hb Hc first pause w2 Hfirst Hretry Hc2 Ht Hin out.
  subst out w2 pause first. unfold analyzeFrame. rewrite Hb, Hc. cbn [negb].
  unfold executeWithRetry. change (Z.to_nat (1 + 1)) with 2%nat.
  rewrite retryLoop_S, (tryRequest_online _ w Hc).
  pose proof (analyzeFrameRequest_oneCall P E frameData ty w) as Hcall1.
  pose proof (analyzeFrameRequest_no_sleep frameData ty w) as Hsleep1.
  destruct (analyzeFrameRequest P E frameData ty w) as [w1 r1] eqn:Hf.
  cbn [fst snd] in *. subst r1.
  rewrite Hretry. change (0 >=? 1)%Z with false. cbn iota.
  set (delay := fst (calculateRetryDelay P E 0 w1)) in *.
  set (w2 := sleep E delay (snd (calculateRetryDelay P E 0 w1))) in *.
  assert (Hw2 : trace w2 = trace w1 ++ [Sleep delay]).
  { subst w2. unfold sleep, await, emit. cbn [fst trace].
    rewrite (calculateRetryDelay_world P E). reflexivity. }
  rewrite retryLoop_S, (tryRequest_online _ w2 Hc2).
  pose proof (analyzeFrameRequest_degrades frameData ty w2 response Ht Hin) as H.
  cbn zeta in H.
  destruct (analyzeFrameRequest P E frameData ty w2) as [w3 r3]. cbn [fst snd] in *.
  destruct H as (-> & Htr & _). cbn [fst snd]. split; [reflexivity|].
  unfold oneCall in Hcall1.
  rewrite Htr, Hw2, !netCallsIn_app, !retriesIn_app. cbn. lia.
Qed.

(** C2: a call of [analyzeFrame] on a connected, initialized service
    that the backend answers with 401, 403, 422 or 500 returns the
    synthetic pose data of that moment and sends nothing further, whether
    that answer comes to the first request (one network call, no wait) or,
    after a failure that is retried, to the one retry (two calls, one
    wait); whatever the backend does, a call never makes more than one
    retry; and three consecutive calls that are each answered with 401
    return synthetic pose data each, with no retry at all. *)
Theorem analyzeFrame_degrades_to_synthetic (frameData ty : string) (w : World) :
  hasBaseUrl w = true ->
  (forall response,
     connected w = true ->
     transport (awaitEvent E (awaits w)) = Responded response ->
     In (status response) [401; 403; 422; 500]%Z ->
     let out := analyzeFrame P E frameData ty w in
     snd out = Return (getFallbackPoseData P ty (fst out)) /\
     netCallsIn (trace (fst out)) = S (netCallsIn (trace w)) /\
     retriesIn (trace (fst out)) = retriesIn (trace w)) /\
  (forall message response,
     connected w = true ->
     let first := analyzeFrameRequest P E frameData ty w in
     let pause := calculateRetryDelay P E 0 (fst first) in
     let w2 := sleep E (fst pause) (snd pause) in
     snd first = Throw (Err message) ->
     isNonRetryableError message = false ->
     connected w2 = true ->
     transport (awaitEvent E (awaits w2)) = Responded response ->
     In (status response) [401; 403; 422; 500]%Z ->
     let out := analyzeFrame P E frameData ty w in
     snd out = Return (getFallbackPoseData P ty (fst out)) /\
     netCallsIn (trace (fst out)) = S (S (netCallsIn (trace w))) /\
     retriesIn (trace (fst out)) = S (retriesIn (trace w))) /\
  (retriesIn (trace (fst (analyzeFrame P E frameData ty w)))
   <= retriesIn (trace w) + 1)%nat /\
  (let out1 := analyzeFrame P E frameData ty w in
   let out2 := analyzeFrame P E frameData ty (fst out1) in
   let out3 := analyzeFrame P E frameData ty (fst out2) in
   onlineAndAnswered E 401 w ->
   onlineAndAnswered E 401 (fst out1) ->
   onlineAndAnswered E 401 (fst out2) ->
   snd out1 = Return (getFallbackPoseData P ty (fst out1)) /\
   snd out2 = Return (getFallbackPoseData P ty (fst out2)) /\
   snd out3 = Return (getFallbackPoseData P ty (fst out3)) /\
   retriesIn (trace (fst out3)) = retriesIn (trace w)).
Proof.
  intros Hb.
  assert (Hone : forall w response,
            hasBaseUrl w = true -> connected w = true ->
            transport (awaitEvent E (awaits w)) = Responded response ->
            In (status response) [401; 403; 422; 500]%Z ->
            snd (analyzeFrame P E frameData ty w)
            = Return (getFallbackPoseData P ty (fst (analyzeFrame P E frameData ty w))) /\
            netCallsIn (trace (fst (analyzeFrame P E frameData ty w)))
            = S (netCallsIn (trace w)) /\
            retriesIn (trace (fst (analyzeFrame P E frameData ty w)))
            = retriesIn (trace w)).
  { intros w0 response Hb0 Hc0 Ht0 Hin0.
    destruct (analyzeFrame_degrades_once frameData ty w0 response Hb0 Hc0 Ht0 Hin0)
      as (Hr & Htr & _).
    split; [exact Hr|]. rewrite Htr, netCallsIn_app, retriesIn_app. cbn. lia. }
  assert (Hkeep : forall w, hasBaseUrl (fst (analyzeFrame P E frameData ty w)) = hasBaseUrl w).
  { intros w0. eapply (evolves_hasBaseUrl (fun _ => true)).
    apply evolves_analyzeFrame; reflexivity. }
  split; [|split; [|split]].
  - intros response Hc Ht Hin. apply (Hone w response); assumption.
  - intros message response Hc first pause w2 Hfirst Hretry Hc2 Ht Hin.
    apply (analyzeFrame_degrades_on_retry frameData ty w message response);
      assumption.
  - apply analyzeFrame_retries_bound.
  - intros out1 out2 out3 [Hc1 (r1 & Ht1 & Hs1)] [Hc2 (r2 & Ht2 & Hs2)]
           [Hc3 (r3 & Ht3 & Hs3)].
    subst out1 out2 out3.
    assert (Hin : forall r, status r = 401%Z -> In (status r) [401; 403; 422; 500]%Z).
    { intros r ->. left. reflexivity. }
    destruct (Hone w r1 Hb Hc1 Ht1 (Hin r1 Hs1)) as (Ha1 & _ & Hr1).
    assert (Hb2 : hasBaseUrl (fst (analyzeFrame P E frameData ty w)) = true)
      by (rewrite Hkeep; exact Hb).
    destruct (Hone _ r2 Hb2 Hc2 Ht2 (Hin r2 Hs2)) as (Ha2 & _ & Hr2).
    assert (Hb3 : hasBaseUrl (fst (analyzeFrame P E frameData ty
                                     (fst (analyzeFrame P E frameData ty w)))) = true)
      by (rewrite Hkeep; exact Hb2).
    destruct (Hone _ r3 Hb3 Hc3 Ht3 (Hin r3 Hs3)) as (Ha3 & _ & Hr3).
    repeat split; try assumption. congruence.
Qed.

End FrameAnalysis.

Lemma analyzeFrame_degrades_to_synthetic_witness :
  (let E := constantEnv (respond 401) 0 in
   let w := startWorld initializedService 5000 in
   let out1 := analyzeFrame samplePlatform E "frame" "squat" w in
   let out2 := analyzeFrame samplePlatform E "frame" "squat" (fst out1) in
   let out3 := analyzeFrame samplePlatform E "frame" "squat" (fst out2) in
   snd out1 = Return (getFallbackPoseData samplePlatform "squat" (fst out1)) /\
   snd out2 = Return (getFallbackPoseData samplePlatform "squat" (fst out2)) /\
   snd out3 = Return (getFallbackPoseData samplePlatform "squat" (fst out3)) /\
   retriesIn (trace (fst out3)) = retriesIn (trace w)) /\
  (let E := answeredOnRetryEnv 500 in
   let w := startWorld initializedService 5000 in
   let out := analyzeFrame samplePlatform E "frame" "squat" w in
   snd out = Return (getFallbackPoseData samplePlatform "squat" (fst out)) /\
   netCallsIn (trace (fst out)) = 2%nat /\
   retriesIn (trace (fst out)) = 1%nat).
Proof.
  cbn zeta. split.
  - refine (proj2 (proj2 (proj2 (analyzeFrame_degrades_to_synthetic samplePlatform
              (constantEnv (respond 401) 0) "frame" "squat"
              (startWorld initializedService 5000) _))) _ _ _).
    + reflexivity.
    + split; [reflexivity|]. eexists. split; reflexivity.
    + split; [vm_compute; reflexivity|]. eexists. split; reflexivity.
    + split; [vm_compute; reflexivity|]. eexists. split; reflexivity.
  - refine (proj1 (proj2 (analyzeFrame_degrades_to_synthetic samplePlatform
              (answeredOnRetryEnv 500) "frame" "squat"
              (startWorld initializedService 5000) _)) _
              {| status := 500; statusText := ""; body := inl JNull |} _ _ _ _ _ _).
    + reflexivity.
    + reflexivity.
    + vm_compute. reflexivity.
    + vm_compute. reflexivity.
    + vm_compute. reflexivity.
    + vm_compute. reflexivity.
    + cbn. auto.
Defined.

(** ** Fetching and caching configurations *)

Section ConfigFetch.

Variable P : Platform.
Variable E : Env.

Lemma retryLoop_return_inv {T} (f : World -> World * Result T) (n : Z) :
  forall remaining attempt lastError w w' v,
    retryLoop P E f n remaining attempt lastError w = (w', Return v) ->
    exists wk, connected wk = true /\ f wk = (w', Return v).
Proof.
  induction remaining as [|r IH]; intros attempt lastError w w' v H.
  - discriminate.
  - rewrite retryLoop_S in H.
    destruct (tryRequest f w) as [w1 [v1|[msg|]]] eqn:Htry.
    + inversion H; subst. unfold tryRequest in Htry.
      destruct (connected w) eqn:Hc; cbn [negb] in Htry; [|discriminate].
      exists w. split; assumption.
    + destruct (isNonRetryableError msg); [discriminate|].
      destruct (attempt >=? n)%Z; [discriminate|].
      eapply IH. exact H.
    + discriminate.
Qed.

Lemma getExerciseConfigRequest_return ty wk w' v :
  getExerciseConfigRequest P E ty wk = (w', Return v) ->
  v = getFallbackExerciseConfig ty \/
  exists cfg w1, w' = cacheConfig ty cfg w1 /\ v = JObj cfg.
Proof.
  unfold getExerciseConfigRequest.
  destruct (fetch E _ _ wk) as [w1 [response|e]]; [|discriminate].
  destruct (negb (ok response)).
  - repeat (match goal with |- context [if ?b then _ else _] => destruct b end);
      intros H; inversion H; subst; auto.
  - destruct (json response) as [raw|e]; [|discriminate].
    destruct (transformExerciseConfig P raw) as [tr|e]; [|discriminate].
    destruct (parseApiResponse P tr validateExerciseConfig "Exercise Config") as [cfg|e];
      [|discriminate].
    intros H. inversion H; subst. right. exists cfg, w1. auto.
Qed.












End ConfigFetch.



(** ** The offline queue and its replay *)

Section QueueReplay.

Variable P : Platform.
Variable E : Env.

Lemma evolves_without_replay w w' :
  evolves (fun e => negb (isReplayStart e)) w w' ->
  replayStarts (trace w') = replayStarts (trace w).
Proof.
  intros [_ (evs & Ht & Hall)]. rewrite Ht, replayStarts_app.
  assert (H0 : replayStarts evs = []).
  { clear Ht. induction evs as [|e evs IH]; [reflexivity|].
    cbn [forallb] in Hall. apply andb_true_iff in Hall as [He Hall].
    destruct e; try discriminate; cbn [replayStarts]; apply IH, Hall. }
  rewrite H0. apply app_nil_r.
Qed.

Lemma enqueuedIds_app (a b : list Event) :
  enqueuedIds (a ++ b) = enqueuedIds a ++ enqueuedIds b.
Proof.
  induction a as [|e a IH]; cbn [app enqueuedIds]; [reflexivity|].
  destruct e; cbn [app]; rewrite IH; reflexivity.
Qed.

Lemma queueRequest_appends data w :
  exists request,
    QueuedRequest.data request = data /\
    QueuedRequest.id request = fst (queueRequest P E data w) /\
    requestQueue (this (snd (queueRequest P E data w)))
    = requestQueue (this w) ++ [request] /\
    enqueuedIds (trace (snd (queueRequest P E data w)))
    = enqueuedIds (trace w) ++ [QueuedRequest.id request] /\
    replayStarts (trace (snd (queueRequest P E data w))) = replayStarts (trace w) /\
    isProcessingQueue (this (snd (queueRequest P E data w))) = isProcessingQueue (this w).
Proof.
  unfold queueRequest, Math_random, emit, with_this. cbn [fst snd].
  eexists. repeat split; try reflexivity; cbn [trace].
  - rewrite enqueuedIds_app. reflexivity.
  - rewrite replayStarts_app. cbn. apply app_nil_r.
Qed.

Lemma queueRequests_appends ds :
  forall w, exists added,
    map QueuedRequest.data added = ds /\
    requestQueue (this (queueRequests P E ds w)) = requestQueue (this w) ++ added /\
    enqueuedIds (trace (queueRequests P E ds w))
    = enqueuedIds (trace w) ++ map QueuedRequest.id added /\
    replayStarts (trace (queueRequests P E ds w)) = replayStarts (trace w) /\
    isProcessingQueue (this (queueRequests P E ds w)) = isProcessingQueue (this w).
Proof.
  induction ds as [|d ds IH]; intros w.
  - exists []. cbn. rewrite !app_nil_r. auto.
  - destruct (queueRequest_appends d w) as (request & Hd & _ & Hq & He & Hr & Hp).
    destruct (IH (snd (queueRequest P E d w))) as (added & Hds & Hq' & He' & Hr' & Hp').
    exists (request :: added). cbn [queueRequests fold_left map].
    fold (queueRequests P E ds (snd (queueRequest P E d w))).
    rewrite Hq', Hq, He', He, Hr', Hr, Hp', Hp, Hd, Hds, <- !app_assoc. auto.
Qed.

Lemma replayOne_trace request w :
  replayStarts (trace (replayOne P E request w))
  = replayStarts (trace w) ++ [QueuedRequest.id request].
Proof.
  unfold replayOne.
  pose proof (evolves_processQueuedRequest P E (fun e => negb (isReplayStart e))
                ltac:(reflexivity) ltac:(reflexivity) ltac:(reflexivity)
                request (emit (ReplayStart (QueuedRequest.id request)) w)) as H.
  apply evolves_without_replay in H.
  destruct (processQueuedRequest P E request _) as [w1 r]. cbn [fst] in H.
  assert (H1 : replayStarts (trace w1)
               = replayStarts (trace w) ++ [QueuedRequest.id request]).
  { rewrite H. unfold emit. cbn [trace]. rewrite replayStarts_app. reflexivity. }
  destruct r; [exact H1|].
  destruct (_ <? _)%Z; exact H1.
Qed.

Lemma replayAll_trace requests :
  forall w,
    replayStarts (trace (replayAll P E requests w))
    = replayStarts (trace w) ++ map QueuedRequest.id requests.
Proof.
  induction requests as [|request others IH]; intros w; cbn [replayAll map].
  - rewrite app_nil_r. reflexivity.
  - rewrite IH, replayOne_trace, <- app_assoc. reflexivity.
Qed.

Lemma processRequestQueue_trace w :
  isProcessingQueue (this w) = false ->
  replayStarts (trace (processRequestQueue P E w))
  = replayStarts (trace w) ++ map QueuedRequest.id (requestQueue (this w)).
Proof.
  intros Hp. unfold processRequestQueue. rewrite Hp. cbn [orb].
  destruct (requestQueue (this w)) as [|request others] eqn:Hq.
  - cbn. rewrite app_nil_r. reflexivity.
  - cbn [length Nat.eqb].
    match goal with
    | |- replayStarts (trace (if ?c then emit ?e ?w4 else ?w4)) = _ =>
        assert (H4 : replayStarts (trace w4)
                     = replayStarts (trace w) ++ map QueuedRequest.id (request :: others));
        [|destruct c; [|exact H4];
          unfold emit; cbn [trace]; rewrite replayStarts_app, H4; cbn;
          apply app_nil_r]
    end.
    unfold with_this at 1. cbn [trace].
    rewrite replayAll_trace. unfold with_this. cbn [trace this requestQueue].
    unfold set_isProcessingQueue. cbn [requestQueue]. rewrite Hq. reflexivity.
Qed.

(** C7: requests enqueued one after the other are appended at the tail
    of the queue, so the queue holds them in the order they were enqueued
    (behind what it held before); and a drain starts the replays of the
    requests it finds in the queue one after the other in that order,
    whatever their outcomes.  With [ds] empty this is the statement for
    a drain of any queue. *)
Theorem replay_order_is_enqueue_order (ds : list RequestData) (w : World) :
  isProcessingQueue (this w) = false ->
  let w1 := queueRequests P E ds w in
  exists added,
    map QueuedRequest.data added = ds /\
    requestQueue (this w1) = requestQueue (this w) ++ added /\
    enqueuedIds (trace w1) = enqueuedIds (trace w) ++ map QueuedRequest.id added /\
    replayStarts (trace (processRequestQueue P E w1))
    = replayStarts (trace w)
      ++ map QueuedRequest.id (requestQueue (this w)) ++ map QueuedRequest.id added.
Proof.
  intros Hp w1. subst w1.
  destruct (queueRequests_appends ds w) as (added & Hd & Hq & He & Hr & Hp').
  exists added. repeat split; try assumption.
  rewrite processRequestQueue_trace by (rewrite Hp'; exact Hp).
  rewrite Hr, Hq, map_app. reflexivity.
Qed.

End QueueReplay.

Lemma replay_order_is_enqueue_order_witness :
  let E := constantEnv (respond 503) 0 in
  let w1 := queueRequests samplePlatform E
              [VideoData "clip.mp4" "squat"; ConfigData "squat"; SummaryData sampleSession]
              (startWorld (offline initializedService) 0) in
  replayStarts (trace (processRequestQueue samplePlatform E w1)) = enqueuedIds (trace w1) /\
  enqueuedIds (trace w1)
  = ["video_0_k3x9q2m7a"; "config_0_k3x9q2m7a"; "summary_0_k3x9q2m7a"]%string.
Proof.
  cbn zeta.
  destruct (replay_order_is_enqueue_order samplePlatform (constantEnv (respond 503) 0)
              [VideoData "clip.mp4" "squat"; ConfigData "squat"; SummaryData sampleSession]
              (startWorld (offline initializedService) 0) eq_refl)
    as (added & _ & _ & He & Hr).
  split; [|vm_compute; reflexivity].
  rewrite Hr, He. reflexivity.
Defined.

(** ** Checks of the model on the scenarios of the specification *)

Example isNonRetryableError_examples :
  isNonRetryableError "Session summary failed: 401 Unauthorized" = true /\
  isNonRetryableError "Frame analysis failed: 400 Bad Request" = true /\
  isNonRetryableError "Failed to get exercise config: 404 Not Found" = true /\
  isNonRetryableError "Upload failed with status 413" = true /\
  isNonRetryableError "Session summary failed: 503 Service Unavailable" = false /\
  isNonRetryableError "Network request failed" = false /\
  isNonRetryableError "Upload timeout" = false.
Proof. vm_compute. auto 10. Qed.

(** The fallback configuration of the squat has [thresholds.minAngle = 90],
    and an unknown exercise type falls back to the squat entry. *)
Example squat_fallback_minAngle :
  Js.get "minAngle" (Js.getOr "thresholds" (getFallbackExerciseConfig "squat"))
  = Some (JNum 90) /\
  getFallbackExerciseConfig "lunge" = getFallbackExerciseConfig "squat".
Proof. vm_compute. auto. Qed.

(** The validators on the payloads named by the specification. *)
Example validatePoseData_rejects_unknown_stage :
  validatePoseData samplePlatform
    (JObj [("keypoints", JArr []); ("confidence", JNum 1); ("formScore", JNum 90);
           ("currentRep", JNum 3); ("stage", JStr "jump"); ("warnings", JArr [])])
  = Return None.
Proof. vm_compute. reflexivity. Qed.

Example validateAnalysisResult_rejects_missing_calories :
  validateAnalysisResult samplePlatform
    (JObj [("sessionId", JStr "s1"); ("exerciseType", JStr "squat");
           ("totalReps", JNum 10); ("accuracy", JNum 80); ("formFeedback", JArr []);
           ("keypoints", JArr []); ("duration", JNum 60);
           ("recommendations", JArr [])])
  = Return None.
Proof. vm_compute. reflexivity. Qed.

Example validateExerciseConfig_accepts_minimal :
  validateExerciseConfig (JObj sampleConfig) = Return (Some sampleConfig).
Proof. vm_compute. reflexivity. Qed.

(** [clearExpiredCache] draws the line where [getCachedConfig] does: an
    entry is swept only when the clock has passed its expiry instant. *)
Example clearExpiredCache_boundary :
  configCache (this (clearExpiredCache (startWorld (cachedService 1000) 1000)))
    !! "squat"%string
  = configCache (cachedService 1000) !! "squat"%string /\
  configCache (this (clearExpiredCache (startWorld (cachedService 1000) 1001)))
    !! "squat"%string
  = None.
Proof. vm_compute. auto. Qed.

(** Offline, [getExerciseConfig "squat"] is deferred; once the service is
    connected again the drain replays it, and when the backend answers 500
    the replay ends with the squat fallback. *)
Example deferred_config_is_replayed :
  let E := constantEnv (respond 500) 0 in
  let w0 := startWorld (offline initializedService) 0 in
  let out := getExerciseConfig samplePlatform E "squat" w0 in
  let online := {| ni_isConnected := Some true; ni_type := "wifi";
                   ni_isInternetReachable := Some true |} in
  let w1 := with_this (fun s => fst (onNetworkChange online s)) (fst out) in
  let w2 := processRequestQueue samplePlatform E w1 in
  snd out = queuedError "config_0_k3x9q2m7a" /\
  snd (onNetworkChange online (this (fst out))) = true /\
  replayStarts (trace w2) = ["config_0_k3x9q2m7a"%string] /\
  netCallsIn (trace w2) = 1%nat /\
  requestQueue (this w2) = [] /\
  snd (getExerciseConfig samplePlatform E "squat" w1) = Return squatFallback.
Proof. vm_compute. auto 10. Qed.

(** * Further properties of the service *)

(** ** Classification of failures *)

Section Classification.

(** X1: the classification of a failure looks at the message only through
    its lower-case form, and a message that contains a non-retryable
    message is non-retryable itself: wrapping an error in a prefix and a
    suffix never makes it retryable. *)
Theorem isNonRetryableError_survives_wrapping (message : string) :
  isNonRetryableError (JsString.toLowerCase message) = isNonRetryableError message /\
  (isNonRetryableError message = true ->
   forall before after : string,
     isNonRetryableError (before ++ message ++ after)%string = true).
Proof.
  split.
  - rewrite !isNonRetryableError_patterns, toLowerCase_idempotent. reflexivity.
  - intros H before after. apply isNonRetryableError_embedded, H.
Qed.

End Classification.

Lemma isNonRetryableError_survives_wrapping_witness :
  isNonRetryableError "Invalid response format: API Error in Video Upload: Unauthorized"
  = true.
Proof.
  exact (proj2 (isNonRetryableError_survives_wrapping "Unauthorized") eq_refl
               "Invalid response format: API Error in Video Upload: "%string ""%string).
Defined.

(** ** What every step of an operation preserves *)

(** A relation between worlds that holds across each primitive step holds
    across the request functions, the retry executor and the public
    operations. *)
Section Steps.

Variable P : Platform.
Variable E : Env.
Variable R : World -> World -> Prop.

Hypothesis HR : Preserved P E R.

Let R_refl := pres_refl P E R HR.
Let R_trans := pres_trans P E R HR.
Let R_NetCall := pres_NetCall P E R HR.
Let R_Sleep := pres_Sleep P E R HR.
Let R_await := pres_await P E R HR.
Let R_random := pres_random P E R HR.
Let R_getCachedConfig := pres_getCachedConfig P E R HR.
Let R_cacheConfig := pres_cacheConfig P E R HR.
Let R_queueRequest := pres_queueRequest P E R HR.

Lemma steps_request m u w : R w (fst (await E (emit (NetCall m u) w))).
Proof. eapply R_trans; [apply R_NetCall|apply R_await]. Qed.

Lemma steps_fetch m u w : R w (fst (fetch E m u w)).
Proof.
  unfold fetch. pose proof (steps_request m u w) as H.
  destruct (await E (emit (NetCall m u) w)) as [w1 [r| |]]; exact H.
Qed.

Lemma steps_sleep d w : R w (sleep E d w).
Proof. unfold sleep. eapply R_trans; [apply R_Sleep|apply R_await]. Qed.

Lemma steps_calculateRetryDelay k w : R w (snd (calculateRetryDelay P E k w)).
Proof. exact (R_random w). Qed.

Lemma steps_retryLoop {T} (f : World -> World * Result T) :
  (forall w, R w (fst (f w))) ->
  forall remaining n attempt lastError w,
    R w (fst (retryLoop P E f n remaining attempt lastError w)).
Proof.
  intros Hf. induction remaining as [|r IH]; intros n attempt lastError w.
  - apply R_refl.
  - rewrite retryLoop_S.
    assert (H1 : R w (fst (tryRequest f w))).
    { unfold tryRequest. destruct (negb (connected w)); [apply R_refl|apply Hf]. }
    destruct (tryRequest f w) as [w1 [v|[msg|]]]; cbn [fst] in *; try exact H1.
    destruct (isNonRetryableError msg); [exact H1|].
    destruct (attempt >=? n)%Z; [exact H1|].
    eapply R_trans; [exact H1|].
    eapply R_trans; [apply steps_calculateRetryDelay|].
    eapply R_trans; [apply steps_sleep|apply IH].
Qed.

Lemma steps_executeWithRetry {T} (f : World -> World * Result T) ty n w :
  (forall w, R w (fst (f w))) -> R w (fst (executeWithRetry P E f ty n w)).
Proof. intros Hf. apply steps_retryLoop, Hf. Qed.

Ltac step_fetch H :=
  match goal with
  | |- context [fetch E ?m ?u ?w] =>
      pose proof (steps_fetch m u w) as H;
      destruct (fetch E m u w) as [? [?|?]]; cbn [fst] in H
  end.

Lemma steps_uploadVideoRequest videoPath ty w :
  R w (fst (uploadVideoRequest P E videoPath ty w)).
Proof.
  unfold uploadVideoRequest.
  match goal with |- context [await E (emit (NetCall ?m ?u) w)] =>
    pose proof (steps_request m u w) as H;
    destruct (await E (emit (NetCall m u) w)) as [w1 t] end.
  cbn [fst] in H. destruct t as [xhr| |]; try exact H.
  destruct (_ && _)%bool; [|exact H].
  match goal with |- context [match ?x with Return _ => _ | Throw _ => _ end] =>
    destruct x as [?|[?|]] end; exact H.
Qed.

Lemma steps_analyzeFrameRequest frameData ty w :
  R w (fst (analyzeFrameRequest P E frameData ty w)).
Proof.
  unfold analyzeFrameRequest. step_fetch H; [|exact H].
  destruct (negb (ok _)).
  - repeat (match goal with |- context [if ?b then _ else _] => destruct b end);
      exact H.
  - destruct (json _); [|exact H].
    destruct (parseApiResponse _ _ _ _); exact H.
Qed.

Lemma steps_getExerciseConfigRequest ty w :
  R w (fst (getExerciseConfigRequest P E ty w)).
Proof.
  unfold getExerciseConfigRequest. step_fetch H; [|exact H].
  destruct (negb (ok _)).
  - repeat (match goal with |- context [if ?b then _ else _] => destruct b end);
      exact H.
  - destruct (json _); [|exact H].
    destruct (transformExerciseConfig _ _); [|exact H].
    destruct (parseApiResponse _ _ _ _); [|exact H].
    eapply R_trans; [exact H|apply R_cacheConfig].
Qed.

Lemma steps_submitSessionSummaryRequest sessionData w :
  R w (fst (submitSessionSummaryRequest E sessionData w)).
Proof.
  unfold submitSessionSummaryRequest. step_fetch H; [|exact H].
  destruct (negb (ok _)); [exact H|].
  destruct (json _); [|exact H].
  destruct (_ || _)%bool; exact H.
Qed.

Lemma steps_uploadVideo videoPath ty w : R w (fst (uploadVideo P E videoPath ty w)).
Proof.
  unfold uploadVideo. destruct (negb (hasBaseUrl w)); [apply R_refl|].
  destruct (negb (connected w)).
  - pose proof (R_queueRequest (VideoData videoPath ty) w) as H.
    destruct (queueRequest _ _ _ _); exact H.
  - apply steps_executeWithRetry, steps_uploadVideoRequest.
Qed.

Lemma steps_analyzeFrame frameData ty w : R w (fst (analyzeFrame P E frameData ty w)).
Proof.
  unfold analyzeFrame. destruct (negb (hasBaseUrl w)); [apply R_refl|].
  destruct (negb (connected w)); [apply R_refl|].
  apply steps_executeWithRetry, steps_analyzeFrameRequest.
Qed.

Lemma steps_getExerciseConfig ty w : R w (fst (getExerciseConfig P E ty w)).
Proof.
  unfold getExerciseConfig. destruct (negb (hasBaseUrl w)); [apply R_refl|].
  pose proof (R_getCachedConfig ty w) as H0.
  destruct (getCachedConfig ty w) as [[cfg|] w0]; cbn [snd] in H0; [exact H0|].
  eapply R_trans; [exact H0|].
  destruct (negb (connected w0)).
  - pose proof (R_queueRequest (ConfigData ty) w0) as H.
    destruct (queueRequest _ _ _ _); exact H.
  - apply steps_executeWithRetry, steps_getExerciseConfigRequest.
Qed.

Lemma steps_submitSessionSummary sessionData w :
  R w (fst (submitSessionSummary P E sessionData w)).
Proof.
  unfold submitSessionSummary. destruct (negb (hasBaseUrl w)); [apply R_refl|].
  destruct (negb (connected w)).
  - pose proof (R_queueRequest (SummaryData sessionData) w) as H.
    destruct (queueRequest _ _ _ _); exact H.
  - apply steps_executeWithRetry, steps_submitSessionSummaryRequest.
Qed.

Lemma steps_processQueuedRequest request w :
  R w (fst (processQueuedRequest P E request w)).
Proof.
  unfold processQueuedRequest.
  destruct (QueuedRequest.data request); rewrite fst_discard.
  - apply steps_uploadVideo.
  - apply steps_analyzeFrame.
  - apply steps_getExerciseConfig.
  - apply steps_submitSessionSummary.
Qed.

End Steps.

(** ** Operations without a fallback *)

Section Surfacing.

Variable P : Platform.
Variable E : Env.

Lemma notBefore_preserved : Preserved P E notBefore.
Proof.
  split; unfold notBefore; intros.
  - lia.
  - lia.
  - reflexivity.
  - reflexivity.
  - unfold await. cbn. lia.
  - reflexivity.
  - destruct (getCachedConfig_keeps ty w) as (_ & _ & H & _). rewrite H. lia.
  - reflexivity.
  - reflexivity.
Qed.

Lemma retryLoop_return_from {T} (R : World -> World -> Prop)
    (f : World -> World * Result T) (n : Z) :
  Preserved P E R ->
  (forall w, R w (fst (f w))) ->
  forall remaining attempt lastError w w' v,
    retryLoop P E f n remaining attempt lastError w = (w', Return v) ->
    exists wk, R w wk /\ connected wk = true /\ f wk = (w', Return v).
Proof.
  intros HR Hf. induction remaining as [|r IH]; intros attempt lastError w w' v H.
  - discriminate.
  - rewrite retryLoop_S in H.
    assert (H1 : R w (fst (tryRequest f w))).
    { unfold tryRequest. destruct (negb (connected w));
        [apply (pres_refl P E R HR)|apply Hf]. }
    destruct (tryRequest f w) as [w1 [v1|[msg|]]] eqn:Htry; cbn [fst] in H1.
    + inversion H; subst. unfold tryRequest in Htry.
      destruct (connected w) eqn:Hc; cbn [negb] in Htry; [|discriminate].
      exists w. split; [apply (pres_refl P E R HR)|]. split; assumption.
    + destruct (isNonRetryableError msg); [discriminate|].
      destruct (attempt >=? n)%Z; [discriminate|].
      apply IH in H as (wk & Hk & Hc & Hfk).
      exists wk. split; [|split; assumption].
      eapply (pres_trans P E R HR); [exact H1|].
      eapply (pres_trans P E R HR); [apply (steps_calculateRetryDelay P E R HR)|].
      eapply (pres_trans P E R HR); [apply (steps_sleep P E R HR)|exact Hk].
    + discriminate.
Qed.

(** X2: when the backend answers a session summary or a video upload
    with 400, 401, 404 or 413, the operation throws the error of that
    answer after the one network call, with no backoff wait and no second
    attempt (for a retry ceiling that is not negative). *)
Theorem client_errors_surface_without_retry (w : World) (response : HttpResponse) :
  hasBaseUrl w = true ->
  connected w = true ->
  (0 <= defaultMaxRetries w)%Z ->
  transport (awaitEvent E (awaits w)) = Responded response ->
  In (status response) [400; 401; 404; 413]%Z ->
  (forall sessionData,
     let out := submitSessionSummary P E sessionData w in
     snd out = Throw (httpFailure "Session summary failed" response) /\
     trace (fst out)
     = trace w ++ [NetCall "POST" (baseUrlString w ++ "/api/session-summary")%string]) /\
  (forall videoPath ty,
     let out := uploadVideo P E videoPath ty w in
     snd out
     = Throw (Err ("Upload failed with status " ++ JsString.ofZ (status response))%string) /\
     trace (fst out)
     = trace w ++ [NetCall "POST" (baseUrlString w ++ "/api/analyze-video")%string]).
Proof.
  intros Hb Hc Hn Ht Hin.
  assert (Hfuel : Z.to_nat (defaultMaxRetries w + 1) = S (Z.to_nat (defaultMaxRetries w)))
    by lia.
  split.
  - intros sessionData out. subst out. unfold submitSessionSummary.
    rewrite Hb, Hc. cbn [negb]. unfold executeWithRetry. rewrite Hfuel.
    rewrite retryLoop_S, (tryRequest_online _ w Hc).
    unfold submitSessionSummaryRequest, fetch, await, emit. cbn [awaits].
    rewrite Ht, (client_error_is_not_ok response Hin). cbn [negb].
    unfold httpFailure.
    rewrite (http_status_is_non_retryable _ _ _ Hin). cbn. auto.
  - intros videoPath ty out. subst out. unfold uploadVideo.
    rewrite Hb, Hc. cbn [negb]. unfold executeWithRetry. rewrite Hfuel.
    rewrite retryLoop_S, (tryRequest_online _ w Hc).
    unfold uploadVideoRequest, await, emit. cbn [awaits].
    rewrite Ht.
    assert (Hok : ((status response >=? 200)%Z && (status response <? 300)%Z)%bool = false).
    { destruct Hin as [<-|[<-|[<-|[<-|[]]]]]; reflexivity. }
    rewrite Hok, (upload_status_is_non_retryable _ Hin). cbn. auto.
Qed.

(** X3: [uploadVideo] and [submitSessionSummary] never make up a result.
    A value they return was sent by the backend in the answer to the last
    request of the call: that answer is the last event the call waited
    for (it came no earlier than the call began, and the call returns
    right after it, its trace ending with that request), it is a 2xx
    answer and its body decoded.  For the upload the body passed
    [parseApiResponse] with [validateAnalysisResult], and the result is
    the validated payload, field by field, with its key points
    normalised; for the summary the body is a non-null object and is
    returned as it is. *)
Theorem returned_results_come_from_backend (w : World) :
  (forall videoPath ty result,
     let w' := fst (uploadVideo P E videoPath ty w) in
     snd (uploadVideo P E videoPath ty w) = Return result ->
     exists wk xhr raw parsed,
       notBefore w wk /\
       awaits w' = S (awaits wk) /\
       trace w' = trace wk ++ [NetCall "POST" (baseUrlString wk ++ "/api/analyze-video")] /\
       transport (awaitEvent E (awaits wk)) = Responded xhr /\
       (200 <= status xhr < 300)%Z /\
       body xhr = inl raw /\
       parseApiResponse P raw (validateAnalysisResult P) "Video Upload" = Return parsed /\
       result = {|
         AnalysisResult.sessionId := AnalysisResult.sessionId parsed;
         AnalysisResult.exerciseType := AnalysisResult.exerciseType parsed;
         AnalysisResult.totalReps := AnalysisResult.totalReps parsed;
         AnalysisResult.accuracy := AnalysisResult.accuracy parsed;
         AnalysisResult.formFeedback := AnalysisResult.formFeedback parsed;
         AnalysisResult.keypoints := transformKeypoints (AnalysisResult.keypoints parsed);
         AnalysisResult.duration := AnalysisResult.duration parsed;
         AnalysisResult.calories := AnalysisResult.calories parsed;
         AnalysisResult.recommendations := AnalysisResult.recommendations parsed;
         AnalysisResult.timestamp := AnalysisResult.timestamp parsed |}) /\
  (forall sessionData v,
     let w' := fst (submitSessionSummary P E sessionData w) in
     snd (submitSessionSummary P E sessionData w) = Return v ->
     exists wk response,
       notBefore w wk /\
       awaits w' = S (awaits wk) /\
       trace w' = trace wk ++ [NetCall "POST" (baseUrlString wk ++ "/api/session-summary")] /\
       transport (awaitEvent E (awaits wk)) = Responded response /\
       ok response = true /\
       body response = inl v /\
       Js.truthy v = true /\ Js.isObjectType v = true).
Proof.
  split.
  - intros videoPath ty result. cbn zeta. unfold uploadVideo.
    destruct (negb (hasBaseUrl w)); [discriminate|].
    destruct (negb (connected w)); [destruct (queueRequest _ _ _ _); discriminate|].
    destruct (executeWithRetry _ _ _ _ _ _) as [w' r] eqn:Hexec. cbn [fst snd].
    intros ->.
    apply (retryLoop_return_from notBefore _ _ notBefore_preserved
             (steps_uploadVideoRequest P E notBefore notBefore_preserved videoPath ty))
      in Hexec as (wk & Hk & _ & Hf).
    exists wk. revert Hf. unfold uploadVideoRequest, await, emit. cbn [awaits].
    destruct (transport (awaitEvent E (awaits wk))) as [xhr| |] eqn:Ht;
      [|discriminate..].
    destruct ((status xhr >=? 200)%Z && (status xhr <? 300)%Z)%bool eqn:Hok;
      [|discriminate].
    destruct (body xhr) as [raw|msg] eqn:Hbody; [|discriminate].
    destruct (parseApiResponse P raw (validateAnalysisResult P) "Video Upload")
      as [parsed|[m|]] eqn:Hp; [|discriminate..].
    intros Hf. inversion Hf; subst. exists xhr, raw, parsed.
    apply andb_true_iff in Hok as [H1 H2].
    repeat split; try assumption; try reflexivity; lia.
  - intros sessionData v. cbn zeta. unfold submitSessionSummary.
    destruct (negb (hasBaseUrl w)); [discriminate|].
    destruct (negb (connected w)); [destruct (queueRequest _ _ _ _); discriminate|].
    destruct (executeWithRetry _ _ _ _ _ _) as [w' r] eqn:Hexec. cbn [fst snd].
    intros ->.
    apply (retryLoop_return_from notBefore _ _ notBefore_preserved
             (steps_submitSessionSummaryRequest P E notBefore notBefore_preserved
                sessionData))
      in Hexec as (wk & Hk & _ & Hf).
    exists wk. revert Hf. unfold submitSessionSummaryRequest, fetch, await, emit.
    cbn [awaits].
    destruct (transport (awaitEvent E (awaits wk))) as [response| |] eqn:Ht;
      [|discriminate..].
    destruct (ok response) eqn:Hok; cbn [negb]; [|discriminate].
    unfold json. destruct (body response) as [raw|msg] eqn:Hbody; [|discriminate].
    destruct (Js.truthy raw) eqn:Htr; cbn [negb orb]; [|discriminate].
    destruct (Js.isObjectType raw) eqn:Hobj; cbn [negb]; [|discriminate].
    intros Hf. inversion Hf; subst. exists response. cbn [awaits trace]. auto 10.
Qed.

End Surfacing.

Lemma client_errors_surface_without_retry_witness :
  let E := constantEnv (respond 413) 0 in
  let w := startWorld initializedService 0 in
  let out := uploadVideo samplePlatform E "clip.mp4" "squat" w in
  snd out = Throw (Err "Upload failed with status 413") /\
  netCallsIn (trace (fst out)) = 1%nat.
Proof.
  cbn zeta.
  destruct (proj2 (client_errors_surface_without_retry samplePlatform
                     (constantEnv (respond 413) 0) (startWorld initializedService 0)
                     {| status := 413; statusText := ""; body := inl JNull |}
                     eq_refl eq_refl ltac:(vm_compute; discriminate) eq_refl
                     ltac:(cbn; auto)) "clip.mp4"%string "squat"%string) as [H1 H2].
  split; [exact H1|]. rewrite H2. reflexivity.
Defined.

Lemma returned_results_come_from_backend_witness :
  let E := constantEnv (Responded {| status := 201; statusText := "Created";
                                     body := inl (JObj [("sessionId", JStr "s-1")]) |}) 0 in
  let w := startWorld initializedService 0 in
  let w' := fst (submitSessionSummary samplePlatform E sampleSession w) in
  exists wk response,
    notBefore w wk /\
    awaits w' = S (awaits wk) /\
    trace w' = trace wk ++ [NetCall "POST" (baseUrlString wk ++ "/api/session-summary")] /\
    transport (awaitEvent E (awaits wk)) = Responded response /\
    ok response = true /\
    body response = inl (JObj [("sessionId", JStr "s-1")]) /\
    Js.truthy (JObj [("sessionId", JStr "s-1")]) = true /\
    Js.isObjectType (JObj [("sessionId", JStr "s-1")]) = true.
Proof.
  cbn zeta.
  refine (proj2 (returned_results_come_from_backend samplePlatform _ _) sampleSession _ _).
  vm_compute. reflexivity.
Defined.

(** ** The retry ceiling bounds the traffic *)

Section Traffic.

Variable P : Platform.
Variable E : Env.

Lemma retryLoop_calls_bound {T} (f : World -> World * Result T) (n : Z) :
  (forall w, oneCall w (fst (f w))) ->
  forall remaining attempt lastError w,
    (netCallsIn (trace (fst (retryLoop P E f n remaining attempt lastError w)))
     <= netCallsIn (trace w) + remaining)%nat.
Proof.
  intros Hf. induction remaining as [|r IH]; intros attempt lastError w.
  - cbn. lia.
  - rewrite retryLoop_S.
    assert (H1 : (netCallsIn (trace (fst (tryRequest f w)))
                  <= S (netCallsIn (trace w)))%nat).
    { unfold tryRequest. destruct (negb (connected w)); cbn [fst]; [lia|].
      rewrite (Hf w). lia. }
    destruct (tryRequest f w) as [w1 [v|[msg|]]]; cbn [fst] in *; try lia.
    destruct (isNonRetryableError msg); cbn [fst]; [lia|].
    destruct (attempt >=? n)%Z; cbn [fst]; [lia|].
    specialize (IH (attempt + 1)%Z (Err msg)
                  (sleep E (fst (calculateRetryDelay P E attempt w1))
                         (snd (calculateRetryDelay P E attempt w1)))).
    assert (Hs : netCallsIn (trace (sleep E (fst (calculateRetryDelay P E attempt w1))
                                         (snd (calculateRetryDelay P E attempt w1))))
                 = netCallsIn (trace w1)).
    { unfold sleep, await, emit, calculateRetryDelay, Math_random. cbn [fst snd trace].
      rewrite netCallsIn_app. cbn. lia. }
    lia.
Qed.

Lemma executeWithRetry_traffic {T} (f : World -> World * Result T) ty n w :
  (forall w, oneCall w (fst (f w))) ->
  (forall w, retriesIn (trace (fst (f w))) = retriesIn (trace w)) ->
  (netCallsIn (trace (fst (executeWithRetry P E f ty n w)))
   <= netCallsIn (trace w) + Z.to_nat (n + 1))%nat /\
  (retriesIn (trace (fst (executeWithRetry P E f ty n w)))
   <= retriesIn (trace w) + Z.to_nat n)%nat.
Proof.
  intros Hc Hs. unfold executeWithRetry. split.
  - apply retryLoop_calls_bound, Hc.
  - pose proof (retryLoop_retries_bound P E f n Hs (Z.to_nat (n + 1)) 0%Z
                  ThrownUndefined w ltac:(lia)) as H.
    lia.
Qed.

(** X4: the retry ceiling bounds what one call costs: with
    [n = retryConfig.maxRetries] at the time of the call, [uploadVideo],
    [getExerciseConfig] and [submitSessionSummary] each send at most
    [n + 1] requests and wait at most [n] backoff delays (none at all when
    [n] is negative); [analyzeFrame] sends at most two requests and waits
    at most once, whatever the configuration. *)
Theorem operations_respect_retry_ceiling (w : World) :
  let n := defaultMaxRetries w in
  let within (budget : Z) (w' : World) :=
    (netCallsIn (trace w') <= netCallsIn (trace w) + Z.to_nat (budget + 1))%nat /\
    (retriesIn (trace w') <= retriesIn (trace w) + Z.to_nat budget)%nat in
  (forall videoPath ty, within n (fst (uploadVideo P E videoPath ty w))) /\
  (forall ty, within n (fst (getExerciseConfig P E ty w))) /\
  (forall sessionData, within n (fst (submitSessionSummary P E sessionData w))) /\
  (forall frameData ty, within 1%Z (fst (analyzeFrame P E frameData ty w))).
Proof.
  intros n within. subst within. cbn beta.
  assert (Hq : forall d w0, trace w0 = trace w ->
            trace (snd (queueRequest P E d w0))
            = trace w ++ [Enqueued (fst (queueRequest P E d w0))]).
  { intros d w0 H0. unfold queueRequest, Math_random, emit, with_this.
    cbn [fst snd trace]. rewrite H0. reflexivity. }
  assert (Hqueued : forall d w0, trace w0 = trace w ->
            netCallsIn (trace (snd (queueRequest P E d w0))) = netCallsIn (trace w) /\
            retriesIn (trace (snd (queueRequest P E d w0))) = retriesIn (trace w)).
  { intros d w0 H0. rewrite (Hq d w0 H0), netCallsIn_app, retriesIn_app. cbn. lia. }
  repeat split.
  - unfold uploadVideo. destruct (negb (hasBaseUrl w)); cbn [fst]; [lia|].
    destruct (negb (connected w)).
    + destruct (Hqueued (VideoData videoPath ty) w eq_refl) as [H _].
      destruct (queueRequest _ _ _ _). cbn [fst snd] in *. lia.
    + apply executeWithRetry_traffic; [apply uploadVideoRequest_oneCall|].
      intros w0. apply evolves_without_sleep, evolves_uploadVideoRequest. reflexivity.
  - unfold uploadVideo. destruct (negb (hasBaseUrl w)); cbn [fst]; [lia|].
    destruct (negb (connected w)).
    + destruct (Hqueued (VideoData videoPath ty) w eq_refl) as [_ H].
      destruct (queueRequest _ _ _ _). cbn [fst snd] in *. lia.
    + apply executeWithRetry_traffic; [apply uploadVideoRequest_oneCall|].
      intros w0. apply evolves_without_sleep, evolves_uploadVideoRequest. reflexivity.
  - unfold getExerciseConfig. destruct (negb (hasBaseUrl w)); cbn [fst]; [lia|].
    destruct (getCachedConfig_keeps ty w) as (_ & Ht & _).
    assert (Hn : defaultMaxRetries (snd (getCachedConfig ty w)) = n).
    { unfold getCachedConfig. destruct (configCache (this w) !! ty) as [c|]; [|reflexivity].
      destruct (now w >? CacheEntry.expiresAt c)%Z; reflexivity. }
    destruct (getCachedConfig ty w) as [[cfg|] w0]; cbn [fst snd] in *;
      [rewrite Ht; lia|].
    destruct (negb (connected w0)).
    + destruct (Hqueued (ConfigData ty) w0 Ht) as [H _].
      destruct (queueRequest _ _ _ _). cbn [fst snd] in *. lia.
    + rewrite Hn, <- Ht.
      apply executeWithRetry_traffic; [apply getExerciseConfigRequest_oneCall|].
      intros w1. apply evolves_without_sleep, evolves_getExerciseConfigRequest. reflexivity.
  - unfold getExerciseConfig. destruct (negb (hasBaseUrl w)); cbn [fst]; [lia|].
    destruct (getCachedConfig_keeps ty w) as (_ & Ht & _).
    assert (Hn : defaultMaxRetries (snd (getCachedConfig ty w)) = n).
    { unfold getCachedConfig. destruct (configCache (this w) !! ty) as [c|]; [|reflexivity].
      destruct (now w >? CacheEntry.expiresAt c)%Z; reflexivity. }
    destruct (getCachedConfig ty w) as [[cfg|] w0]; cbn [fst snd] in *;
      [rewrite Ht; lia|].
    destruct (negb (connected w0)).
    + destruct (Hqueued (ConfigData ty) w0 Ht) as [_ H].
      destruct (queueRequest _ _ _ _). cbn [fst snd] in *. lia.
    + rewrite Hn, <- Ht.
      apply executeWithRetry_traffic; [apply getExerciseConfigRequest_oneCall|].
      intros w1. apply evolves_without_sleep, evolves_getExerciseConfigRequest. reflexivity.
  - unfold submitSessionSummary. destruct (negb (hasBaseUrl w)); cbn [fst]; [lia|].
    destruct (negb (connected w)).
    + destruct (Hqueued (SummaryData sessionData) w eq_refl) as [H _].
      destruct (queueRequest _ _ _ _). cbn [fst snd] in *. lia.
    + apply executeWithRetry_traffic; [apply submitSessionSummaryRequest_oneCall|].
      intros w0. apply evolves_without_sleep, evolves_submitSessionSummaryRequest.
      reflexivity.
  - unfold submitSessionSummary. destruct (negb (hasBaseUrl w)); cbn [fst]; [lia|].
    destruct (negb (connected w)).
    + destruct (Hqueued (SummaryData sessionData) w eq_refl) as [_ H].
      destruct (queueRequest _ _ _ _). cbn [fst snd] in *. lia.
    + apply executeWithRetry_traffic; [apply submitSessionSummaryRequest_oneCall|].
      intros w0. apply evolves_without_sleep, evolves_submitSessionSummaryRequest.
      reflexivity.
  - unfold analyzeFrame. destruct (negb (hasBaseUrl w)); cbn [fst]; [lia|].
    destruct (negb (connected w)); cbn [fst]; [lia|].
    apply executeWithRetry_traffic; [apply analyzeFrameRequest_oneCall|].
    apply analyzeFrameRequest_no_sleep.
  - unfold analyzeFrame. destruct (negb (hasBaseUrl w)); cbn [fst]; [lia|].
    destruct (negb (connected w)); cbn [fst]; [lia|].
    apply executeWithRetry_traffic; [apply analyzeFrameRequest_oneCall|].
    apply analyzeFrameRequest_no_sleep.
Qed.

End Traffic.

(** ** Bookkeeping of the offline queue *)

Section QueueBookkeeping.

Variable P : Platform.
Variable E : Env.

Lemma queueGrows_refl w : queueGrows w w.
Proof.
  repeat split. exists []. rewrite app_nil_r. split; [reflexivity|constructor].
Qed.

Lemma queueGrows_same w w' :
  retryConfig (this w') = retryConfig (this w) ->
  isProcessingQueue (this w') = isProcessingQueue (this w) ->
  baseUrl (this w') = baseUrl (this w) ->
  requestQueue (this w') = requestQueue (this w) ->
  queueGrows w w'.
Proof.
  intros H1 H2 H3 H4. repeat split; try assumption.
  exists []. rewrite app_nil_r. split; [exact H4|constructor].
Qed.

Lemma queueGrows_preserved : Preserved P E queueGrows.
Proof.
  split.
  - apply queueGrows_refl.
  - intros w1 w2 w3 (Ha1 & Hb1 & Hc1 & l1 & Hq1 & Hf1) (Ha2 & Hb2 & Hc2 & l2 & Hq2 & Hf2).
    repeat split; try congruence.
    exists (l1 ++ l2). rewrite Hq2, Hq1, <- app_assoc. split; [reflexivity|].
    apply Forall_app; split; assumption.
  - intros. apply queueGrows_same; reflexivity.
  - intros. apply queueGrows_same; reflexivity.
  - intros w. unfold await. cbn [fst].
    destruct (notifications_keep (notifications (awaitEvent E (awaits w))) (this w))
      as (H1 & H2 & H3 & H4 & _).
    apply queueGrows_same; assumption.
  - intros. apply queueGrows_same; reflexivity.
  - intros ty w. unfold getCachedConfig.
    destruct (configCache (this w) !! ty) as [c|]; [|apply queueGrows_refl].
    destruct (now w >? CacheEntry.expiresAt c)%Z; cbn [snd];
      [apply queueGrows_same; reflexivity|apply queueGrows_refl].
  - intros. apply queueGrows_same; reflexivity.
  - intros d w. unfold queueRequest, Math_random, emit, with_this. cbn [fst snd].
    repeat split. eexists. split; [reflexivity|].
    constructor; [reflexivity|constructor].
Qed.

(** What the queue may hold after a drain that started from the
    snapshot [snapshot] under the retry ceiling [n]. *)
Lemma replayOne_queue request w :
  let w' := replayOne P E request w in
  retryConfig (this w') = retryConfig (this w) /\
  isProcessingQueue (this w') = isProcessingQueue (this w) /\
  baseUrl (this w') = baseUrl (this w) /\
  exists added,
    requestQueue (this w') = requestQueue (this w) ++ added /\
    Forall (fun r' => QueuedRequest.retryCount r' = 0%Z \/
                      (r' = retried request /\
                       (QueuedRequest.retryCount request < defaultMaxRetries w)%Z))
           added.
Proof.
  cbn zeta. unfold replayOne.
  pose proof (steps_processQueuedRequest P E queueGrows queueGrows_preserved request
                (emit (ReplayStart (QueuedRequest.id request)) w)) as H.
  destruct (processQueuedRequest P E request _) as [w1 r]. cbn [fst] in H.
  destruct H as (Ha & Hb & Hc & added & Hq & Hf).
  unfold emit in Ha, Hb, Hc, Hq. cbn [this] in Ha, Hb, Hc, Hq.
  assert (Hfresh : Forall (fun r' => QueuedRequest.retryCount r' = 0%Z \/
                      (r' = retried request /\
                       (QueuedRequest.retryCount request < defaultMaxRetries w)%Z)) added).
  { eapply Forall_impl; [exact Hf|]. intros a Ha0. left. exact Ha0. }
  destruct r as [v|e].
  - repeat split; try assumption. exists added. split; assumption.
  - destruct (QueuedRequest.retryCount request <? defaultMaxRetries w1)%Z eqn:Hlt.
    + unfold with_this. cbn [this requestQueue set_requestQueue retryConfig
                                 isProcessingQueue baseUrl].
      repeat split; try assumption.
      exists (added ++ [retried request]). rewrite Hq, <- app_assoc. split; [reflexivity|].
      apply Forall_app. split; [exact Hfresh|].
      constructor; [|constructor]. right. split; [reflexivity|].
      unfold defaultMaxRetries in *. rewrite Ha in Hlt. cbn in Hlt. lia.
    + repeat split; try assumption. exists added. split; assumption.
Qed.

Lemma replayAll_queue requests :
  forall w,
    let w' := replayAll P E requests w in
    retryConfig (this w') = retryConfig (this w) /\
    isProcessingQueue (this w') = isProcessingQueue (this w) /\
    baseUrl (this w') = baseUrl (this w) /\
    exists added,
      requestQueue (this w') = requestQueue (this w) ++ added /\
      Forall (fun r' => QueuedRequest.retryCount r' = 0%Z \/
                        exists r, In r requests /\ r' = retried r /\
                                  (QueuedRequest.retryCount r < defaultMaxRetries w)%Z)
             added.
Proof.
  induction requests as [|request others IH]; intros w; cbn [replayAll].
  - repeat split. exists []. rewrite app_nil_r. split; [reflexivity|constructor].
  - destruct (replayOne_queue request w) as (Ha & Hb & Hc & l1 & Hq1 & Hf1).
    destruct (IH (replayOne P E request w)) as (Ha2 & Hb2 & Hc2 & l2 & Hq2 & Hf2).
    cbn zeta in *. repeat split; try congruence.
    exists (l1 ++ l2). rewrite Hq2, Hq1, <- app_assoc. split; [reflexivity|].
    apply Forall_app. split.
    + eapply Forall_impl; [exact Hf1|]. intros a [H0|[-> Hlt]]; [left; exact H0|].
      right. exists request. split; [left; reflexivity|]. split; [reflexivity|exact Hlt].
    + eapply Forall_impl; [exact Hf2|]. intros a [H0|(r & Hin & -> & Hlt)];
        [left; exact H0|].
      right. exists r. split; [right; exact Hin|]. split; [reflexivity|].
      unfold defaultMaxRetries in *. rewrite Ha in Hlt. exact Hlt.
Qed.

(** X5: after a run of [processRequestQueue] the queue holds nothing but
    requests that were just enqueued (retry count 0) and requests of the
    drained queue whose replay failed, with their retry count raised by
    one, which was below [maxRetries] before.  So, for a ceiling that is
    not negative, no queued request ever carries a retry count above
    [maxRetries]: a request is replayed [maxRetries + 1] times at most and
    then dropped.  The retry configuration is not touched. *)
Theorem drain_requeues_within_retry_budget (w : World) :
  isProcessingQueue (this w) = false ->
  let w' := processRequestQueue P E w in
  retryConfig (this w') = retryConfig (this w) /\
  Forall (fun r' => QueuedRequest.retryCount r' = 0%Z \/
                    exists r, In r (requestQueue (this w)) /\ r' = retried r /\
                              (QueuedRequest.retryCount r < defaultMaxRetries w)%Z)
         (requestQueue (this w')) /\
  ((0 <= defaultMaxRetries w)%Z ->
   Forall (fun r' => (QueuedRequest.retryCount r' <= defaultMaxRetries w)%Z)
          (requestQueue (this w'))).
Proof.
  intros Hp w'.
  assert (H : retryConfig (this w') = retryConfig (this w) /\
              Forall (fun r' => QueuedRequest.retryCount r' = 0%Z \/
                    exists r, In r (requestQueue (this w)) /\ r' = retried r /\
                              (QueuedRequest.retryCount r < defaultMaxRetries w)%Z)
                     (requestQueue (this w'))).
  { subst w'. unfold processRequestQueue. rewrite Hp. cbn [orb].
    destruct (requestQueue (this w)) as [|request others] eqn:Hq.
    - cbn. rewrite ?Hq. split; [reflexivity|constructor].
    - cbn [length Nat.eqb].
      set (w2 := with_this (set_requestQueue [])
                   (with_this (set_isProcessingQueue true) w)).
      replace (requestQueue (this (with_this (set_isProcessingQueue true) w)))
        with (request :: others) by (symmetry; exact Hq).
      destruct (replayAll_queue (request :: others) w2)
        as (Ha & _ & _ & added & Hqa & Hf).
      cbn zeta in *. change (requestQueue (this w2)) with (@nil QueuedRequest.t) in Hqa.
      cbn [app] in Hqa.
      assert (Hres : forall w4,
                retryConfig (this w4) = retryConfig (this (replayAll P E (request :: others) w2)) ->
                requestQueue (this w4)
                = requestQueue (this (replayAll P E (request :: others) w2)) ->
                retryConfig (this w4) = retryConfig (this w) /\
                Forall (fun r' => QueuedRequest.retryCount r' = 0%Z \/
                    exists r, In r (request :: others) /\ r' = retried r /\
                              (QueuedRequest.retryCount r < defaultMaxRetries w)%Z)
                  (requestQueue (this w4))).
      { intros w4 H1 H2. rewrite H1, H2, Ha, Hqa. split; [reflexivity|exact Hf]. }
      match goal with |- context [if ?c then emit ?e ?w4 else ?w4] =>
        destruct c; apply Hres; reflexivity end. }
  destruct H as [Hcfg Hall]. split; [exact Hcfg|]. split; [exact Hall|].
  intros Hn. eapply Forall_impl; [exact Hall|].
  intros a [H0|(r & _ & -> & Hlt)]; [lia|]. cbn. lia.
Qed.

End QueueBookkeeping.

Lemma drain_requeues_within_retry_budget_witness :
  let E := constantEnv (respond 503) 0 in
  let w := queueRequests samplePlatform E
             [VideoData "clip.mp4" "squat"; SummaryData sampleSession]
             (startWorld (offline initializedService) 0) in
  Forall (fun r' => (QueuedRequest.retryCount r' <= defaultMaxRetries w)%Z)
         (requestQueue (this (processRequestQueue samplePlatform E w))) /\
  defaultMaxRetries w = 3%Z.
Proof.
  cbn zeta. split; [|reflexivity].
  refine (proj2 (proj2 (drain_requeues_within_retry_budget samplePlatform
            (constantEnv (respond 503) 0)
            (queueRequests samplePlatform (constantEnv (respond 503) 0)
               [VideoData "clip.mp4" "squat"; SummaryData sampleSession]
               (startWorld (offline initializedService) 0)) _)) _).
  - reflexivity.
  - vm_compute. discriminate.
Defined.

Section DrainOutcome.

Variable P : Platform.
Variable E : Env.

Lemma drainsScheduled_app (a b : list Event) :
  drainsScheduled (a ++ b) = (drainsScheduled a + drainsScheduled b)%nat.
Proof. unfold drainsScheduled. rewrite List.filter_app, length_app. reflexivity. Qed.

Lemma evolves_without_schedule w w' :
  evolves (fun e => negb (isDrainScheduled e)) w w' ->
  drainsScheduled (trace w') = drainsScheduled (trace w).
Proof.
  intros [_ (evs & Ht & Hall)]. rewrite Ht, drainsScheduled_app.
  assert (H0 : drainsScheduled evs = 0%nat).
  { clear Ht. unfold drainsScheduled. induction evs as [|e evs IH]; [reflexivity|].
    cbn [forallb] in Hall. apply andb_true_iff in Hall as [He Hall].
    cbn [List.filter]. destruct (isDrainScheduled e); [discriminate|]. apply IH, Hall. }
  lia.
Qed.

Lemma replayOne_schedules_nothing request w :
  drainsScheduled (trace (replayOne P E request w)) = drainsScheduled (trace w).
Proof.
  unfold replayOne.
  pose proof (evolves_processQueuedRequest P E (fun e => negb (isDrainScheduled e))
                ltac:(reflexivity) ltac:(reflexivity) ltac:(reflexivity)
                request (emit (ReplayStart (QueuedRequest.id request)) w)) as H.
  apply evolves_without_schedule in H.
  destruct (processQueuedRequest P E request _) as [w1 r]. cbn [fst] in H.
  assert (H1 : drainsScheduled (trace w1) = drainsScheduled (trace w)).
  { rewrite H. unfold emit. cbn [trace]. rewrite drainsScheduled_app. cbn. lia. }
  destruct r; [exact H1|].
  destruct (_ <? _)%Z; exact H1.
Qed.

Lemma replayAll_schedules_nothing requests :
  forall w, drainsScheduled (trace (replayAll P E requests w)) = drainsScheduled (trace w).
Proof.
  induction requests as [|request others IH]; intros w; cbn [replayAll]; [reflexivity|].
  rewrite IH. apply replayOne_schedules_nothing.
Qed.

(** X6: a run of [processRequestQueue] that finds the flag down ends with
    the flag down again, whatever its replays did, and schedules the next
    run exactly when it leaves requests in the queue: one [setTimeout] if
    the queue is not empty at the end, none if it is. *)
Theorem drain_reschedules_when_work_remains (w : World) :
  isProcessingQueue (this w) = false ->
  let w' := processRequestQueue P E w in
  isProcessingQueue (this w') = false /\
  drainsScheduled (trace w')
  = (drainsScheduled (trace w)
     + match requestQueue (this w') with [] => 0 | _ :: _ => 1 end)%nat.
Proof.
  intros Hp w'. subst w'. unfold processRequestQueue. rewrite Hp. cbn [orb].
  destruct (requestQueue (this w)) as [|request others] eqn:Hq.
  - cbn [length Nat.eqb]. rewrite Hp, Hq. split; [reflexivity|lia].
  - cbn [length Nat.eqb].
    set (w3 := replayAll P E _ _).
    assert (H3 : drainsScheduled (trace w3) = drainsScheduled (trace w)).
    { subst w3. rewrite replayAll_schedules_nothing. reflexivity. }
    set (w4 := with_this (set_isProcessingQueue false) w3).
    assert (Hq4 : requestQueue (this w4) = requestQueue (this w3)) by reflexivity.
    assert (Ht4 : trace w4 = trace w3) by reflexivity.
    assert (Hp4 : isProcessingQueue (this w4) = false) by reflexivity.
    destruct (requestQueue (this w4)) as [|r4 q4] eqn:Hq4'.
    + cbn [length Nat.ltb Nat.leb]. rewrite Hq4', Ht4, H3. split; [exact Hp4|lia].
    + cbn [length]. change (0 <? S (length q4))%nat with true. cbn iota.
      unfold emit. cbn [this trace]. rewrite Hq4', Ht4, drainsScheduled_app, H3.
      split; [exact Hp4|]. cbn. lia.
Qed.

Lemma replayOne_offline request w :
  hasBaseUrl w = true ->
  connected w = false ->
  isVideoOrSummary (QueuedRequest.data request) = true ->
  (QueuedRequest.retryCount request < defaultMaxRetries w)%Z ->
  let w' := replayOne P E request w in
  hasBaseUrl w' = true /\ connected w' = false /\
  defaultMaxRetries w' = defaultMaxRetries w /\
  netCallsIn (trace w') = netCallsIn (trace w) /\
  awaits w' = awaits w /\
  exists fresh,
    QueuedRequest.data fresh = QueuedRequest.data request /\
    QueuedRequest.retryCount fresh = 0%Z /\
    requestQueue (this w') = requestQueue (this w) ++ [fresh; retried request].
Proof.
  intros Hb Hc Hk Hlt. cbn zeta. unfold replayOne, processQueuedRequest.
  set (w0 := emit (ReplayStart (QueuedRequest.id request)) w).
  assert (Hb0 : hasBaseUrl w0 = true) by exact Hb.
  assert (Hc0 : connected w0 = false) by exact Hc.
  destruct (QueuedRequest.data request) as [vp ty|fd ty|ty|sd] eqn:Hd; try discriminate.
  - unfold uploadVideo. rewrite Hb0, Hc0. cbn [negb].
    unfold queueRequest, Math_random, emit, with_this, queuedError, discard.
    cbn [fst snd].
    match goal with |- context [if ?c then _ else _] =>
      replace c with true by (symmetry; apply Z.ltb_lt; exact Hlt) end.
    cbn [this requestQueue set_requestQueue trace awaits].
    repeat split; try assumption.
    + subst w0. unfold emit. cbn [trace]. rewrite !netCallsIn_app. cbn. lia.
    + eexists. split; [|split]; [| |rewrite <- app_assoc; reflexivity]; reflexivity.
  - unfold submitSessionSummary. rewrite Hb0, Hc0. cbn [negb].
    unfold queueRequest, Math_random, emit, with_this, queuedError, discard.
    cbn [fst snd].
    match goal with |- context [if ?c then _ else _] =>
      replace c with true by (symmetry; apply Z.ltb_lt; exact Hlt) end.
    cbn [this requestQueue set_requestQueue trace awaits].
    repeat split; try assumption.
    + subst w0. unfold emit. cbn [trace]. rewrite !netCallsIn_app. cbn. lia.
    + eexists. split; [|split]; [| |rewrite <- app_assoc; reflexivity]; reflexivity.
Qed.

Lemma replayAll_offline requests :
  forall w,
    hasBaseUrl w = true ->
    connected w = false ->
    Forall (fun r => isVideoOrSummary (QueuedRequest.data r) = true /\
                     (QueuedRequest.retryCount r < defaultMaxRetries w)%Z) requests ->
    let w' := replayAll P E requests w in
    netCallsIn (trace w') = netCallsIn (trace w) /\
    awaits w' = awaits w /\
    exists added,
      requestQueue (this w') = requestQueue (this w) ++ added /\
      map QueuedRequest.data added
      = flat_map (fun r => [QueuedRequest.data r; QueuedRequest.data r]) requests /\
      map QueuedRequest.retryCount added
      = flat_map (fun r => [0%Z; (QueuedRequest.retryCount r + 1)%Z]) requests.
Proof.
  induction requests as [|request others IH]; intros w Hb Hc Hall; cbn [replayAll].
  - cbn zeta. repeat split. exists []. rewrite app_nil_r. auto.
  - inversion Hall as [|? ? [Hk Hlt] Hrest]; subst.
    destruct (replayOne_offline request w Hb Hc Hk Hlt)
      as (Hb1 & Hc1 & Hn1 & Hnet1 & Haw1 & fresh & Hfd & Hfr & Hq1).
    cbn zeta in *.
    destruct (IH (replayOne P E request w) Hb1 Hc1) as (Hnet & Haw & added & Hq & Hd & Hr).
    { rewrite Hn1. exact Hrest. }
    split; [congruence|]. split; [congruence|].
    exists ([fresh; retried request] ++ added).
    rewrite Hq, Hq1, <- app_assoc. split; [reflexivity|].
    rewrite !map_app. cbn [map flat_map app retried QueuedRequest.data
                           QueuedRequest.retryCount].
    rewrite Hd, Hr, Hfd, Hfr. auto.
Qed.

(** X7: a run of [processRequestQueue] on an initialized service that
    is disconnected sends nothing and never suspends, and every video or
    summary request it replays (with retries left) comes back twice: the
    replay enqueues a fresh copy (retry count 0) before the failed request
    itself is re-appended with its retry count raised.  The queue of [n]
    such requests holds [2 n] afterwards. *)
Theorem offline_drain_doubles_the_queue (w : World) :
  hasBaseUrl w = true ->
  connected w = false ->
  isProcessingQueue (this w) = false ->
  Forall (fun r => isVideoOrSummary (QueuedRequest.data r) = true /\
                   (QueuedRequest.retryCount r < defaultMaxRetries w)%Z)
         (requestQueue (this w)) ->
  let w' := processRequestQueue P E w in
  netCallsIn (trace w') = netCallsIn (trace w) /\
  awaits w' = awaits w /\
  map QueuedRequest.data (requestQueue (this w'))
  = flat_map (fun r => [QueuedRequest.data r; QueuedRequest.data r])
             (requestQueue (this w)) /\
  map QueuedRequest.retryCount (requestQueue (this w'))
  = flat_map (fun r => [0%Z; (QueuedRequest.retryCount r + 1)%Z])
             (requestQueue (this w)) /\
  length (requestQueue (this w')) = (2 * length (requestQueue (this w)))%nat.
Proof.
  intros Hb Hc Hp Hall w'.
  assert (H : netCallsIn (trace w') = netCallsIn (trace w) /\
              awaits w' = awaits w /\
              map QueuedRequest.data (requestQueue (this w'))
              = flat_map (fun r => [QueuedRequest.data r; QueuedRequest.data r])
                         (requestQueue (this w)) /\
              map QueuedRequest.retryCount (requestQueue (this w'))
              = flat_map (fun r => [0%Z; (QueuedRequest.retryCount r + 1)%Z])
                         (requestQueue (this w))).
  { subst w'. unfold processRequestQueue. rewrite Hp. cbn [orb].
    destruct (requestQueue (this w)) as [|request others] eqn:Hq.
    - cbn. rewrite Hq. auto.
    - cbn [length Nat.eqb].
      set (w2 := with_this (set_requestQueue [])
                   (with_this (set_isProcessingQueue true) w)).
      replace (requestQueue (this (with_this (set_isProcessingQueue true) w)))
        with (request :: others) by (symmetry; exact Hq).
      destruct (replayAll_offline (request :: others) w2 Hb Hc Hall)
        as (Hnet & Haw & added & Hqa & Hd & Hr).
      cbn zeta in *. change (requestQueue (this w2)) with (@nil QueuedRequest.t) in Hqa.
      cbn [app] in Hqa.
      assert (Hres : forall w4,
                netCallsIn (trace w4)
                = netCallsIn (trace (replayAll P E (request :: others) w2)) ->
                awaits w4 = awaits (replayAll P E (request :: others) w2) ->
                requestQueue (this w4)
                = requestQueue (this (replayAll P E (request :: others) w2)) ->
                netCallsIn (trace w4) = netCallsIn (trace w) /\
                awaits w4 = awaits w /\
                map QueuedRequest.data (requestQueue (this w4))
                = flat_map (fun r => [QueuedRequest.data r; QueuedRequest.data r])
                           (request :: others) /\
                map QueuedRequest.retryCount (requestQueue (this w4))
                = flat_map (fun r => [0%Z; (QueuedRequest.retryCount r + 1)%Z])
                           (request :: others)).
      { intros w4 H1 H2 H3. rewrite H1, H2, H3, Hnet, Haw, Hqa. auto. }
      match goal with |- context [if ?c then emit ?e ?w4 else ?w4] =>
        destruct c; apply Hres; try reflexivity end.
      unfold emit, with_this. cbn [trace]. rewrite netCallsIn_app. cbn. lia. }
  destruct H as (H1 & H2 & H3 & H4). repeat split; try assumption.
  rewrite <- (length_map QueuedRequest.data), H3.
  clear. induction (requestQueue (this w)) as [|r l IH]; [reflexivity|].
  cbn [flat_map app length]. rewrite IH. lia.
Qed.

End DrainOutcome.

Lemma drain_reschedules_when_work_remains_witness :
  let E := constantEnv (respond 503) 0 in
  let w := queueRequests samplePlatform E [SummaryData sampleSession]
             (startWorld (offline initializedService) 0) in
  isProcessingQueue (this (processRequestQueue samplePlatform E w)) = false /\
  drainsScheduled (trace (processRequestQueue samplePlatform E w)) = 1%nat.
Proof.
  cbn zeta.
  destruct (drain_reschedules_when_work_remains samplePlatform (constantEnv (respond 503) 0)
              (queueRequests samplePlatform (constantEnv (respond 503) 0)
                 [SummaryData sampleSession] (startWorld (offline initializedService) 0))
              eq_refl) as [H1 H2].
  split; [exact H1|]. rewrite H2. reflexivity.
Defined.

Lemma offline_drain_doubles_the_queue_witness :
  let E := constantEnv (respond 503) 0 in
  let w := queueRequests samplePlatform E
             [VideoData "clip.mp4" "squat"; SummaryData sampleSession]
             (startWorld (offline initializedService) 0) in
  length (requestQueue (this (processRequestQueue samplePlatform E w))) = 4%nat.
Proof.
  cbn zeta.
  destruct (offline_drain_doubles_the_queue samplePlatform (constantEnv (respond 503) 0)
              (queueRequests samplePlatform (constantEnv (respond 503) 0)
                 [VideoData "clip.mp4" "squat"; SummaryData sampleSession]
                 (startWorld (offline initializedService) 0))
              eq_refl eq_refl eq_refl)
    as (_ & _ & _ & _ & H).
  - repeat constructor.
  - rewrite H. reflexivity.
Defined.

(** ** The cache over time *)

Section CacheOverTime.

(** X8: a configuration stored by [cacheConfig] is what lookups of its
    key return for the next [CACHE_DURATION] milliseconds (30 minutes, the
    last one included) and not after; storing again under the same key
    replaces the entry and restarts the period; other keys are left as
    they were. *)
Theorem cacheConfig_round_trip (ty : string) (cfg : ExerciseConfig) (w w' : World) :
  configCache (this w') = configCache (this (cacheConfig ty cfg w)) ->
  ((now w' <= now w + CACHE_DURATION)%Z -> getCachedConfig ty w' = (Some cfg, w')) /\
  ((now w' > now w + CACHE_DURATION)%Z -> fst (getCachedConfig ty w') = None) /\
  (forall other, other <> ty ->
     configCache (this w') !! other = configCache (this w) !! other).
Proof.
  intros Hc.
  assert (Hl : configCache (this w') !! ty
               = Some {| CacheEntry.data := cfg; CacheEntry.timestamp := now w;
                         CacheEntry.expiresAt := (now w + CACHE_DURATION)%Z |}).
  { rewrite Hc. unfold cacheConfig, with_this. cbn. apply lookup_insert_eq. }
  split; [|split].
  - intros Hle. unfold getCachedConfig. rewrite Hl. cbn [CacheEntry.expiresAt CacheEntry.data].
    destruct (now w' >? now w + CACHE_DURATION)%Z eqn:Hgt; [lia|reflexivity].
  - intros Hgt. unfold getCachedConfig. rewrite Hl. cbn [CacheEntry.expiresAt].
    destruct (now w' >? now w + CACHE_DURATION)%Z eqn:Hgt'; [reflexivity|lia].
  - intros other Hne. rewrite Hc. unfold cacheConfig, with_this. cbn.
    apply lookup_insert_ne. congruence.
Qed.

(** X9: [clearExpiredCache] removes exactly the entries the clock has
    passed, and it is invisible to lookups: what [getCachedConfig]
    returns for a key is the same before and after the sweep. *)
Theorem clearExpiredCache_is_transparent (w : World) :
  (forall ty entry,
     configCache (this (clearExpiredCache w)) !! ty = Some entry <->
     configCache (this w) !! ty = Some entry /\ (now w <= CacheEntry.expiresAt entry)%Z) /\
  (forall ty,
     fst (getCachedConfig ty (clearExpiredCache w)) = fst (getCachedConfig ty w)).
Proof.
  assert (Hl : forall ty entry,
     configCache (this (clearExpiredCache w)) !! ty = Some entry <->
     configCache (this w) !! ty = Some entry /\ (now w <= CacheEntry.expiresAt entry)%Z).
  { intros ty entry. unfold clearExpiredCache, with_this. cbn [this configCache set_configCache].
    rewrite map_lookup_filter_Some. cbn. split; intros [H1 H2]; (split; [exact H1|lia]). }
  split; [exact Hl|].
  intros ty. unfold getCachedConfig.
  change (now (clearExpiredCache w)) with (now w).
  destruct (configCache (this w) !! ty) as [c|] eqn:Hc.
  - destruct (now w >? CacheEntry.expiresAt c)%Z eqn:Hgt.
    + destruct (configCache (this (clearExpiredCache w)) !! ty) as [c'|] eqn:Hc';
        [|reflexivity].
      apply Hl in Hc' as [Hc' Hle]. rewrite Hc in Hc'. inversion Hc'; subst. lia.
    + assert (Hc' : configCache (this (clearExpiredCache w)) !! ty = Some c)
        by (apply Hl; split; [exact Hc|lia]).
      rewrite Hc', Hgt. reflexivity.
  - destruct (configCache (this (clearExpiredCache w)) !! ty) as [c'|] eqn:Hc';
      [|reflexivity].
    apply Hl in Hc' as [Hc' _]. rewrite Hc in Hc'. discriminate.
Qed.

End CacheOverTime.

Lemma cacheConfig_round_trip_witness :
  let w := startWorld initializedService 1000 in
  let w' := startWorld (this (cacheConfig "squat" sampleConfig w))
                       (1000 + CACHE_DURATION) in
  getCachedConfig "squat" w' = (Some sampleConfig, w').
Proof.
  cbn zeta.
  refine (proj1 (cacheConfig_round_trip "squat" sampleConfig
                   (startWorld initializedService 1000)
                   (startWorld (this (cacheConfig "squat" sampleConfig
                                        (startWorld initializedService 1000)))
                               (1000 + CACHE_DURATION)) _) _).
  - reflexivity.
  - cbn. lia.
Defined.

(** ** Validation and normalisation of payloads *)

Section Normalisation.
Variable P : Platform.
Variable E : Env.

Lemma transformKeypointsFrom_length index raw :
  length (transformKeypointsFrom index raw) = length raw.
Proof.
  revert index. induction raw as [|kp raw IH]; intros index; cbn; [reflexivity|].
  now rewrite IH.
Qed.

Lemma keepTruthy_nonzero (o : option Q) q :
  match o with
  | Some q0 => if Qeq_bool q0 0 then None else Some q0
  | None => None
  end = Some q -> ~ (q == 0)%Q.
Proof.
  destruct o as [q0|]; [|discriminate].
  destruct (Qeq_bool q0 0) eqn:Hq; [discriminate|].
  intros H. inversion H; subst. intros Hz. apply Qeq_bool_iff in Hz. congruence.
Qed.

Lemma transformKeypointsFrom_normalised index raw :
  Forall normalised (transformKeypointsFrom index raw).
Proof.
  revert index. induction raw as [|kp raw IH]; intros index; cbn; constructor; [|apply IH].
  unfold normalised. cbn. split; [|split].
  - destruct (PoseKeypoint.name kp); cbn; discriminate.
  - apply keepTruthy_nonzero.
  - apply keepTruthy_nonzero.
Qed.

Lemma transformKeypointsFrom_idempotent index index' raw :
  transformKeypointsFrom index' (transformKeypointsFrom index raw)
  = transformKeypointsFrom index raw.
Proof.
  revert index index'. induction raw as [|kp raw IH]; intros index index'; cbn;
    [reflexivity|].
  f_equal; [|apply IH]. f_equal.
  - destruct (PoseKeypoint.z kp) as [q|]; [|reflexivity].
    destruct (Qeq_bool q 0) eqn:Hq; [reflexivity|]. now rewrite Hq.
  - destruct (PoseKeypoint.visibility kp) as [q|]; [|reflexivity].
    destruct (Qeq_bool q 0) eqn:Hq; [reflexivity|]. now rewrite Hq.
  - destruct (PoseKeypoint.name kp); reflexivity.
Qed.

(** X10: [transformKeypoints] keeps the number and the coordinates of the
    key points, gives every one of them a name and drops depths and
    visibilities of zero; applying it to its own result changes
    nothing. *)
Theorem transformKeypoints_normalises (raw : list PoseKeypoint.t) :
  length (transformKeypoints raw) = length raw /\
  map PoseKeypoint.x (transformKeypoints raw) = map PoseKeypoint.x raw /\
  map PoseKeypoint.y (transformKeypoints raw) = map PoseKeypoint.y raw /\
  Forall normalised (transformKeypoints raw) /\
  transformKeypoints (transformKeypoints raw) = transformKeypoints raw.
Proof.
  unfold transformKeypoints. repeat split.
  - apply transformKeypointsFrom_length.
  - generalize 0%Z. induction raw as [|kp raw IH]; intros index; cbn;
      [reflexivity|now rewrite IH].
  - generalize 0%Z. induction raw as [|kp raw IH]; intros index; cbn;
      [reflexivity|now rewrite IH].
  - apply transformKeypointsFrom_normalised.
  - apply transformKeypointsFrom_idempotent.
Qed.

Lemma getFallbackPoseData_normalised ty w :
  Forall normalised (PoseData.keypoints (getFallbackPoseData P ty w)).
Proof.
  unfold getFallbackPoseData.
  repeat (match goal with |- context [if ?b then _ else _] => destruct b end);
    cbn [PoseData.keypoints];
    repeat constructor; cbn; try discriminate;
    intros q Hq; inversion Hq; subst; intros Hz; vm_compute in Hz; discriminate.
Qed.

Lemma analyzeFrameRequest_normalised frame ty wk w' pd :
  analyzeFrameRequest P E frame ty wk = (w', Return pd) ->
  Forall normalised (PoseData.keypoints pd).
Proof.
  unfold analyzeFrameRequest.
  destruct (fetch E _ _ wk) as [w1 [response|e]]; [|discriminate].
  destruct (negb (ok response)).
  - repeat (match goal with |- context [if ?b then _ else _] => destruct b end);
      intros H; inversion H; subst; apply getFallbackPoseData_normalised.
  - destruct (json response) as [raw|e]; [|discriminate].
    destruct (parseApiResponse P raw (validatePoseData P) "Frame Analysis") as [r|e];
      [|discriminate].
    intros H. inversion H; subst. cbn [PoseData.keypoints].
    apply transformKeypointsFrom_normalised.
Qed.

Lemma uploadVideoRequest_normalised path ty wk w' res :
  uploadVideoRequest P E path ty wk = (w', Return res) ->
  Forall normalised (AnalysisResult.keypoints res).
Proof.
  unfold uploadVideoRequest.
  destruct (await E _) as [w1 [xhr| |]]; [|discriminate..].
  destruct ((status xhr >=? 200)%Z && (status xhr <? 300)%Z)%bool; [|discriminate].
  destruct (body xhr) as [raw|msg]; [|discriminate].
  destruct (parseApiResponse P raw (validateAnalysisResult P) "Video Upload")
    as [r|[m|]]; [|discriminate..].
  intros H. inversion H; subst. cbn [AnalysisResult.keypoints].
  apply transformKeypointsFrom_normalised.
Qed.

(** X11: whatever [analyzeFrame] or [uploadVideo] returns, be it the
    backend's analysis or the synthetic pose data, its key points are in
    normal form: each has a name and none reports a depth or visibility of
    zero. *)
Theorem returned_keypoints_are_normalised (frame path ty : string) (w : World) :
  (forall w' pd, analyzeFrame P E frame ty w = (w', Return pd) ->
     Forall normalised (PoseData.keypoints pd)) /\
  (forall w' res, uploadVideo P E path ty w = (w', Return res) ->
     Forall normalised (AnalysisResult.keypoints res)).
Proof.
  split.
  - intros w' pd. unfold analyzeFrame.
    destruct (negb (hasBaseUrl w)); [discriminate|].
    destruct (negb (connected w)); [discriminate|].
    unfold executeWithRetry. intros H.
    apply retryLoop_return_inv in H as (wk & _ & Hf).
    eapply analyzeFrameRequest_normalised, Hf.
  - intros w' res. unfold uploadVideo.
    destruct (negb (hasBaseUrl w)); [discriminate|].
    destruct (negb (connected w)); [destruct (queueRequest _ _ _ _); discriminate|].
    unfold executeWithRetry. intros H.
    apply retryLoop_return_inv in H as (wk & _ & Hf).
    eapply uploadVideoRequest_normalised, Hf.
Qed.

Lemma hasAll_missing required field data :
  In field required -> Js.hasKey field data = false -> hasAll required data = false.
Proof.
  intros Hin Hk. unfold hasAll. destruct (forallb _ required) eqn:Hall; [|reflexivity].
  rewrite forallb_forall in Hall. rewrite (Hall field Hin) in Hk. discriminate.
Qed.

(** X12: the validators insist on every required field: a payload that
    lacks one of them is rejected, not accepted with a default and not an
    exception, whatever else it carries. *)
Theorem validators_reject_incomplete_payloads (data : JSValue) (field : string) :
  Js.hasKey field data = false ->
  (In field ["sessionId"; "exerciseType"; "totalReps"; "accuracy"; "formFeedback";
             "keypoints"; "duration"; "calories"; "recommendations"]%string ->
   validateAnalysisResult P data = Return None) /\
  (In field ["keypoints"; "confidence"; "formScore"; "currentRep"; "stage";
             "warnings"]%string ->
   validatePoseData P data = Return None) /\
  (In field ["exerciseType"; "targetKeypoints"; "thresholds"; "feedback"]%string ->
   validateExerciseConfig data = Return None).
Proof.
  intros Hk. split; [|split]; intros Hin.
  - unfold validateAnalysisResult.
    destruct (negb (Js.isObjectType data) || negb (Js.truthy data))%bool; [reflexivity|].
    rewrite (hasAll_missing _ field data Hin Hk). reflexivity.
  - unfold validatePoseData.
    destruct (negb (Js.isObjectType data) || negb (Js.truthy data))%bool; [reflexivity|].
    rewrite (hasAll_missing _ field data Hin Hk). reflexivity.
  - unfold validateExerciseConfig.
    destruct (negb (Js.isObjectType data) || negb (Js.truthy data))%bool; [reflexivity|].
    rewrite (hasAll_missing _ field data Hin Hk). reflexivity.
Qed.

End Normalisation.

Lemma returned_keypoints_are_normalised_witness :
  let E := constantEnv (respond 500) 0 in
  let w := startWorld initializedService 0 in
  Forall normalised
    (PoseData.keypoints (getFallbackPoseData samplePlatform "squat" (fst (await E (emit (NetCall "POST" "") w))))).
Proof.
  cbn zeta.
  refine (proj1 (returned_keypoints_are_normalised samplePlatform
                   (constantEnv (respond 500) 0) "frame" "clip.mp4" "squat"
                   (startWorld initializedService 0)) _ _ _).
  vm_compute. reflexivity.
Defined.

Lemma validators_reject_incomplete_payloads_witness :
  validatePoseData samplePlatform
    (JObj [("keypoints", JArr []); ("confidence", JNum 1); ("formScore", JNum 90);
           ("currentRep", JNum 2); ("warnings", JArr [])])
  = Return None.
Proof.
  refine (proj1 (proj2 (validators_reject_incomplete_payloads samplePlatform
                          (JObj [("keypoints", JArr []); ("confidence", JNum 1);
                                 ("formScore", JNum 90); ("currentRep", JNum 2);
                                 ("warnings", JArr [])]) "stage" _)) _).
  - reflexivity.
  - cbn. tauto.
Defined.

(** ** Exercise configurations *)

Section Configurations.
Variable P : Platform.

Lemma keypointMap_index key :
  isInheritedKey key = false ->
  Js.isArray (Js.or (Js.index keypointMap key) squatKeypoints) = true.
Proof.
  unfold isInheritedKey, Js.index. intros ->. unfold keypointMap. cbn [Js.assoc].
  repeat (match goal with |- context [if ?b then _ else _] => destruct b end);
    reflexivity.
Qed.

Lemma thresholdMap_index key :
  isInheritedKey key = false ->
  Js.isObjectType (Js.or (Js.index thresholdMap key) (thresholdsOf 90 170 1)) = true.
Proof.
  unfold isInheritedKey, Js.index. intros ->. unfold thresholdMap. cbn [Js.assoc].
  repeat (match goal with |- context [if ?b then _ else _] => destruct b end);
    reflexivity.
Qed.

(** X13: the configuration [getFallbackExerciseConfig] hands out is the
    squat or the push-up entry and passes the service's own
    [validateExerciseConfig], for every exercise type but the names of the
    members of [Object.prototype]: for those the table lookup answers with
    the inherited member, which is handed out although it is no
    configuration. *)
Theorem fallback_config_is_valid_unless_inherited (exerciseType : string) :
  (isInheritedKey exerciseType = false ->
     (getFallbackExerciseConfig exerciseType = squatFallback \/
      getFallbackExerciseConfig exerciseType = pushUpFallback) /\
     exists fields,
       getFallbackExerciseConfig exerciseType = JObj fields /\
       validateExerciseConfig (JObj fields) = Return (Some fields)) /\
  (isInheritedKey exerciseType = true ->
     getFallbackExerciseConfig exerciseType = JBuiltin exerciseType /\
     validateExerciseConfig (getFallbackExerciseConfig exerciseType) = Return None).
Proof.
  split.
  - unfold isInheritedKey, getFallbackExerciseConfig, Js.index. intros ->.
    unfold fallbackConfigs. cbn [Js.assoc].
    destruct (exerciseType =? "squat")%string.
    + split; [left; reflexivity|]. eexists. split; reflexivity.
    + destruct (exerciseType =? "push_up")%string.
      * split; [right; reflexivity|]. eexists. split; reflexivity.
      * split; [left; reflexivity|]. eexists. split; reflexivity.
  - intros Hin.
    assert (Hget : getFallbackExerciseConfig exerciseType = JBuiltin exerciseType).
    { unfold getFallbackExerciseConfig, Js.index. unfold isInheritedKey in Hin.
      unfold fallbackConfigs. cbn [Js.assoc].
      destruct (exerciseType =? "squat")%string eqn:H1.
      - apply String.eqb_eq in H1. subst. discriminate.
      - destruct (exerciseType =? "push_up")%string eqn:H2.
        + apply String.eqb_eq in H2. subst. discriminate.
        + rewrite Hin. reflexivity. }
    split; [exact Hget|]. rewrite Hget. unfold validateExerciseConfig.
    destruct (negb (Js.isObjectType (JBuiltin exerciseType)) || negb (Js.truthy (JBuiltin exerciseType)))%bool;
      reflexivity.
Qed.

(** X14: a JSON object sent by the backend as exercise configuration is
    accepted whenever its exercise type names no member of
    [Object.prototype] and its [feedback], when it has one, is an object
    or array. The accepted configuration carries the service's built-in
    thresholds and target key points for that exercise type: thresholds
    and key points sent by the backend are not used. *)
Theorem backend_config_gets_builtin_thresholds (fields : list (string * JSValue))
    (context : string) :
  let raw := JObj fields in
  let exerciseType := Js.or (Js.getOr "exercise_type" raw) (Js.getOr "exerciseType" raw) in
  isInheritedKey (propertyKey P exerciseType) = false ->
  (Js.truthy (Js.getOr "feedback" raw) = true ->
   Js.isObjectType (Js.getOr "feedback" raw) = true) ->
  exists cfg,
    transformExerciseConfig P raw = Return (JObj cfg) /\
    parseApiResponse P (JObj cfg) validateExerciseConfig context = Return cfg /\
    Js.assoc "exerciseType" cfg = Some exerciseType /\
    Js.assoc "thresholds" cfg = Some (getDefaultThresholds P exerciseType) /\
    Js.assoc "targetKeypoints" cfg = Some (getTargetKeypoints P exerciseType).
Proof.
  intros raw exerciseType Hkey Hfb.
  eexists. split; [reflexivity|].
  split; [|repeat split; reflexivity].
  unfold parseApiResponse.
  cbn [Js.truthy Js.isObjectType Js.typeof Js.hasKey Js.assoc String.eqb Ascii.eqb
       Bool.eqb andb].
  unfold validateExerciseConfig.
  cbn [Js.truthy Js.isObjectType Js.typeof negb orb].
  unfold hasAll. cbn [forallb Js.hasKey Js.assoc String.eqb Ascii.eqb Bool.eqb andb negb].
  unfold Js.getOr at 1. cbn [Js.get Js.assoc String.eqb Ascii.eqb Bool.eqb].
  fold raw. fold exerciseType.
  unfold getDefaultThresholds. rewrite (thresholdMap_index _ Hkey). cbn [negb].
  unfold Js.getOr at 1. cbn [Js.get Js.assoc String.eqb Ascii.eqb Bool.eqb].
  assert (Hf : Js.isObjectType
                 (Js.or (Js.getOr "feedback" raw)
                    (JObj [("realTimeEnabled", JBool true); ("audioEnabled", JBool true);
                           ("visualEnabled", JBool true)])) = true).
  { unfold Js.or. destruct (Js.truthy (Js.getOr "feedback" raw)); [auto|reflexivity]. }
  rewrite Hf. cbn [negb].
  unfold Js.getOr at 1. cbn [Js.get Js.assoc String.eqb Ascii.eqb Bool.eqb].
  fold raw. fold exerciseType.
  unfold getTargetKeypoints. rewrite (keypointMap_index _ Hkey). reflexivity.
Qed.

(** X15: what [parseApiResponse] does with a response object that has a
    [success] field.  When [success] is falsy it throws the API error
    with the envelope's [error] (or "Unknown API error"), whatever the
    validator would say; when [success] is truthy and [data] is falsy it
    throws the missing-data error; when both are truthy the outcome is
    the validator's verdict on [data] itself: [data] when the validator
    accepts it, the invalid-structure error when it rejects it, the
    validator's own error when it throws.  [data] is unwrapped once and
    never a second time; when [data] has no [success] field of its own,
    the outcome is the one of [parseApiResponse] on [data] alone. *)
Theorem parseApiResponse_envelope {T} (validator : JSValue -> Result (option T))
    (context : string) (fields : list (string * JSValue)) :
  let response := JObj fields in
  let data := Js.getOr "data" response in
  Js.hasKey "success" response = true ->
  (Js.truthy (Js.getOr "success" response) = false ->
     parseApiResponse P response validator context
     = Throw (Err ("API Error in " ++ context ++ ": "
                   ++ interpolate P (Js.or (Js.getOr "error" response)
                                           (JStr "Unknown API error"))))) /\
  (Js.truthy (Js.getOr "success" response) = true ->
   Js.truthy data = false ->
     parseApiResponse P response validator context
     = Throw (Err ("No data in API response for " ++ context))) /\
  (Js.truthy (Js.getOr "success" response) = true ->
   Js.truthy data = true ->
     parseApiResponse P response validator context
     = match validator data with
       | Throw e => Throw e
       | Return None => Throw (Err ("Invalid response structure for " ++ context))
       | Return (Some v) => Return v
       end /\
     (Js.hasKey "success" data = false ->
        parseApiResponse P response validator context
        = parseApiResponse P data validator context)).
Proof.
  intros response data Hkey. subst data. split; [|split].
  - intros Hs. unfold parseApiResponse. rewrite Hkey, Hs. reflexivity.
  - intros Hs Hd. unfold parseApiResponse. rewrite Hkey, Hs, Hd. reflexivity.
  - intros Hs Hd. split.
    + unfold parseApiResponse. rewrite Hkey, Hs, Hd. reflexivity.
    + intros Hnk. unfold parseApiResponse. rewrite Hkey, Hs, Hd, Hnk.
      rewrite Bool.andb_false_r. reflexivity.
Qed.

End Configurations.

Lemma fallback_config_is_valid_unless_inherited_witness :
  getFallbackExerciseConfig "constructor" = JBuiltin "constructor" /\
  validateExerciseConfig (getFallbackExerciseConfig "constructor") = Return None.
Proof.
  exact (proj2 (fallback_config_is_valid_unless_inherited "constructor") eq_refl).
Defined.

Lemma backend_config_gets_builtin_thresholds_witness :
  exists cfg,
    transformExerciseConfig samplePlatform
      (JObj [("exercise_type", JStr "push_up");
             ("thresholds", JObj [("minAngle", JNum 10)])]) = Return (JObj cfg) /\
    Js.assoc "thresholds" cfg = Some (thresholdsOf 45 160 0.5).
Proof.
  destruct (backend_config_gets_builtin_thresholds samplePlatform
              [("exercise_type", JStr "push_up");
               ("thresholds", JObj [("minAngle", JNum 10)])] "Exercise Config"
              eq_refl ltac:(cbn; discriminate))
    as (cfg & H1 & _ & _ & H2 & _).
  exists cfg. split; [exact H1|exact H2].
Defined.

Lemma parseApiResponse_envelope_witness :
  parseApiResponse samplePlatform
    (JObj [("success", JBool true);
           ("data", JObj [("success", JBool false); ("thresholds", JNull)])])
    validateExerciseConfig "Exercise Config"
  = match validateExerciseConfig
            (JObj [("success", JBool false); ("thresholds", JNull)]) with
    | Throw e => Throw e
    | Return None => Throw (Err "Invalid response structure for Exercise Config")
    | Return (Some v) => Return v
    end.
Proof.
  exact (proj1 (proj2 (proj2 (parseApiResponse_envelope samplePlatform
                                validateExerciseConfig "Exercise Config"
                                [("success", JBool true);
                                 ("data", JObj [("success", JBool false);
                                                ("thresholds", JNull)])]
                                eq_refl)) eq_refl eq_refl)).
Defined.

(** ** Backend discovery and the life cycle of the service *)

Section DiscoveryProperties.

Variable P : Platform.
Variable E : Env.
Variable OS : string.

Lemma onlyConnectivityChanged_refl w : onlyConnectivityChanged w w.
Proof. exists (networkStatus (this w)). destruct (this w); reflexivity. Qed.

Lemma onlyConnectivityChanged_trans w1 w2 w3 :
  onlyConnectivityChanged w1 w2 -> onlyConnectivityChanged w2 w3 ->
  onlyConnectivityChanged w1 w3.
Proof. intros [s1 H1] [s2 H2]. exists s2. rewrite H2, H1. reflexivity. Qed.

Lemma notifications_only_connectivity (l : list NetInfoState) (s : Service) :
  exists status,
    fold_left (fun s st => fst (onNetworkChange st s)) l s = set_networkStatus status s.
Proof.
  revert s. induction l as [|st l IH]; intros s; cbn [fold_left].
  - exists (networkStatus s). destruct s; reflexivity.
  - destruct (IH (fst (onNetworkChange st s))) as [status H].
    exists status. rewrite H. reflexivity.
Qed.

Lemma onlyConnectivityChanged_await w :
  onlyConnectivityChanged w (fst (await E w)).
Proof. apply notifications_only_connectivity. Qed.

Lemma uniqueAfter_sound {A} (eqb : A -> A -> bool) :
  (forall a b, eqb a b = true <-> a = b) ->
  forall items seen,
    NoDup (uniqueAfter eqb seen items) /\
    forall item, In item (uniqueAfter eqb seen items) <->
                 In item items /\ existsb (eqb item) seen = false.
Proof.
  intros Heqb.
  assert (Hrefl : forall a, eqb a a = true) by (intros a; apply Heqb; reflexivity).
  induction items as [|u items IH]; intros seen; cbn [uniqueAfter].
  - split; [constructor|]. intros item. cbn. tauto.
  - destruct (existsb (eqb u) seen) eqn:Hseen.
    + destruct (IH seen) as [Hnd Hin]. split; [exact Hnd|].
      intros item. rewrite Hin. cbn. split; [tauto|].
      intros [[->|H] Hs]; [congruence|tauto].
    + destruct (IH (u :: seen)) as [Hnd Hin]. split.
      * constructor; [|exact Hnd]. rewrite list_elem_of_In, Hin. cbn.
        rewrite Hrefl. intros [_ H]. discriminate.
      * intros item. cbn [In]. rewrite Hin. cbn [existsb].
        destruct (eqb item u) eqn:Hu.
        -- apply Heqb in Hu. subst. cbn. split; [auto|]. intros _. left. reflexivity.
        -- cbn. assert (Hne : item <> u)
             by (intros ->; rewrite Hrefl in Hu; discriminate).
           split.
           ++ intros [H|H]; [congruence|tauto].
           ++ intros [[H|H] Hs]; [congruence|tauto].
Qed.

Lemma candidates_are_urls :
  Forall (fun url => JsString.isEmpty url = false) (getPossibleBackendUrls OS).
Proof.
  unfold getPossibleBackendUrls. destruct (String.eqb OS "android");
    vm_compute; repeat constructor.
Qed.

Lemma testUrl_step url w :
  awaits (fst (testUrl E url w)) = S (awaits w) /\
  trace (fst (testUrl E url w)) = trace w ++ [probeOf url] /\
  TestResult.success (snd (testUrl E url w)) = answersProbe (awaitEvent E (awaits w)) /\
  onlyConnectivityChanged w (fst (testUrl E url w)).
Proof.
  pose proof (onlyConnectivityChanged_await (emit (NetCall "GET" (url ++ "/")) w)) as Hk.
  unfold testUrl, answersProbe. revert Hk. unfold await, emit. cbn [awaits fst this].
  intros Hk.
  destruct (transport (awaitEvent E (awaits w))) as [response| |].
  - destruct (ok response); cbn [andb].
    + unfold json. destruct (body response) as [data|message].
      * repeat split; assumption.
      * unfold describeFailure.
        destruct (JsString.includes message "Network request failed");
          repeat split; assumption.
    + repeat split; assumption.
  - unfold describeFailure.
    destruct (JsString.includes "Network request failed" "Network request failed");
      repeat split; assumption.
  - repeat split; assumption.
Qed.

Lemma probeUrls_outcome urls :
  forall results nc w,
    let out := probeUrls E urls results nc w in
    let w' := fst (fst out) in
    onlyConnectivityChanged w w' /\
    match fst (snd out) with
    | Some url =>
        exists i,
          urls !! i = Some url /\
          answersProbe (awaitEvent E (awaits w + i)) = true /\
          (forall j, j < i -> answersProbe (awaitEvent E (awaits w + j)) = false) /\
          trace w' = trace w ++ map probeOf (take (S i) urls) /\
          snd (fst out) = {| NetworkConfig.detectedIP := Some url |} /\
          map fst (snd (snd out)) = map fst results ++ take (S i) urls
    | None =>
        (forall j, j < length urls ->
                   answersProbe (awaitEvent E (awaits w + j)) = false) /\
        trace w' = trace w ++ map probeOf urls /\
        snd (fst out) = nc /\
        map fst (snd (snd out)) = map fst results ++ urls
    end.
Proof.
  induction urls as [|u urls IH]; intros results nc w; cbn zeta.
  - cbn. split; [apply onlyConnectivityChanged_refl|].
    rewrite !app_nil_r. repeat split. intros j Hj. lia.
  - cbn [probeUrls].
    destruct (testUrl_step u w) as (Ha & Ht & Hs & Hk).
    destruct (testUrl E u w) as [w1 result]. cbn [fst snd] in Ha, Ht, Hs, Hk.
    destruct (TestResult.success result) eqn:Hok.
    + cbn [fst snd]. split; [exact Hk|]. exists 0. rewrite Nat.add_0_r.
      repeat split; try (symmetry; exact Hs).
      * intros j Hj. lia.
      * exact Ht.
      * rewrite map_app. reflexivity.
    + specialize (IH (results ++ [(u, result)]) nc w1). cbn zeta in IH.
      destruct IH as [Hk' IH]. split; [eapply onlyConnectivityChanged_trans; eassumption|].
      destruct (fst (snd (probeUrls E urls (results ++ [(u, result)]) nc w1)))
        as [url|].
      * destruct IH as (i & Hi & Hyes & Hno & Htr & Hnc & Hres).
        exists (S i). rewrite Ha in Hyes, Hno.
        replace (awaits w + S i) with (S (awaits w) + i) by lia.
        repeat split; try assumption.
        -- intros j Hj. destruct j as [|j].
           ++ rewrite Nat.add_0_r. rewrite <- Hs. reflexivity.
           ++ replace (awaits w + S j) with (S (awaits w) + j) by lia.
              apply Hno. lia.
        -- rewrite Htr, Ht, <- app_assoc. reflexivity.
        -- rewrite Hres, map_app, <- app_assoc. reflexivity.
      * destruct IH as (Hno & Htr & Hnc & Hres). rewrite Ha in Hno.
        repeat split; try assumption.
        -- intros j Hj. destruct j as [|j].
           ++ rewrite Nat.add_0_r. rewrite <- Hs. reflexivity.
           ++ replace (awaits w + S j) with (S (awaits w) + j) by lia.
              apply Hno. cbn in Hj. lia.
        -- rewrite Htr, Ht, <- app_assoc. reflexivity.
        -- rewrite Hres, map_app, <- app_assoc. reflexivity.
Qed.

(** X16: [findBestBackendUrl] probes the candidate URLs in the order of
    [getPossibleBackendUrls], each at most once and one after the other,
    and stops at the first one that answers with a 2xx response and a
    decodable body: that URL is returned and remembered as [detectedIP],
    and no later candidate is contacted. When none answers, every
    candidate was probed exactly once, the result is [null] and
    [detectedIP] is left alone. Nothing of the service but its
    connectivity status changes meanwhile. *)
Theorem findBestBackendUrl_picks_first_answering (nc : NetworkConfig.t) (w : World) :
  let urls := getPossibleBackendUrls OS in
  let out := findBestBackendUrl E OS nc w in
  let w' := fst (fst out) in
  NoDup urls /\
  onlyConnectivityChanged w w' /\
  match fst (snd out) with
  | Some url =>
      exists i,
        urls !! i = Some url /\
        answersProbe (awaitEvent E (awaits w + i)) = true /\
        (forall j, j < i -> answersProbe (awaitEvent E (awaits w + j)) = false) /\
        trace w' = trace w ++ map probeOf (take (S i) urls) /\
        snd (fst out) = {| NetworkConfig.detectedIP := Some url |} /\
        map fst (snd (snd out)) = take (S i) urls
  | None =>
      (forall j, j < length urls ->
                 answersProbe (awaitEvent E (awaits w + j)) = false) /\
      trace w' = trace w ++ map probeOf urls /\
      snd (fst out) = nc /\
      map fst (snd (snd out)) = urls
  end.
Proof.
  cbn zeta. split; [apply (uniqueAfter_sound String.eqb String.eqb_eq)|].
  exact (probeUrls_outcome (getPossibleBackendUrls OS) [] nc w).
Qed.

(** X17: [initialize] answers [true] exactly when it leaves the service
    initialised with a base URL. It then either found the service already
    initialised and did nothing, or adopted the candidate that
    [findBestBackendUrl] detected; calling it again sends nothing and
    answers [true]. When it answers [false] every candidate was probed
    once and the service is as before, connectivity status apart. *)
Theorem initialize_settles_on_a_candidate (nc : NetworkConfig.t) (w : World) :
  let out := initialize E OS nc w in
  let w' := fst (fst out) in
  let nc' := snd (fst out) in
  if snd out then
    isInitialized (this w') = true /\ hasBaseUrl w' = true /\
    initialize E OS nc' w' = (w', nc', true) /\
    ((w' = w /\ nc' = nc) \/
     exists url w1,
       In url (getPossibleBackendUrls OS) /\
       onlyConnectivityChanged w w1 /\
       w' = with_this (set_backend url) w1 /\
       nc' = {| NetworkConfig.detectedIP := Some url |})
  else
    onlyConnectivityChanged w w' /\ nc' = nc /\
    trace w' = trace w ++ map probeOf (getPossibleBackendUrls OS).
Proof.
  cbn zeta. destruct (initialize E OS nc w) as [[w' nc'] ready] eqn:Hinit.
  cbn [fst snd]. unfold initialize in Hinit.
  destruct (isInitialized (this w) && hasBaseUrl w)%bool eqn:Hready.
  - inversion Hinit; subst. apply andb_true_iff in Hready as [Hi Hb].
    repeat split; try assumption.
    + unfold initialize. rewrite Hi, Hb. reflexivity.
    + left. split; reflexivity.
  - pose proof (probeUrls_outcome (getPossibleBackendUrls OS) [] nc w) as Hout.
    cbn zeta in Hout. fold (findBestBackendUrl E OS nc w) in Hout.
    destruct (findBestBackendUrl E OS nc w) as [[w1 nc1] [[url|] results]];
      cbn [fst snd] in Hout; destruct Hout as [Hk Hout].
    + destruct Hout as (i & Hi & _ & _ & _ & Hnc & _).
      assert (Hne : JsString.isEmpty url = false)
        by exact (Forall_lookup_1 _ _ _ _ candidates_are_urls Hi).
      rewrite Hne in Hinit. cbn [negb] in Hinit. inversion Hinit; subst.
      assert (Hb : hasBaseUrl (with_this (set_backend url) w1) = true).
      { unfold hasBaseUrl, with_this. cbn. rewrite Hne. reflexivity. }
      repeat split; try assumption; try reflexivity.
      * unfold initialize. rewrite Hb. reflexivity.
      * right. exists url, w1. repeat split; try assumption.
        apply list_elem_of_In. eapply list_elem_of_lookup_2. exact Hi.
    + inversion Hinit; subst. destruct Hout as (_ & Htr & Hnc & _).
      repeat split; assumption.
Qed.







(** X19: after [reset] the service has forgotten its backend, its queue
    and its cache, but not its retry configuration nor its connectivity
    status. Every operation then fails with the not-initialised error
    and has no effect, cached configurations included, and draining the
    queue does nothing. An [initialize] that succeeds afterwards makes
    the service usable again, with an empty queue and an empty cache
    whatever was queued or cached before the reset. *)
Theorem reset_forgets_the_backend (w : World) :
  let w' := reset w in
  (forall videoPath ty, uploadVideo P E videoPath ty w' = (w', notInitialized)) /\
  (forall frameData ty, analyzeFrame P E frameData ty w' = (w', notInitialized)) /\
  (forall ty, getExerciseConfig P E ty w' = (w', notInitialized)) /\
  (forall sessionData, submitSessionSummary P E sessionData w' = (w', notInitialized)) /\
  processRequestQueue P E w' = w' /\
  retryConfig (this w') = retryConfig (this w) /\
  networkStatus (this w') = networkStatus (this w) /\
  (forall nc,
     let out := initialize E OS nc w' in
     snd out = true ->
     hasBaseUrl (fst (fst out)) = true /\
     requestQueue (this (fst (fst out))) = [] /\
     (forall ty, fst (getCachedConfig ty (fst (fst out))) = None) /\
     retryConfig (this (fst (fst out))) = retryConfig (this w)).
Proof.
  cbn zeta. do 7 (split; [reflexivity|]).
  intros nc. unfold initialize. cbn [reset with_this this isInitialized andb].
  pose proof (probeUrls_outcome (getPossibleBackendUrls OS) [] nc (reset w)) as Hout.
  cbn zeta in Hout. fold (findBestBackendUrl E OS nc (reset w)) in Hout.
  change (findBestBackendUrl E OS nc _) with (findBestBackendUrl E OS nc (reset w)).
  destruct (findBestBackendUrl E OS nc (reset w)) as [[w1 nc1] [[url|] results]];
    cbn [fst snd] in Hout |- *; [|discriminate].
  destruct Hout as [[status Hk] (i & Hi & _)].
  assert (Hne : JsString.isEmpty url = false)
    by exact (Forall_lookup_1 _ _ _ _ candidates_are_urls Hi).
  change (isInitialized (this (reset w))) with false. cbn [andb].
  rewrite Hne. cbn [negb fst snd]. intros _.
  unfold hasBaseUrl, getCachedConfig, with_this. cbn [this]. rewrite Hk.
  destruct url as [|c url]; [discriminate Hne|]. cbn. repeat split.
Qed.

(** X20: a negative retry ceiling, which [updateRetryConfig] accepts,
    disables the operations that use it: on a connected, initialised
    service [uploadVideo] and [submitSessionSummary] then send nothing,
    change nothing and reject with [undefined] instead of an error;
    [analyzeFrame], which has a ceiling of its own, still sends its
    request. *)
Theorem negative_retry_ceiling_sends_nothing (n : Z) (w : World) :
  (n < 0)%Z -> hasBaseUrl w = true -> connected w = true ->
  let w' := updateRetryConfig (Some n) None None None w in
  (forall videoPath ty, uploadVideo P E videoPath ty w' = (w', Throw ThrownUndefined)) /\
  (forall sessionData,
     submitSessionSummary P E sessionData w' = (w', Throw ThrownUndefined)) /\
  (forall frameData ty,
     (netCallsIn (trace (fst (analyzeFrame P E frameData ty w')))
      >= S (netCallsIn (trace w)))%nat).
Proof.
  intros Hn Hb Hc. cbn zeta.
  assert (Hb' : hasBaseUrl (updateRetryConfig (Some n) None None None w) = true)
    by exact Hb.
  assert (Hc' : connected (updateRetryConfig (Some n) None None None w) = true)
    by exact Hc.
  assert (Hz : Z.to_nat (defaultMaxRetries (updateRetryConfig (Some n) None None None w) + 1)
               = 0%nat).
  { unfold defaultMaxRetries, updateRetryConfig, with_this. cbn. lia. }
  split; [|split].
  - intros videoPath ty. unfold uploadVideo, executeWithRetry.
    rewrite Hb', Hc', Hz. reflexivity.
  - intros sessionData. unfold submitSessionSummary, executeWithRetry.
    rewrite Hb', Hc', Hz. reflexivity.
  - intros frameData ty. unfold analyzeFrame, executeWithRetry.
    rewrite Hb', Hc'. cbn [negb]. change (Z.to_nat (1 + 1)) with 2%nat.
    rewrite retryLoop_S. unfold tryRequest. rewrite Hc'. cbn [negb].
    pose proof (analyzeFrameRequest_oneCall P E frameData ty
                  (updateRetryConfig (Some n) None None None w)) as H1.
    unfold oneCall in H1.
    change (trace (updateRetryConfig (Some n) None None None w)) with (trace w) in H1.
    destruct (analyzeFrameRequest P E frameData ty _) as [w1 [v|[msg|]]];
      cbn [fst] in H1 |- *; try lia.
    destruct (isNonRetryableError msg); cbn [fst]; [lia|].
    destruct (0 >=? 1)%Z eqn:H0; [discriminate|].
    destruct (calculateRetryDelay P E 0 w1) as [delay w2] eqn:Hd.
    assert (Hev : evolves (fun _ => true) (sleep E delay w2)
                    (fst (retryLoop P E (analyzeFrameRequest P E frameData ty) 1 1
                            (0 + 1)%Z (Err msg) (sleep E delay w2)))).
    { apply evolves_retryLoop; [reflexivity|].
      intros w0. apply evolves_analyzeFrameRequest; reflexivity. }
    destruct Hev as [_ (evs & Ht & _)]. cbn [fst snd].
    rewrite Ht, netCallsIn_app.
    assert (Ht2 : trace (sleep E delay w2) = trace w1 ++ [Sleep delay]).
    { assert (Hw2 : trace w2 = trace w1).
      { change w2 with (snd (delay, w2)). rewrite <- Hd.
        rewrite (calculateRetryDelay_world P E). reflexivity. }
      unfold sleep, await, emit. cbn. rewrite Hw2. reflexivity. }
    rewrite Ht2, netCallsIn_app. lia.
Qed.

End DiscoveryProperties.

(** ** The health chatbot *)

Section ChatbotProperties.

Variable P : Platform.
Variable E : Env.

Lemma Category_eqb_eq a b : Category.eqb a b = true <-> a = b.
Proof. destruct a, b; cbn; split; intros H; congruence. Qed.

Lemma uniqueAfter_skips {A} (eqb : A -> A -> bool) (c : A) (seen : list A)
    {B} (block : list B) (rest : list A) :
  existsb (eqb c) seen = true ->
  uniqueAfter eqb seen (map (fun _ => c) block ++ rest) = uniqueAfter eqb seen rest.
Proof.
  intros Hc. induction block as [|b block IH]; cbn; [reflexivity|].
  rewrite Hc. exact IH.
Qed.

Lemma pushed_nil message entry :
  mentions message entry = false -> pushed message entry = [].
Proof.
  unfold mentions, pushed. destruct entry as [c kws]. cbn [fst snd].
  induction kws as [|k kws IH]; cbn; [reflexivity|].
  destruct (Utf16.includes message (Utf16.ofString k)); cbn; [discriminate|exact IH].
Qed.

Lemma pushed_cons message entry :
  mentions message entry = true ->
  exists block : list string,
    pushed message entry = fst entry :: map (fun _ => fst entry) block.
Proof.
  unfold mentions, pushed. destruct entry as [c kws]. cbn [fst snd].
  induction kws as [|k kws IH]; cbn; [discriminate|].
  destruct (Utf16.includes message (Utf16.ofString k)); cbn; [eauto|exact IH].
Qed.

Lemma extract_closed_form message (table : list (Category.t * list string)) :
  List.NoDup (map fst table) ->
  forall seen,
    (forall entry, In entry table -> existsb (Category.eqb (fst entry)) seen = false) ->
    uniqueAfter Category.eqb seen (flat_map (pushed message) table)
    = map fst (List.filter (mentions message) table).
Proof.
  induction table as [|entry table IH]; intros Hnd seen Hseen; [reflexivity|].
  cbn [flat_map List.filter map] in *. inversion Hnd as [|? ? Hnotin Hnd']; subst.
  destruct (mentions message entry) eqn:Hm.
  - destruct (pushed_cons _ _ Hm) as [block ->].
    cbn [app uniqueAfter]. rewrite (Hseen entry) by (left; reflexivity).
    cbn [map]. f_equal.
    rewrite uniqueAfter_skips.
    + apply IH; [exact Hnd'|]. intros e He. cbn [existsb].
      rewrite (Hseen e) by (right; exact He). rewrite Bool.orb_false_r.
      destruct (Category.eqb (fst e) (fst entry)) eqn:Heq; [|reflexivity].
      apply Category_eqb_eq in Heq. exfalso. apply Hnotin. rewrite <- Heq.
      apply in_map, He.
    + cbn [existsb]. replace (Category.eqb (fst entry) (fst entry)) with true;
        [reflexivity|]. symmetry. apply Category_eqb_eq. reflexivity.
  - rewrite (pushed_nil _ _ Hm). cbn [app]. apply IH; [exact Hnd'|].
    intros e He. apply Hseen. right. exact He.
Qed.

Lemma healthKeywords_NoDup : List.NoDup (map fst healthKeywords).
Proof.
  cbn. repeat constructor; cbn; intuition discriminate.
Qed.

Lemma extractHealthKeywords_closed_form message :
  extractHealthKeywords message
  = map fst (List.filter (mentions message) healthKeywords).
Proof.
  unfold extractHealthKeywords.
  apply extract_closed_form; [apply healthKeywords_NoDup|]. reflexivity.
Qed.

(** X21: [extractHealthKeywords] answers with the categories of
    [healthKeywords] that have at least one keyword occurring in the
    message, each once and in the order of the table, however many of its
    keywords occur. *)
Theorem extractHealthKeywords_lists_each_topic_once (message : Utf16.t) :
  extractHealthKeywords message
  = map fst (List.filter (mentions message) healthKeywords) /\
  NoDup (extractHealthKeywords message) /\
  (forall category,
     In category (extractHealthKeywords message) <->
     exists keywords keyword,
       In (category, keywords) healthKeywords /\ In keyword keywords /\
       Utf16.includes message (Utf16.ofString keyword) = true).
Proof.
  split; [apply extractHealthKeywords_closed_form|]. split.
  - apply (uniqueAfter_sound Category.eqb Category_eqb_eq).
  - intros category. rewrite extractHealthKeywords_closed_form, in_map_iff. split.
    + intros [[c kws] [Hc Hin]]. cbn in Hc. subst c.
      apply List.filter_In in Hin as [Hin Hm]. unfold mentions in Hm.
      apply existsb_exists in Hm as (keyword & Hk & Hinc).
      exists kws, keyword. auto.
    + intros (kws & keyword & Hin & Hk & Hinc). exists (category, kws).
      split; [reflexivity|]. apply List.filter_In. split; [exact Hin|].
      apply existsb_exists. exists keyword. auto.
Qed.






End ChatbotProperties.

Lemma findBestBackendUrl_picks_first_answering_witness :
  NoDup (getPossibleBackendUrls "android").
Proof.
  exact (proj1 (findBestBackendUrl_picks_first_answering
                  (constantEnv (respond 200) 0) "android"
                  {| NetworkConfig.detectedIP := None |}
                  (startWorld initialService 0))).
Defined.


Lemma negative_retry_ceiling_sends_nothing_witness :
  let w' := updateRetryConfig (Some (-1)%Z) None None None
              (startWorld initializedService 0) in
  uploadVideo samplePlatform (constantEnv (respond 200) 0) "clip.mp4" "squat" w'
  = (w', Throw ThrownUndefined).
Proof.
  cbn zeta.
  refine (proj1 (negative_retry_ceiling_sends_nothing samplePlatform
                   (constantEnv (respond 200) 0) (-1)
                   (startWorld initializedService 0) _ _ _) _ _).
  - lia.
  - reflexivity.
  - reflexivity.
Defined.


Lemma reset_forgets_the_backend_witness :
  let w := startWorld (cachedService 1000) 0 in
  let out := initialize (constantEnv (respond 200) 0) "ios"
               {| NetworkConfig.detectedIP := None |} (reset w) in
  fst (getCachedConfig "squat" (fst (fst out))) = None.
Proof.
  cbn zeta.
  destruct (reset_forgets_the_backend samplePlatform (constantEnv (respond 200) 0)
              "ios" (startWorld (cachedService 1000) 0))
    as (_ & _ & _ & _ & _ & _ & _ & H).
  destruct (H {| NetworkConfig.detectedIP := None |} eq_refl) as (_ & _ & Hc & _).
  exact (Hc "squat"%string).
Defined.

(** ** Answers that fail validation *)

Section MalformedAnswers.

Variable P : Platform.
Variable E : Env.

Lemma notifications_keep_online (l : list NetInfoState) (s : Service) :
  NetworkStatus.isConnected (networkStatus s) = true ->
  forallb reportsOnline l = true ->
  NetworkStatus.isConnected
    (networkStatus (fold_left (fun s st => fst (onNetworkChange st s)) l s)) = true.
Proof.
  revert s. induction l as [|st l IH]; intros s Hs Hl; [exact Hs|].
  cbn [forallb] in Hl. apply andb_true_iff in Hl as [Hst Hl].
  cbn [fold_left]. apply IH; [|exact Hl]. exact Hst.
Qed.

Lemma sleep_while_online d w :
  connected w = true -> staysOnline E (awaits w) ->
  connected (sleep E d w) = true /\
  awaits (sleep E d w) = S (awaits w) /\
  trace (sleep E d w) = trace w ++ [Sleep d].
Proof.
  intros Hc Hs. unfold sleep, await, emit, connected. cbn.
  repeat split. apply notifications_keep_online; [exact Hc|].
  apply Hs. reflexivity.
Qed.

Lemma malformed_is_retryable :
  isNonRetryableError
    "Invalid response format: Invalid response structure for Video Upload" = false.
Proof. vm_compute. reflexivity. Qed.

Lemma uploadVideoRequest_malformed videoPath ty w :
  connected w = true -> staysOnline E (awaits w) -> answersMalformed P E (awaits w) ->
  let out := uploadVideoRequest P E videoPath ty w in
  snd out = Throw (Err "Invalid response format: Invalid response structure for Video Upload") /\
  connected (fst out) = true /\
  awaits (fst out) = S (awaits w) /\
  netCallsIn (trace (fst out)) = S (netCallsIn (trace w)) /\
  retriesIn (trace (fst out)) = retriesIn (trace w).
Proof.
  intros Hc Hs Hm. cbn zeta.
  destruct (Hm (awaits w) (le_n _)) as (xhr & raw & Ht & [Hlo Hhi] & Hbody & Hparse).
  assert (Hon : connected (fst (await E (emit (NetCall "POST" (baseUrlString w ++ "/api/analyze-video")) w))) = true).
  { unfold await, emit, connected. cbn.
    apply notifications_keep_online; [exact Hc|]. apply Hs. reflexivity. }
  unfold uploadVideoRequest. revert Hon. unfold await, emit. cbn [awaits fst].
  rewrite Ht. intros Hon.
  replace ((status xhr >=? 200)%Z && (status xhr <? 300)%Z)%bool with true
    by (symmetry; apply andb_true_iff; split; lia).
  rewrite Hbody, Hparse. cbn [fst snd trace awaits].
  rewrite netCallsIn_app, retriesIn_app. cbn.
  repeat split; try assumption; lia.
Qed.

Lemma staysOnline_later from from' :
  (from <= from')%nat -> staysOnline E from -> staysOnline E from'.
Proof. intros Hle Hs i Hi. apply Hs. lia. Qed.

Lemma answersMalformed_later from from' :
  (from <= from')%nat -> answersMalformed P E from -> answersMalformed P E from'.
Proof. intros Hle Hs i Hi. apply Hs. lia. Qed.

Lemma retryLoop_while_malformed videoPath ty (n : Z) :
  forall remaining attempt lastError w,
    connected w = true ->
    staysOnline E (awaits w) -> answersMalformed P E (awaits w) ->
    (Z.of_nat remaining = n - attempt)%Z ->
    let out := retryLoop P E (uploadVideoRequest P E videoPath ty) n (S remaining)
                 attempt lastError w in
    snd out = Throw (Err "Invalid response format: Invalid response structure for Video Upload") /\
    netCallsIn (trace (fst out)) = (netCallsIn (trace w) + S remaining)%nat /\
    retriesIn (trace (fst out)) = (retriesIn (trace w) + remaining)%nat.
Proof.
  induction remaining as [|r IH]; intros attempt lastError w Hc Hs Hm Hr out; subst out;
    rewrite retryLoop_S, (tryRequest_online (uploadVideoRequest P E videoPath ty) w Hc);
    destruct (uploadVideoRequest_malformed videoPath ty w Hc Hs Hm)
      as (Hres & Hc1 & Ha1 & Hn1 & Hr1);
    destruct (uploadVideoRequest P E videoPath ty w) as [w1 res];
    cbn [fst snd] in Hres, Hc1, Ha1, Hn1, Hr1; subst res;
    rewrite malformed_is_retryable.
  - destruct (attempt >=? n)%Z eqn:Hge; [|lia]. cbn [fst snd].
    repeat split; lia.
  - destruct (attempt >=? n)%Z eqn:Hge; [lia|].
    set (w2 := snd (calculateRetryDelay P E attempt w1)).
    set (d := fst (calculateRetryDelay P E attempt w1)).
    assert (Hc2 : connected w2 = true) by exact Hc1.
    assert (Hs2 : staysOnline E (awaits w2))
      by (eapply staysOnline_later; [|exact Hs]; change (awaits w2) with (awaits w1); lia).
    destruct (sleep_while_online d w2 Hc2 Hs2) as (Hc3 & Ha3 & Ht3).
    assert (Hs3 : staysOnline E (awaits (sleep E d w2)))
      by (eapply staysOnline_later; [|exact Hs2]; lia).
    assert (Hm3 : answersMalformed P E (awaits (sleep E d w2))).
    { eapply answersMalformed_later; [|exact Hm]. rewrite Ha3.
      change (awaits w2) with (awaits w1). lia. }
    destruct (IH (attempt + 1)%Z
                 (Err "Invalid response format: Invalid response structure for Video Upload")
                 (sleep E d w2) Hc3 Hs3 Hm3 ltac:(lia)) as (Hres & Hnet & Hret).
    destruct (calculateRetryDelay P E attempt w1) as [d' w2'] eqn:Hd.
    cbn [fst snd] in d, w2. subst d w2.
    split; [exact Hres|]. rewrite Hnet, Hret, Ht3.
    rewrite retriesIn_app, netCallsIn_app.
    assert (Htr : trace w2' = trace w1).
    { change w2' with (snd (d', w2')). rewrite <- Hd.
      rewrite (calculateRetryDelay_world P E). reflexivity. }
    rewrite Htr. cbn. split; lia.
Qed.

(** X23: an answer that arrives with a 2xx status but fails the
    validation of the payload is treated as a transient failure: while
    the backend keeps answering that way and the device stays online,
    [uploadVideo] repeats the upload until the retry ceiling is reached,
    that is [maxRetries + 1] requests and [maxRetries] backoff waits, and
    then fails with the validation error. *)
Theorem malformed_answers_exhaust_the_retry_budget
    (videoPath ty : string) (w : World) :
  hasBaseUrl w = true -> connected w = true ->
  (0 <= defaultMaxRetries w)%Z ->
  staysOnline E (awaits w) -> answersMalformed P E (awaits w) ->
  let out := uploadVideo P E videoPath ty w in
  snd out = Throw (Err "Invalid response format: Invalid response structure for Video Upload") /\
  netCallsIn (trace (fst out))
  = (netCallsIn (trace w) + Z.to_nat (defaultMaxRetries w + 1))%nat /\
  retriesIn (trace (fst out))
  = (retriesIn (trace w) + Z.to_nat (defaultMaxRetries w))%nat.
Proof.
  intros Hb Hc Hn Hs Hm. cbn zeta. unfold uploadVideo, executeWithRetry.
  rewrite Hb, Hc. cbn [negb].
  replace (Z.to_nat (defaultMaxRetries w + 1)) with (S (Z.to_nat (defaultMaxRetries w)))
    by lia.
  apply retryLoop_while_malformed; try assumption. lia.
Qed.

End MalformedAnswers.

Lemma malformed_answers_exhaust_the_retry_budget_witness :
  let out := uploadVideo samplePlatform (constantEnv (respond 200) 0) "clip.mp4" "squat"
               (startWorld initializedService 0) in
  netCallsIn (trace (fst out)) = 4%nat /\ retriesIn (trace (fst out)) = 3%nat.
Proof.
  cbn zeta.
  refine (proj2 (malformed_answers_exhaust_the_retry_budget samplePlatform
                   (constantEnv (respond 200) 0) "clip.mp4" "squat"
                   (startWorld initializedService 0) _ _ _ _ _)).
  - reflexivity.
  - reflexivity.
  - vm_compute. discriminate.
  - intros i Hi. reflexivity.
  - intros i Hi. eexists. exists JNull. repeat split.
    + vm_compute. discriminate.
Defined.
